(** * pubMedArticleGrabber: a shallow embedding of [PubMedArticleGrabber]

    The development follows [pubMedArticleGrabber.py].  Python values are
    embedded as follows:
    - [str] is [string]: a character stands for the code point of its
      number, so the strings are those over the code points U+0000 to
      U+00FF; [None] is the [None] of an [option]; truthiness of an
      optional string is [truthy];
    - a Python exception is an [exn]: its class and its text [str(e)];
      a call that may raise returns a [result];
    - a [dict] with string keys is a [gmap string _];
    - a Python [set] is iterated in an order the language leaves open; the
      loops below receive the elements as a duplicate-free list in
      iteration order;
    - remote services ([Entrez], Crossref, HTTP) are oracles passed as
      arguments. *)

From stdpp Require Import gmap strings list.
From Stdlib Require Import ZArith Ascii String.

Open Scope string_scope.

(** ** Exceptions and results *)

Inductive exn_class :=
  | HTTPError              (* urllib.error.HTTPError *)
  | URLError               (* urllib.error.URLError *)
  | CertificateError       (* ssl.CertificateError *)
  | TimeoutError
  | ConnectionResetError
  | RequestsHTTPError      (* requests.exceptions.HTTPError *)
  | RequestsSSLError       (* requests.exceptions.SSLError *)
  | RequestsTimeout        (* requests.exceptions.Timeout *)
  | RequestsConnectionError
  | RequestsTooManyRedirects
  | RequestsChunkedEncodingError
  | NameError
  | UnboundLocalError
  | TypeError
  | IndexError
  | KeyError
  | ValueError
  | NotXMLError            (* Bio.Entrez.Parser.NotXMLError *)
  | UnicodeDecodeError
  | UnicodeEncodeError
  | RuntimeError
  | FileNotFoundError
  | FileExistsError
  | AssertionError
  | EmptyDataError         (* pandas.errors.EmptyDataError *)
  | ParserError.           (* pandas.errors.ParserError *)

#[global] Instance exn_class_eq_dec : EqDecision exn_class.
Proof. solve_decision. Defined.

Record exn := mkExn { exn_cls : exn_class; exn_str : string }.

#[global] Instance exn_eq_dec : EqDecision exn.
Proof. solve_decision. Defined.

Inductive result (A : Type) :=
  | Ok (a : A)
  | Raise (e : exn).
Arguments Ok {A} a.
Arguments Raise {A} e.

Definition bind {A B} (r : result A) (k : A → result B) : result B :=
  match r with
  | Ok a => k a
  | Raise e => Raise e
  end.

Notation "'let*' x ':=' r 'in' k" := (bind r (λ x, k))
  (at level 10, x name, r at level 100, k at level 200).

(** [issubclass c d] for the classes above: the direct base classes that
    matter to the [except] clauses of the module. *)
Definition issubclass (c d : exn_class) : bool :=
  bool_decide (c = d) ||
  match c, d with
  | HTTPError, URLError => true
  | RequestsSSLError, RequestsConnectionError => true
  | UnboundLocalError, NameError => true
  | UnicodeDecodeError, ValueError => true
  | UnicodeEncodeError, ValueError => true
  | NotXMLError, ValueError => true
  | _, _ => false
  end.

(** [except (c1, c2, ...) as e] catches [e] when its class is a subclass of
    one of the listed classes. *)
Definition caught_by (handlers : list exn_class) (e : exn) : bool :=
  existsb (issubclass (exn_cls e)) handlers.

(** ** Strings *)

Definition truthy (o : option string) : bool :=
  match o with
  | Some (String _ _) => true
  | _ => false
  end.

(** [needle in hay] *)
Fixpoint contains (needle hay : string) : bool :=
  String.prefix needle hay ||
  match hay with
  | EmptyString => false
  | String _ hay' => contains needle hay'
  end.

(** [s.split(sep)] for a non-empty [sep]: [skip] counts the characters of
    a separator still to be dropped, [cur] is the current piece reversed. *)
Fixpoint split_go (sep : string) (skip : nat) (cur : string) (s : string)
  : list string :=
  match s with
  | EmptyString => [String.rev cur]
  | String c s' =>
      match skip with
      | S k => split_go sep k cur s'
      | O =>
          if String.prefix sep s
          then String.rev cur :: split_go sep (String.length sep - 1) "" s'
          else split_go sep 0 (String c cur) s'
      end
  end.

Definition split (s sep : string) : list string := split_go sep 0 "" s.

(** [l[-1]] and [l[0]] *)
Definition index_last {A} (l : list A) : result A :=
  match last l with
  | Some a => Ok a
  | None => Raise (mkExn IndexError "list index out of range")
  end.

Definition index_first {A} (l : list A) : result A :=
  match l with
  | a :: _ => Ok a
  | [] => Raise (mkExn IndexError "list index out of range")
  end.

Definition is_lower (c : ascii) : bool :=
  (97 <=? nat_of_ascii c)%nat && (nat_of_ascii c <=? 122)%nat.
Definition is_upper (c : ascii) : bool :=
  (65 <=? nat_of_ascii c)%nat && (nat_of_ascii c <=? 90)%nat.
Definition is_letter (c : ascii) : bool := is_lower c || is_upper c.
Definition is_newline (c : ascii) : bool := Ascii.eqb c "010"%char.

(** The double-quote character, and a string put between double quotes. *)
Definition dquote : ascii := ascii_of_nat 34.
Definition quoted (s : string) : string :=
  String dquote (s ++ String dquote "").

(** The capital letters among the code points 128 to 255: U+00C0 to
    U+00DE without the multiplication sign U+00D7. *)
Definition is_upper_latin1 (c : ascii) : bool :=
  (192 <=? nat_of_ascii c)%nat && (nat_of_ascii c <=? 222)%nat
  && negb (nat_of_ascii c =? 215)%nat.

(** [str.lower] on one character: a capital letter moves up by 32, every
    other character stays. *)
Definition lower_char (c : ascii) : ascii :=
  if is_upper c || is_upper_latin1 c
  then ascii_of_nat (nat_of_ascii c + 32) else c.

(** [s.lower()] *)
Fixpoint lower (s : string) : string :=
  match s with
  | EmptyString => EmptyString
  | String c s' => String (lower_char c) (lower s')
  end.

(** ** Regular expressions

    [re.findall] scans the subject from left to right; at each position it
    runs the backtracking matcher, records group 1 of a match and resumes
    at the end of the match.  [m s] is the matcher anchored at the head of
    [s]; it returns group 1 and the text left after the match.  Both
    patterns of the module match at least one character. *)
Fixpoint findall (m : string → option (string * string)) (fuel : nat)
    (s : string) : list string :=
  match fuel with
  | O => []
  | S fuel' =>
      match m s with
      | Some (g, rest) => g :: findall m fuel' rest
      | None =>
          match s with
          | EmptyString => []
          | String _ s' => findall m fuel' s'
          end
      end
  end.

Definition re_findall (m : string → option (string * string)) (s : string)
  : list string :=
  findall m (S (String.length s)) s.

(** [$] without [re.MULTILINE]: the end of the subject, or just before a
    final newline. *)
Definition at_eol (s : string) : bool :=
  match s with
  | EmptyString => true
  | String c EmptyString => is_newline c
  | _ => false
  end.

(** [n] letters exactly, returning them and the rest. *)
Fixpoint take_letters (n : nat) (s : string) : option (string * string) :=
  match n with
  | O => Some ("", s)
  | S n' =>
      match s with
      | String c s' =>
          if is_letter c
          then match take_letters n' s' with
               | Some (l, r) => Some (String c l, r)
               | None => None
               end
          else None
      | EmptyString => None
      end
  end.

(** The optional double quote and the [$] after the group: the quote is
    tried first, then its absence. *)
Definition ext_quote_eol (g r : string) : option (string * string) :=
  match r with
  | String c r' =>
      if Ascii.eqb c dquote && at_eol r' then Some (g, r')
      else if at_eol r then Some (g, r) else None
  | EmptyString => if at_eol r then Some (g, r) else None
  end.

(** The group [([a-zA-Z]{3,10})] and what follows it: the greedy count is tried from [n] downwards,
    never below 3. *)
Fixpoint ext_letters (n : nat) (s : string) : option (string * string) :=
  let here :=
    match take_letters n s with
    | Some (g, r) => ext_quote_eol g r
    | None => None
    end in
  match here with
  | Some res => Some res
  | None =>
      match n with
      | S n' => if (3 <=? n')%nat then ext_letters n' s else None
      | O => None
      end
  end.

(** The literal dot, then the group and what follows it. *)
Definition ext_tail (s : string) : option (string * string) :=
  match s with
  | String "."%char s' => ext_letters 10 s'
  | _ => None
  end.

(** The rest of a greedy [.+] that has already taken one character: take
    one more if possible and, on failure further on, give it back. *)
Fixpoint ext_dotplus (s : string) : option (string * string) :=
  match s with
  | String c s' =>
      if is_newline c then ext_tail s
      else match ext_dotplus s' with
           | Some res => Some res
           | None => ext_tail s
           end
  | EmptyString => ext_tail s
  end.

(** The pattern of [getExtension]: [.+], a literal dot, a group of 3 to
    10 letters, an optional double quote and [$]; anchored at the head of
    [s]. *)
Definition ext_match (s : string) : option (string * string) :=
  match s with
  | String c s' => if is_newline c then None else ext_dotplus s'
  | EmptyString => None
  end.

(** [getExtension]: a missing argument ([None]) makes [re.findall] raise. *)
Definition getExtension (filePathOrURL : option string)
  : result (option string) :=
  match filePathOrURL with
  | None => Raise (mkExn TypeError "expected string or bytes-like object")
  | Some s =>
      let ext := re_findall ext_match s in
      match last ext with
      | Some e => Ok (Some e)
      | None => Ok None
      end
  end.

(** ** decideExtension *)

(** [d[k]] guarded by [except KeyError: ... = None] *)
Definition dict_get (d : gmap string (option string)) (k : string)
  : option string :=
  match d !! k with
  | Some v => v
  | None => None
  end.

(** [x.split('/')[-1].split(';')[0]]; [split] never returns the empty
    list, the [result] is kept for the indexing. *)
Definition subtype (x : string) : result string :=
  let* a := index_last (split x "/") in index_first (split a ";").

(** ['api.elsevier' in url] *)
Definition in_opt (needle : string) (o : option string) : result bool :=
  match o with
  | Some s => Ok (contains needle s)
  | None => Raise (mkExn TypeError "argument of type 'NoneType' is not iterable")
  end.

Definition ext_is (ext : option string) (s : string) : bool :=
  bool_decide (ext = Some s).

Definition decideExtension (d : gmap string (option string))
  : result (option string) :=
  let contentType := dict_get d "contentType" in
  let crContentType := dict_get d "crContentType" in
  let contentDisposition := dict_get d "contentDisposition" in
  let url := dict_get d "url" in
  let* ext :=
    (if truthy contentType then
       let* e := subtype (default "" contentType) in Ok (Some e)
     else if truthy crContentType
             && negb (bool_decide (crContentType = Some "unspecified")) then
       let* e := subtype (default "" crContentType) in Ok (Some e)
     else if truthy contentDisposition then
       getExtension contentDisposition
     else
       let* g := getExtension url in
       if truthy g then getExtension url else Ok None) in
  let* elsevier := in_opt "api.elsevier" url in
  if elsevier && (ext_is ext "plain" || ext_is ext "htm" || ext_is ext "html")
  then Ok (Some "txt")
  else if ext_is ext "plain" || ext_is ext "htm" then Ok (Some "html")
  else if ext_is ext "msword" then Ok (Some "doc")
  else if ext_is ext "octet-stream" then Ok (Some "pdf")
  else Ok ext.

(** The classifier as the specification words it: the first source that is
    available wins, in the order declared content type, vendor content type
    (unless it is [unspecified]), filename hint of the content disposition,
    filename hint of the URL; then the overrides, in order. *)
Definition type_ext (x : string) : option string :=
  match subtype x with
  | Ok e => Some e
  | Raise _ => None
  end.

Definition filename_hint (o : option string) : option string :=
  match getExtension o with
  | Ok (Some e) => Some e
  | _ => None
  end.

Definition classify_precedence
    (contentType vendorContentType contentDisposition url : option string)
  : option string :=
  if truthy contentType then type_ext (default "" contentType)
  else if truthy vendorContentType
          && negb (bool_decide (vendorContentType = Some "unspecified"))
  then type_ext (default "" vendorContentType)
  else match filename_hint contentDisposition with
       | Some e => Some e
       | None => filename_hint url
       end.

Definition classify_overrides (url : string) (ext : option string)
  : option string :=
  if contains "api.elsevier" url
     && (ext_is ext "plain" || ext_is ext "htm" || ext_is ext "html")
  then Some "txt"
  else if ext_is ext "plain" || ext_is ext "htm" then Some "html"
  else if ext_is ext "msword" then Some "doc"
  else if ext_is ext "octet-stream" then Some "pdf"
  else ext.

Definition classify
    (contentType vendorContentType contentDisposition : option string)
    (url : string) : option string :=
  classify_overrides url
    (classify_precedence contentType vendorContentType contentDisposition
       (Some url)).

(** ** URL fix-ups and identifiers *)

(** The longest run of characters other than newline, and what follows:
    a greedy [.+] or [(.+)] that ends its pattern. *)
Fixpoint dot_run (s : string) : string * string :=
  match s with
  | EmptyString => ("", "")
  | String c s' =>
      if is_newline c then ("", s)
      else let '(g, r) := dot_run s' in (String c g, r)
  end.

Definition group_dotplus (s : string) : option (string * string) :=
  match dot_run s with
  | (String c g, r) => Some (String c g, r)
  | (EmptyString, _) => None
  end.

(** The head of the pattern ['10.1017/s(.+)']: the dot stands for any
    character but newline. *)
Definition cambridge_prefix (s : string) : option string :=
  match s with
  | String "1" (String "0" (String c (String "1" (String "0" (String "1"
      (String "7" (String "/" (String "s" r)))))))) =>
      if is_newline c then None else Some r
  | _ => None
  end.

Definition cambridge_match (s : string) : option (string * string) :=
  match cambridge_prefix s with
  | Some r => group_dotplus r
  | None => None
  end.

Definition cambridge_template : string :=
  "https://www.cambridge.org/core/services/aop-cambridge-core/content/view/S".

Definition getCambridgeURL (doi : string) : result string :=
  let* doi := index_last (re_findall cambridge_match doi) in
  Ok (cambridge_template ++ doi).

(** The pattern ['pdf/(.+)'] *)
Definition springer_match (s : string) : option (string * string) :=
  match s with
  | String "p" (String "d" (String "f" (String "/" r))) => group_dotplus r
  | _ => None
  end.

(** [s.replace('/', '%2F')] *)
Fixpoint replace_slash (s : string) : string :=
  match s with
  | EmptyString => EmptyString
  | String c s' =>
      if Ascii.eqb c "/" then "%2F" ++ replace_slash s'
      else String c (replace_slash s')
  end.

Definition fixSpringerLinkURL (url : string) : result string :=
  let* doi := index_last (re_findall springer_match url) in
  Ok ("https://link.springer.com/content/pdf/" ++ replace_slash doi).

(** [doiLinkOrTag.split('org/')[-1]]; [split] never returns the empty
    list (see [split_nonempty]). *)
Definition extractDOI (doiLinkOrTag : string) : string :=
  default doiLinkOrTag (last (split doiLinkOrTag "org/")).

(** ** Files

    The module keeps two kinds of files: CSV registries, written and read
    through the [csv] module and kept here as their rows, and downloaded
    artifacts, kept as their bytes.  Registry paths end in [.csv] under
    [full text/doi/] or the working directory; artifact paths are those of
    [createFile] (see [createFile_not_registry]). Directories are not
    modelled, nor are the resource limits of the file system and of the
    [csv] module (disk space, the size limit the reader puts on one
    field). *)

(** What the run does to the outside, in order: the lines it prints, the
    time it sleeps, the remote calls it issues. *)
Inductive pyval :=
  | VStr (s : string)
  | VInt (z : Z).

Inductive event :=
  | EPrint (args : list pyval)
  | ESleep (seconds : Z)
  | ECall (service : string) (arg : string).

Record world := mkWorld {
  csvs : gmap string (list (list string));
  blobs : gmap string string;
  trace : list event
}.

Definition M (A : Type) : Type := world → result A * world.

Definition ret {A} (a : A) : M A := λ w, (Ok a, w).
Definition raise {A} (e : exn) : M A := λ w, (Raise e, w).
Definition bindM {A B} (m : M A) (k : A → M B) : M B :=
  λ w, match m w with
       | (Ok a, w') => k a w'
       | (Raise e, w') => (Raise e, w')
       end.
Definition lift {A} (r : result A) : M A := λ w, (r, w).
Definition empty_world : world := mkWorld ∅ ∅ [].

Notation "'let!' x ':=' m 'in' k" := (bindM m (λ x, k))
  (at level 10, x name, m at level 100, k at level 200).
Notation "m ';;' k" := (bindM m (λ _, k))
  (at level 100, k at level 200, right associativity).

(** [for x in l: body x] *)
Fixpoint forM {A} (l : list A) (body : A → M unit) : M unit :=
  match l with
  | [] => ret ()
  | x :: l' => body x ;; forM l' body
  end.

(** [os.path.isfile] on a registry path *)
Definition isfile (p : string) : M bool :=
  λ w, (Ok (bool_decide (is_Some (csvs w !! p))), w).

(** [open(p, 'a')] followed by [writerow]/[writerows]: the file is created
    when missing and the rows go to its end. *)
Definition append_rows (p : string) (rows : list (list string)) : M unit :=
  λ w, (Ok (), mkWorld (<[p := (default [] (csvs w !! p) ++ rows)%list]> (csvs w))
                       (blobs w) (trace w)).

(** [open(p, 'wb')] followed by [write] *)
Definition write_blob (p : string) (content : string) : M unit :=
  λ w, (Ok (), mkWorld (csvs w) (<[p := content]> (blobs w)) (trace w)).

(** [os.path.exists] and [os.path.getsize] on an artifact path *)
Definition blob_size (p : string) : M (option Z) :=
  λ w, (Ok ((λ b, Z.of_nat (String.length b)) <$> blobs w !! p), w).

Definition emit (e : event) : M unit :=
  λ w, (Ok (), mkWorld (csvs w) (blobs w) (trace w ++ [e])%list).

Definition print (args : list pyval) : M unit := emit (EPrint args).
Definition sleep (seconds : Z) : M unit := emit (ESleep seconds).

(** A remote call: it is logged, then answers or raises. *)
Definition call {A} (service arg : string) (answer : result A) : M A :=
  emit (ECall service arg) ;; lift answer.

(** [try: m except (classes) as e: handler e]; other exceptions pass. *)
Definition try_except {A} (m : M A) (classes : list exn_class)
    (handler : exn → M A) : M A :=
  λ w, match m w with
       | (Ok a, w') => (Ok a, w')
       | (Raise e, w') =>
           if caught_by classes e then handler e w' else (Raise e, w')
       end.

Definition checkHeaders (csvFileName : string)
    (headers : option (list string)) : M unit :=
  let! there := isfile (csvFileName ++ ".csv") in
  match headers with
  | None =>
      if negb there
      then raise (mkExn FileExistsError
             "We need the headers to crearte the file for the first time.")
      else ret ()
  | Some hs =>
      if bool_decide (hs ≠ []) && negb there
      then append_rows (csvFileName ++ ".csv") [hs]
      else ret ()
  end.

Definition writecsvRow (fileName : string) (row : list string)
    (headers : option (list string)) : M unit :=
  checkHeaders fileName headers ;;
  append_rows (fileName ++ ".csv") [row].

Definition listTocsvRows (li : list string) (fileName : string) : M unit :=
  append_rows (fileName ++ ".csv") ((λ i, [i]) <$> li).

(** [d[k] |= {v}] on a [defaultdict(set)] *)
Definition addToDict (mydict : gmap string (gset string)) (k v : string)
  : gmap string (gset string) :=
  <[k := default ∅ (mydict !! k) ∪ {[v]}]> mydict.

(** The writers of the module open a registry with [newline=''], so a
    cell goes to the file as it is; [csvTodict] and [csvTolist] open it
    with [open(path, 'r')], and there the text layer turns a carriage
    return, alone or followed by a line feed, into one line feed, inside a
    quoted cell as anywhere else. *)
Definition CR : ascii := "013"%char.
Definition LF : ascii := "010"%char.

Fixpoint universal_newlines (s : string) : string :=
  match s with
  | EmptyString => EmptyString
  | String c s' =>
      if Ascii.eqb c CR then
        String LF
          match s' with
          | String c' s'' =>
              if Ascii.eqb c' LF then universal_newlines s''
              else universal_newlines s'
          | EmptyString => EmptyString
          end
      else String c (universal_newlines s')
  end.

(** The rows [csv.reader] yields for a registry opened that way. *)
Definition csv_reader (rows : list (list string)) : list (list string) :=
  (λ row : list string, universal_newlines <$> row) <$> rows.

(** [row[i]] *)
Definition row_get (row : list string) (i : nat) : result string :=
  match row !! i with
  | Some c => Ok c
  | None => Raise (mkExn IndexError "list index out of range")
  end.

Fixpoint csvTodict_rows (rows : list (list string))
    (mydict : gmap string (gset string))
  : result (gmap string (gset string)) :=
  match rows with
  | [] => Ok mydict
  | row :: rows' =>
      let* k := row_get row 0 in
      let* v := row_get row 1 in
      csvTodict_rows rows' (addToDict mydict k v)
  end.

Definition csvTodict (csvFileName : string)
  : M (gmap string (gset string)) :=
  λ w, match csvs w !! (csvFileName ++ ".csv") with
       | Some rows => (csvTodict_rows (csv_reader rows) ∅, w)
       | None => (Raise (mkExn FileNotFoundError csvFileName), w)
       end.

(** ** PMID to PMCID *)

(** The part of an [Entrez.elink] record the module reads:
    [result[0]['LinkSetDb']], each entry with its ['Link'] list, each link
    with its ['Id']. *)
Record link := mkLink { Id : string }.
Record linksetdb := mkLinkSetDb { Link : list link }.

Definition list_get {A} (l : list A) (i : nat) : result A :=
  match l !! i with
  | Some a => Ok a
  | None => Raise (mkExn IndexError "list index out of range")
  end.

(** [s[0]] on a string *)
Definition str_first (s : string) : result string :=
  match s with
  | String c _ => Ok (String c "")
  | EmptyString => Raise (mkExn IndexError "string index out of range")
  end.

(** Lines 259 to 267: the identifier recorded for one link-graph answer. *)
Definition pmcid_of_LinkSetDb (LinkSetDb : list linksetdb) : result string :=
  if bool_decide (List.length LinkSetDb = 1%nat) then
    let* ls := list_get LinkSetDb 0 in
    let* l := list_get (Link ls) 0 in
    Ok (Id l)
  else if bool_decide (LinkSetDb = []) then
    Ok "NoPMCID"
  else
    let* ls := list_get LinkSetDb 0 in
    let* l := list_get (Link ls) 0 in
    let* pmcid := str_first (Id l) in
    Ok (pmcid ++ "MoreThanPMCID").

(** The argument of [pmidTopmcid] once read: a list or a set of PMIDs. *)
Inductive pmids_arg :=
  | PmidList (l : list string)
  | PmidSet (l : list string).

(** [pmidTopmcid]: [elink pmid] is the answer of
    [Entrez.read(Entrez.elink(..., id=pmid))].  [pmids[0]] raises
    [IndexError] on an empty list and a [TypeError], caught, on a set.
    Every identifier of the copy is removed from [pmids] at the end of its
    iteration, so the enclosing [while] runs the [for] loop once. *)
Definition pmidTopmcid (elink : string → result (list linksetdb))
    (pmids : pmids_arg) (pmcidsCSVfile : string) : M unit :=
  let! l :=
    match pmids with
    | PmidList [] => raise (mkExn IndexError "list index out of range")
    | PmidList l => ret l
    | PmidSet l => ret l
    end in
  forM l (λ pmid,
    let! LinkSetDb := call "Entrez.elink" pmid (elink pmid) in
    let! pmcid := lift (pmcid_of_LinkSetDb LinkSetDb) in
    writecsvRow pmcidsCSVfile [pmid; pmcid] (Some ["PMID"; "PMCID"])).

(** ** Downloads *)

(** [multireplace] with the table of [createFile], whose keys are single
    characters: every character that is a key is replaced by its value. *)
Fixpoint multireplace (s : string) (replacements : list (ascii * string))
  : string :=
  match s with
  | EmptyString => EmptyString
  | String c s' =>
      match List.find (λ kv, Ascii.eqb (fst kv) c) replacements with
      | Some kv => snd kv ++ multireplace s' replacements
      | None => String c (multireplace s' replacements)
      end
  end.

Definition notAllowedCharReplacements : list (ascii * string) :=
  [ ("/"%char, "-"); ("\"%char, "-"); (">"%char, "}"); ("<"%char, "{");
    (":"%char, "_"); ("?"%char, "!"); (dquote, "'"); ("*"%char, "+");
    ("|"%char, "$") ].

Definition createFile (doi : string) (ext : option string) : string :=
  if truthy ext then
    "full text/doi3/" ++ default "" ext ++ "/"
      ++ multireplace doi notAllowedCharReplacements ++ "." ++ default "" ext
  else
    "full text/doi3/other/" ++ multireplace doi notAllowedCharReplacements.

(** What the module reads of an HTTP answer. *)
Record response := mkResponse {
  status_ok : bool;                      (* status_code == requests.codes.ok *)
  content_type : option string;
  content_disposition : option string;
  rate_limit : option (Z * Z);           (* remaining hits, reset time *)
  content : string
}.

(** [None] is written by the [csv] module as the empty field. *)
Definition cell (o : option string) : string := default "" o.

Definition requests_classes : list exn_class :=
  [RequestsHTTPError; RequestsTimeout; RequestsSSLError;
   RequestsConnectionError; RequestsChunkedEncodingError].

Definition urllib_classes : list exn_class :=
  [HTTPError; TimeoutError; URLError; ConnectionResetError; CertificateError].

Section Downloads.

(** [sys.getsizeof] on a [bytes] object, as the interpreter measures it. *)
Variable getsizeof : string → Z.
(** [requests.get], [requests.head] and [urlopen] on a URL with the
    optional click-through header. *)
Variable requests_get : string → option string → result response.
Variable requests_head : string → option string → result response.
Variable urlopen : string → option string → result response.
(** [time.time()] when the rate limit is read. *)
Variable now : Z.

(** Lines 625 to 645 and 672 to 692, shared by the two transports. *)
Definition store (doi url : string) (d : gmap string (option string))
    (content : string) : M unit :=
  let contentSize := getsizeof content in
  let! ext := lift (decideExtension d) in
  let fileName := createFile doi ext in
  let! size := blob_size fileName in
  let fileSize := default 0%Z size in
  (if bool_decide (contentSize - 33 > fileSize)%Z
   then write_blob fileName content
   else ret ()) ;;
  writecsvRow "full text/doi/downloadable dois" [doi; url; cell ext]
    (Some ["DOI"; "URL"; "EXT"]).

Definition record_bad (doi url : string) (e : exn) : M unit :=
  writecsvRow "full text/doi/bad urls" [doi; url; exn_str e]
    (Some ["DOI"; "URL"; "ERROR"]).

(** The final [except: print(doi, url); raise] *)
Definition log_and_reraise (doi url : string) (m : M unit) : M unit :=
  λ w, match m w with
       | (Ok a, w') => (Ok a, w')
       | (Raise e, w') =>
           (Raise e, mkWorld (csvs w') (blobs w')
                       (trace w' ++ [EPrint [VStr doi; VStr url]])%list)
       end.

Definition downloadViaRequests (doi url : string)
    (requestHeaders : option string) : M unit :=
  log_and_reraise doi url
    (try_except
       (let! r := call "requests.get" url (requests_get url requestHeaders) in
        let d : gmap string (option string) :=
          {[ "contentType" := content_type r;
             "contentDisposition" := content_disposition r;
             "url" := Some url ]} in
        store doi url d (content r))
       requests_classes
       (record_bad doi url)).

Definition downloadViaUrlLib (doi url : string)
    (requestHeaders : option string) : M unit :=
  log_and_reraise doi url
    (try_except
       (let! r := call "urlopen" url (urlopen url requestHeaders) in
        let d : gmap string (option string) :=
          {[ "contentType" := content_type r; "url" := Some url ]} in
        store doi url d (content r))
       urllib_classes
       (record_bad doi url)).

(** [download]: the header-only probe, the wait on an exhausted rate
    limit, then one of the two transports. *)
Definition download (doi url : string) (requestHeaders : option string)
  : M unit :=
  let! downloadableViaRequests :=
    try_except
      (let! r := call "requests.head" url (requests_head url requestHeaders) in
       (match rate_limit r with
        | Some (remainingHits, resetTime) =>
            if bool_decide (remainingHits < 2)%Z
            then sleep (Z.abs (resetTime - now) + 1)
            else ret ()
        | None => ret ()
        end) ;;
       ret (status_ok r))
      [RequestsConnectionError; RequestsTooManyRedirects]
      (λ _, ret false) in
  if downloadableViaRequests
  then downloadViaRequests doi url requestHeaders
  else downloadViaUrlLib doi url requestHeaders.

End Downloads.

(** ** Resolution of DOIs through Crossref *)

(** What the module reads of a Crossref record: [article['message']['DOI']]
    and [article['message']['link']], a list of [(URL, content-type)]. *)
Record article := mkArticle {
  message_DOI : string;
  message_link : option (list (string * string))
}.

(** Objects a global name of the module can be bound to. *)
Inductive pyobj :=
  | PyModule (name : string)
  | PyClass (name : string)
  | PyCrossref (works : string → result article).

(** The global names of [pubMedArticleGrabber.py]: its imports and its
    class.  The module has no other statement at top level. *)
Definition module_globals : gmap string pyobj :=
  list_to_map
    [ ("ET", PyModule "xml.etree.cElementTree"); ("os", PyModule "os");
      ("sys", PyModule "sys"); ("time", PyModule "time");
      ("pickle", PyModule "pickle"); ("re", PyModule "re");
      ("csv", PyModule "csv"); ("unicodecsv", PyModule "unicodecsv");
      ("pd", PyModule "pandas"); ("requests", PyModule "requests");
      ("urlopen", PyClass "urlopen"); ("Request", PyClass "Request");
      ("URLError", PyClass "URLError"); ("HTTPError", PyClass "HTTPError");
      ("CertificateError", PyClass "CertificateError");
      ("defaultdict", PyClass "defaultdict"); ("Entrez", PyModule "Bio.Entrez");
      ("Crossref", PyClass "Crossref");
      ("PubMedArticleGrabber", PyClass "PubMedArticleGrabber") ].

(** An instance holds the one attribute [__init__] sets. *)
Record instance := mkInstance { pmids : pmids_arg }.

(** [__init__]: [self.pmids] is set, [Entrez.email] is set, and the
    Crossref client is bound to [cr] in the frame of the call, which is
    dropped on return.  The result is the instance, the global names and
    the contact address of [Entrez]. *)
Definition init (Crossref : string → pyobj) (globals : gmap string pyobj)
    (pmidsListOrCSVfile : pmids_arg) (email : string)
  : instance * gmap string pyobj * string :=
  let self := mkInstance pmidsListOrCSVfile in
  let frame : gmap string pyobj := {[ "cr" := Crossref email ]} in
  (self, globals, email).

(** [cr.works(ids=doi)] inside [grabViaCrossref]: the function never
    assigns [cr], so the name is looked up among the global names. *)
Definition cr_works (globals : gmap string pyobj) (doi : string)
  : M article :=
  match globals !! "cr" with
  | Some (PyCrossref works) => call "cr.works" doi (works doi)
  | Some _ => raise (mkExn TypeError "object has no attribute 'works'")
  | None => raise (mkExn NameError "name 'cr' is not defined")
  end.

Definition crossref_classes : list exn_class :=
  [HTTPError; RequestsHTTPError; URLError; CertificateError;
   RequestsSSLError; TimeoutError].

(** [{f(i) for i in s}], [s - t] and [s.add(x)] on sets kept as
    duplicate-free lists. *)
Definition set_map (f : string → string) (s : list string) : list string :=
  remove_dups (f <$> s).
Definition set_diff (s t : list string) : list string :=
  list_difference s t.
Definition set_add (x : string) (s : list string) : list string :=
  if bool_decide (x ∈ s) then s else (s ++ [x])%list.

Definition normalise (s : list string) : list string :=
  set_map (λ i, lower (extractDOI i)) s.

(** The variables of the loop of lines 87 to 114. *)
Record loop_state := mkLoop {
  st_dois : list string;
  st_articles : list article;
  st_notFounddois : list string;
  st_firstTime : bool;
  st_lenOfIn : nat
}.

(** The [for] loop of lines 106 to 114. *)
Fixpoint query_all (globals : gmap string pyobj) (todo : list string)
    (arts : list article) (nf : list string)
  : M (list article * list string) :=
  match todo with
  | [] => ret (arts, nf)
  | doi :: todo' =>
      let! r :=
        try_except
          (let! a := cr_works globals doi in ret ((arts ++ [a])%list, nf))
          crossref_classes
          (λ e, if contains "Not Found" (exn_str e)
                then ret (arts, set_add doi nf)
                else print [VStr doi] ;; raise e) in
      query_all globals todo' r.1 r.2
  end.

(** One turn of the [while]: [inl] when the turn ends in [break], [inr]
    when it runs to its end. *)
Definition pass (globals : gmap string pyobj) (st : loop_state)
  : M (loop_state + loop_state) :=
  let collecteddois := normalise (message_DOI <$> st_articles st) in
  let notFounddois := normalise (st_notFounddois st) in
  let dois := set_map lower (st_dois st) in
  let dois := set_diff (set_diff dois notFounddois) collecteddois in
  let stalled :=
    negb (st_firstTime st) && bool_decide (List.length dois = st_lenOfIn st) in
  let lenOfIn := if st_firstTime st then List.length dois else st_lenOfIn st in
  if stalled then
    print [VStr "Remaining: "; VInt (Z.of_nat (List.length dois)); VStr "DOIs"] ;;
    ret (inl (mkLoop dois (st_articles st) notFounddois false lenOfIn))
  else
    let! r := query_all globals dois (st_articles st) notFounddois in
    ret (inr (mkLoop dois r.1 r.2 false lenOfIn)).

(** [while(dois): ...]; [None] when the fuel runs out before the loop
    ends. *)
Fixpoint resolve_loop (globals : gmap string pyobj) (fuel : nat)
    (st : loop_state) : M (option loop_state) :=
  match fuel with
  | O => ret None
  | S fuel' =>
      if bool_decide (st_dois st = []) then ret (Some st)
      else
        let! r := pass globals st in
        match r with
        | inl st' => ret (Some st')
        | inr st' => resolve_loop globals fuel' st'
        end
  end.

Definition notFound_registry : string := "full text/doi/dois notFoundin crossRef".

(** Lines 87 to 116: the loop, then the not-found set is normalised and
    appended to its registry. *)
Definition resolve (globals : gmap string pyobj) (fuel : nat)
    (dois : list string) (articles : list article)
    (notFounddois : list string) : M (option loop_state) :=
  let! r := resolve_loop globals fuel (mkLoop dois articles notFounddois true 0) in
  match r with
  | None => ret None
  | Some st =>
      listTocsvRows (normalise (st_notFounddois st)) notFound_registry ;;
      ret (Some st)
  end.

(** ** PMID to DOI *)

(** What the module reads of [esummaryRecord[0]]: a missing key is
    [None]. *)
Record summary := mkSummary {
  sum_Id : string;
  sum_DOI : option string;
  sum_ArticleIds_doi : option string;
  sum_ELocationID : option string
}.

(** [s.strip('doi: ')]: the characters d, o, i, colon and space are
    dropped from both ends. *)
Definition strip_char (c : ascii) : bool :=
  existsb (Ascii.eqb c) ["d"; "o"; "i"; ":"; " "]%char.

Fixpoint lstrip (s : string) : string :=
  match s with
  | String c s' => if strip_char c then lstrip s' else s
  | EmptyString => EmptyString
  end.

Definition strip (s : string) : string :=
  String.rev (lstrip (String.rev (lstrip s))).

(** [pmidEntrezSummaryRecordTodoi]: the first non-empty value among the
    three fields, [ValueError] when there is none. *)
Definition pmidEntrezSummaryRecordTodoi (esummaryRecord : list summary)
  : result string :=
  let* summaryRecord := list_get esummaryRecord 0 in
  if truthy (sum_DOI summaryRecord) then Ok (cell (sum_DOI summaryRecord))
  else if truthy (sum_ArticleIds_doi summaryRecord)
  then Ok (cell (sum_ArticleIds_doi summaryRecord))
  else if truthy (strip <$> sum_ELocationID summaryRecord)
  then Ok (cell (strip <$> sum_ELocationID summaryRecord))
  else Raise (mkExn ValueError "").

(** [re.findall('\d+', s)[0]] *)
Definition is_digit (c : ascii) : bool :=
  (48 <=? nat_of_ascii c)%nat && (nat_of_ascii c <=? 57)%nat.

Fixpoint digit_run (s : string) : string :=
  match s with
  | String c s' => if is_digit c then String c (digit_run s') else ""
  | EmptyString => ""
  end.

Fixpoint first_digits (s : string) : result string :=
  match s with
  | String c s' => if is_digit c then Ok (digit_run s) else first_digits s'
  | EmptyString => Raise (mkExn IndexError "list index out of range")
  end.

(** [dictTocsv] on a dictionary whose values are strings. *)
Definition dictTocsv (mydict : list (string * string)) (csvFileName : string)
    (headers : option (list string)) : M unit :=
  checkHeaders csvFileName headers ;;
  append_rows (csvFileName ++ ".csv") ((λ kv, [kv.1; kv.2]) <$> mydict).

(** What [Entrez.esummary] returns is a stream: [Entrez.read] reads it to
    its end, and a stream read once delivers nothing more.  A handle is
    named by a string and remembers whether it was read. *)
Record handle := mkHandle {
  handle_name : string;
  handle_read : bool
}.

(** The variables of the loop of lines 407 to 445.  [acc_handle] is
    [summaryHandle], [None] while the name is not bound. *)
Record fetch_state := mkFetch {
  acc_counter : nat;
  acc_handle : option handle;
  acc_pmid_doi : list (string * string);
  acc_unicodeErrorpmids : list string;
  acc_notFoundpmids : list string;
  acc_notFounddois : list string
}.

Section Translation.

(** [Entrez.esummary(db='pubmed', id=pmid)] gives a fresh handle, named
    here by a string; [Entrez_read] is what [Entrez.read] makes of a
    handle that was not read before. *)
Variable esummary : string → result string.
Variable Entrez_read : string → result (list summary).

(** [Entrez.read(summaryHandle)]: a handle that was read already is at its
    end, the parser finds no XML there and raises [NotXMLError], a
    [ValueError]. *)
Definition read_handle (hd : handle) : result (list summary) :=
  if handle_read hd
  then Raise (mkExn NotXMLError
         ("Failed to parse the XML data (no element found: line 1, column 0)."
          ++ " Please make sure that the input data are in XML format."))
  else Entrez_read (handle_name hd).

(** The loop variables once [summaryHandle] was read. *)
Definition spent (st : fetch_state) : fetch_state :=
  mkFetch (acc_counter st)
    ((λ hd, mkHandle (handle_name hd) true) <$> acc_handle st)
    (acc_pmid_doi st) (acc_unicodeErrorpmids st) (acc_notFoundpmids st)
    (acc_notFounddois st).

(** Lines 412 to 417 *)
Definition open_summary (pmid : string) (st : fetch_state) : M fetch_state :=
  try_except
    (let! h := call "Entrez.esummary" pmid (esummary pmid) in
     ret (mkFetch (acc_counter st) (Some (mkHandle h false)) (acc_pmid_doi st)
            (acc_unicodeErrorpmids st) (acc_notFoundpmids st)
            (acc_notFounddois st)))
    [URLError]
    (λ _, print [VStr "server time out"] ;;
          sleep 60 ;;
          print [VStr "woke up from server time out"] ;;
          ret st).

(** Lines 418 to 433 *)
Definition read_summary (pmid : string) (st : fetch_state) : M fetch_state :=
  let st' := spent st in
  try_except
    (let! hd :=
       match acc_handle st with
       | Some hd => ret hd
       | None =>
           raise (mkExn UnboundLocalError
             "local variable 'summaryHandle' referenced before assignment")
       end in
     let! summaryRecord :=
       call "Entrez.read" (handle_name hd) (read_handle hd) in
     try_except
       (let! doi := lift (pmidEntrezSummaryRecordTodoi summaryRecord) in
        ret (mkFetch (acc_counter st') (acc_handle st')
               (acc_pmid_doi st' ++ [(pmid, lower (extractDOI doi))])%list
               (acc_unicodeErrorpmids st') (acc_notFoundpmids st')
               (acc_notFounddois st')))
       [ValueError]
       (λ _, ret (mkFetch (acc_counter st') (acc_handle st') (acc_pmid_doi st')
                    (acc_unicodeErrorpmids st') (acc_notFoundpmids st')
                    (set_add pmid (acc_notFounddois st')))))
    [UnicodeDecodeError; UnicodeEncodeError; RuntimeError]
    (λ e,
       if issubclass (exn_cls e) RuntimeError then
         let! notFoundpmid := lift (first_digits (exn_str e)) in
         (if bool_decide (pmid = notFoundpmid) then ret ()
          else raise (mkExn AssertionError "")) ;;
         print [VStr "no record"; VStr pmid; VInt (Z.of_nat (acc_counter st'))] ;;
         ret (mkFetch (acc_counter st') (acc_handle st') (acc_pmid_doi st')
                (acc_unicodeErrorpmids st')
                (set_add pmid (acc_notFoundpmids st')) (acc_notFounddois st'))
       else
         print [VStr "unicode"; VStr pmid; VInt (Z.of_nat (acc_counter st'))] ;;
         ret (mkFetch (acc_counter st') (acc_handle st') (acc_pmid_doi st')
                (set_add pmid (acc_unicodeErrorpmids st'))
                (acc_notFoundpmids st') (acc_notFounddois st'))).

(** Lines 435 to 445 *)
Definition flush (total : nat) (doisCSVfile : string) (st : fetch_state)
  : M fetch_state :=
  if bool_decide (acc_counter st `mod` 1000 = 0)%nat
     || bool_decide (acc_counter st = total)
  then
    dictTocsv (acc_pmid_doi st) doisCSVfile (Some ["PMID"; "DOI"]) ;;
    listTocsvRows (acc_unicodeErrorpmids st) "unicode Error pmids" ;;
    listTocsvRows (acc_notFoundpmids st) "not Found pmids" ;;
    listTocsvRows (acc_notFounddois st) "not Found dois" ;;
    sleep 15 ;;
    print [VStr "woke up"] ;;
    ret (mkFetch (acc_counter st) (acc_handle st) [] [] [] [])
  else ret st.

Fixpoint fetch_loop (total : nat) (doisCSVfile : string)
    (todo : list string) (st : fetch_state) : M fetch_state :=
  match todo with
  | [] => ret st
  | pmid :: todo' =>
      let st := mkFetch (S (acc_counter st)) (acc_handle st) (acc_pmid_doi st)
                  (acc_unicodeErrorpmids st) (acc_notFoundpmids st)
                  (acc_notFounddois st) in
      let! st := open_summary pmid st in
      let! st := read_summary pmid st in
      let! st := flush total doisCSVfile st in
      fetch_loop total doisCSVfile todo' st
  end.

(** Lines 400 to 445 of [pmidTodoi], on the PMIDs left after the
    registries are subtracted. *)
Definition pmidTodoi_fetch (pmids : list string) (doisCSVfile : string)
  : M fetch_state :=
  print [VInt (Z.of_nat (List.length pmids))] ;;
  print [VStr "fetching.."] ;;
  fetch_loop (List.length pmids) doisCSVfile pmids (mkFetch 0 None [] [] [] []).

End Translation.

(** ** The download stage of [grabViaCrossref] *)

(** The strings [pandas.read_csv] reads as a missing value. *)
Definition na_values : list string :=
  [ ""; "#N/A"; "#N/A N/A"; "#NA"; "-1.#IND"; "-1.#QNAN"; "-NaN"; "-nan";
    "1.#IND"; "1.#QNAN"; "<NA>"; "N/A"; "NA"; "NULL"; "NaN"; "None"; "n/a";
    "nan"; "null" ].

Definition is_na (c : string) : bool := bool_decide (c ∈ na_values).

(** A cell of a data row under a column of the header: rows shorter than
    the header are filled with missing values. *)
Definition field (row : list string) (i : nat) : option string :=
  match row !! i with
  | Some c => if is_na c then None else Some c
  | None => None
  end.

(** The position of a column name in the header. *)
Fixpoint column_index (header : list string) (col : string) : option nat :=
  match header with
  | [] => None
  | h :: header' =>
      if String.eqb h col then Some 0%nat
      else S <$> column_index header' col
  end.

(** [pd.read_csv(path)]: the header and the data rows; the cells are kept
    as text.  A row longer than the header is refused. *)
Definition read_csv (path : string) : M (list string * list (list string)) :=
  λ w, match csvs w !! path with
       | None => (Raise (mkExn FileNotFoundError path), w)
       | Some [] => (Raise (mkExn EmptyDataError "No columns to parse from file"), w)
       | Some (header :: rows) =>
           if forallb (λ r, List.length r <=? List.length header)%nat rows
           then (Ok (header, rows), w)
           else (Raise (mkExn ParserError "Error tokenizing data"), w)
       end.

Definition column (col : string) (df : list string * list (list string))
  : result nat :=
  match column_index df.1 col with
  | Some i => Ok i
  | None => Raise (mkExn KeyError col)
  end.

(** [set(pd.read_csv(path)[col].dropna())] *)
Definition read_column_set (path col : string) : M (list string) :=
  let! df := read_csv path in
  let! i := lift (column col df) in
  ret (remove_dups (omap (λ r, field r i) df.2)).

(** The same under [except FileNotFoundError: ... = set()] *)
Definition read_column_set_or_empty (path col : string) : M (list string) :=
  try_except (read_column_set path col) [FileNotFoundError] (λ _, ret []).

(** [badArticles[['DOI', 'URL']].dropna()], row by row *)
Definition read_doi_url_rows (path : string) : M (list (string * string)) :=
  let! df := read_csv path in
  let! i := lift (column "DOI" df) in
  let! j := lift (column "URL" df) in
  ret (omap (λ r, match field r i, field r j with
                  | Some d, Some u => Some (d, u)
                  | _, _ => None
                  end) df.2).

Definition downloadable_csv : string := "full text/doi/downloadable dois.csv".
Definition bad_csv : string := "full text/doi/bad urls.csv".

Section Acquisition.

Variable getsizeof : string → Z.
Variable requests_get : string → option string → result response.
Variable requests_head : string → option string → result response.
Variable urlopen : string → option string → result response.
Variable now : Z.
(** The click-through header read from [clickThroughToken.txt], if any. *)
Variable h : option string.

Definition fetch (doi url : string) : M unit :=
  download getsizeof requests_get requests_head urlopen now doi url h.

(** Lines 179 to 192 and 215 to 225: one candidate URL of one DOI, with
    [known] the URLs that need no request. *)
Definition try_url (known : list string) (doi url : string) : M unit :=
  if bool_decide (url ≠ "") && negb (bool_decide (url ∈ known)) then
    if contains "springerlink" url then
      let! url := lift (fixSpringerLinkURL url) in
      if bool_decide (url ≠ "") && bool_decide (url ∈ known) then ret ()
      else fetch doi url
    else fetch doi url
  else ret ().

Definition try_cambridge (known : list string) (doi : string) : M unit :=
  let! url := lift (getCambridgeURL doi) in
  if bool_decide (url ≠ "") && negb (bool_decide (url ∈ known))
  then fetch doi url
  else ret ().

(** Lines 177 to 193 *)
Definition first_pass (articlesURLs : list (string * list (string * string)))
    (downloadableURLs badURLs : list string) : M unit :=
  forM articlesURLs (λ item,
    let doi := item.1 in
    if contains "10.1017/s" doi
    then try_cambridge (downloadableURLs ++ badURLs)%list doi
    else forM item.2 (λ url_type,
           try_url (downloadableURLs ++ badURLs)%list doi url_type.1)) ;;
  print [VStr "finish"].

(** One turn of the [while] of lines 198 to 228; the result is
    [(lenOfIn, lenOfOut)]. *)
Definition retry_turn : M (nat * nat) :=
  let! bad :=
    try_except
      (let! rows := read_doi_url_rows bad_csv in
       ret (rows, remove_dups rows.*2))
      [FileNotFoundError]
      (λ _, ret ([], [])) in
  let badArticles := bad.1 in
  let badURLs := bad.2 in
  let! downloadableURLs := read_column_set downloadable_csv "URL" in
  let lenOfIn := List.length (set_diff badURLs downloadableURLs) in
  forM badArticles (λ row,
    let doi := row.1 in
    let url := row.2 in
    if String.eqb url "###" then ret ()
    else if contains "10.1017/s" doi then try_cambridge downloadableURLs doi
    else try_url downloadableURLs doi url) ;;
  print [VStr "finish"] ;;
  let! downloadableURLs := read_column_set downloadable_csv "URL" in
  ret (lenOfIn, List.length (set_diff badURLs downloadableURLs)).

(** [while lenOfOut < lenOfIn]: entered with 0 and 1. *)
Fixpoint retry_loop (fuel : nat) (lenOfIn lenOfOut : nat) : M (option nat) :=
  match fuel with
  | O => ret None
  | S fuel' =>
      if bool_decide (lenOfOut < lenOfIn)%nat then
        let! r := retry_turn in
        retry_loop fuel' r.1 r.2
      else ret (Some lenOfOut)
  end.

(** Lines 153 to 229 of [grabViaCrossref]. *)
Definition download_stage (fuel : nat)
    (articlesURLs : list (string * list (string * string)))
  : M (option nat) :=
  let! downloadabledois := read_column_set_or_empty downloadable_csv "DOI" in
  let! downloadableURLs := read_column_set_or_empty downloadable_csv "URL" in
  let! badURLs := read_column_set_or_empty bad_csv "URL" in
  first_pass articlesURLs downloadableURLs badURLs ;;
  let! r := retry_loop fuel 1 0 in
  match r with
  | Some lenOfOut =>
      print [VStr "Remaining: "; VInt (Z.of_nat lenOfOut); VStr "IDs"] ;;
      ret r
  | None => ret None
  end.

End Acquisition.

(** ** Notions used in the statements *)

(** No newline in a string. *)
Fixpoint no_newline (s : string) : bool :=
  match s with
  | EmptyString => true
  | String c s' => negb (is_newline c) && no_newline s'
  end.

(** The Cambridge pattern matches at no position inside [pre], read in
    front of [s]. *)
Fixpoint cambridge_unmatched (pre s : string) : bool :=
  match pre with
  | EmptyString => true
  | String c pre' =>
      match cambridge_match (pre ++ s) with
      | Some _ => false
      | None => cambridge_unmatched pre' s
      end
  end.

(** The dictionary of the classifier example of the specification: a
    content disposition and nothing else. *)
Definition disposition_only : gmap string (option string) :=
  {[ "contentDisposition" := Some ("attachment; filename=" ++ quoted "x.doc") ]}.

(** A link-graph answer with two link sets, and a service that gives it
    for every PMID. *)
Definition two_linksets : list linksetdb :=
  [ mkLinkSetDb [mkLink "3539452"]; mkLinkSetDb [mkLink "1234"] ].

Definition elink_two (pmid : string) : result (list linksetdb) :=
  Ok two_linksets.

Definition NameError_cr : exn := mkExn NameError "name 'cr' is not defined".

(** The size CPython (64 bits) reports for a [bytes] object. *)
Definition getsizeof_bytes (b : string) : Z := Z.of_nat (String.length b) + 33.

(** A server that answers every request with the same short PDF, and a
    disk that already holds a longer file for the DOI [10.1/x]. *)
Definition short_pdf (url : string) (h : option string) : result response :=
  Ok (mkResponse true (Some "application/pdf") None None "short").

Definition disk_with_pdf : world :=
  mkWorld ∅ {[ "full text/doi3/pdf/10.1-x.pdf" := "a longer file" ]} [].

(** A row of the downloadable registry and its header. *)
Definition downloadable_headers : list string := ["DOI"; "URL"; "EXT"].
Definition downloaded_row : list string :=
  ["10.1000/a"; "http://host/a.pdf"; "pdf"].

(** The remote calls of a trace. *)
Definition calls (t : list event) : list (string * string) :=
  omap (λ e, match e with
             | ECall service arg => Some (service, arg)
             | _ => None
             end) t.

(** An [Entrez] that times out on the PMID 200, and the record behind the
    handle of the PMID 100. *)
Definition esummary_flaky (pmid : string) : result string :=
  if String.eqb pmid "200"
  then Raise (mkExn URLError "<urlopen error timed out>")
  else Ok ("handle-" ++ pmid).

Definition read_100 (handle : string) : result (list summary) :=
  if String.eqb handle "handle-100"
  then Ok [mkSummary "100" (Some "10.1000/A") None None]
  else Raise (mkExn RuntimeError "Empty id list - nothing todo").

(** An [Entrez] that answers every PMID, and the records behind the
    handles of the PMIDs 100 and 200: the second has no DOI. *)
Definition esummary_ok (pmid : string) : result string :=
  Ok ("handle-" ++ pmid).

Definition read_two (handle : string) : result (list summary) :=
  if String.eqb handle "handle-100"
  then Ok [mkSummary "100" (Some "10.1000/A") None None]
  else if String.eqb handle "handle-200"
  then Ok [mkSummary "200" None None None]
  else Raise (mkExn RuntimeError "Empty id list - nothing todo").

(** The URLs the downloadable registry holds, as the download stage reads
    them when it starts. *)
Definition downloaded_urls (w : world) : list string :=
  match read_column_set_or_empty downloadable_csv "URL" w with
  | (Ok urls, _) => urls
  | (Raise _, _) => []
  end.

(** An event that asks nothing of a URL of [known]. *)
Definition spares (known : list string) (e : event) : Prop :=
  match e with
  | ECall _ url => url ∉ known
  | _ => True
  end.

(** The downloadable registry of [w] is that of [w0] with rows added at
    its end. *)
Definition grows (w0 w : world) : Prop :=
  ∀ rows, csvs w0 !! downloadable_csv = Some rows →
          ∃ more, csvs w !! downloadable_csv = Some (rows ++ more)%list.

(** The header rows of the downloadable and of the bad-URL registry. *)
Definition registry_headers : list (list string) :=
  [ ["DOI"; "URL"; "EXT"]; ["DOI"; "URL"; "ERROR"] ].

(** A row that may be added: a header row, or a row whose second cell,
    the URL column of the two registries, is a URL outside [known]. *)
Definition new_row (known : list string) (row : list string) : Prop :=
  row ∈ registry_headers ∨ ∃ u, row !! 1%nat = Some u ∧ u ∉ known.

(** Every registry file of [w'] is that of [w] with rows added at its
    end, a missing file counting as an empty one, and each row added is a
    header row or a row about a URL outside [known]. *)
Definition adds (known : list string) (w w' : world) : Prop :=
  ∀ p, ∃ more,
    default [] (csvs w' !! p) = (default [] (csvs w !! p) ++ more)%list
    ∧ Forall (new_row known) more.

(** A computation that keeps the registry growing, whose events spare
    the URLs of [known] and which adds no row about them. *)
Definition sparing {A} (w0 : world) (known : list string) (m : M A) : Prop :=
  ∀ w, grows w0 w →
       grows w0 (m w).2
       ∧ (∃ evs, trace (m w).2 = (trace w ++ evs)%list
                 ∧ Forall (spares known) evs)
       ∧ adds known w (m w).2.

(** Two articles with one link each; a remote side that serves the first
    and times out on the second, the same at every request. *)
Definition url_a : string := "http://host/a.pdf".
Definition url_b : string := "http://host/b.pdf".

Definition two_articles : list (string * list (string * string)) :=
  [ ("10.1000/a", [(url_a, "application/pdf")]);
    ("10.1000/b", [(url_b, "application/pdf")]) ].

Definition head_a_only (url : string) (h : option string) : result response :=
  if String.eqb url url_a then Ok (mkResponse true None None None "")
  else Raise (mkExn RequestsConnectionError "Connection aborted.").

Definition get_pdf (url : string) (h : option string) : result response :=
  Ok (mkResponse true (Some "application/pdf") None None "%PDF-1.4 a").

Definition urlopen_timeout (url : string) (h : option string)
  : result response :=
  Raise (mkExn URLError "<urlopen error timed out>").

(** One run of the download stage against that remote side. *)
Definition run_stage : M (option nat) :=
  download_stage getsizeof_bytes get_pdf head_a_only urlopen_timeout 0 None
    10 two_articles.


(** Every character is a letter of [a-zA-Z]. *)
Fixpoint all_letters (s : string) : bool :=
  match s with
  | EmptyString => true
  | String c s' => is_letter c && all_letters s'
  end.

(** The extensions that the overrides of [decideExtension] rewrite. *)
Definition raw_extensions : list string :=
  ["plain"; "htm"; "msword"; "octet-stream"].

(** The shape of a group of the extension pattern. *)
Definition extension_shape (g : string) : Prop :=
  all_letters g = true ∧ (3 ≤ String.length g ≤ 10)%nat.

(** The optional closing double quote of a file name. *)
Definition closing_quote (q : string) : Prop :=
  q = "" ∨ q = String dquote "".

(** [sep] occurs in [a ++ s] at a position inside [a]. *)
Fixpoint occurs_from (sep a s : string) : bool :=
  match a with
  | EmptyString => false
  | String c a' => String.prefix sep (a ++ s) || occurs_from sep a' s
  end.

(** [c in s] for a character. *)
Fixpoint has_char (c : ascii) (s : string) : bool :=
  match s with
  | EmptyString => false
  | String x s' => Ascii.eqb c x || has_char c s'
  end.

(** The characters that [createFile] replaces. *)
Definition notAllowedChars : list ascii := fst <$> notAllowedCharReplacements.


(** ** Reading a registry as a list: [csvTolist]

    A row loses its empty cells; a row left with one cell becomes that
    cell, a row left with none is dropped; a result of a single entry is
    replaced by that entry. *)
Inductive cell_value :=
  | CStr (s : string)
  | CRow (r : list string).

Inductive cells_value :=
  | Cells (l : list cell_value)
  | OneStr (s : string)
  | OneRow (r : list string).

Definition csvTolist_row (row : list string) : option cell_value :=
  match List.filter (λ c, negb (String.eqb c "")) row with
  | [] => None
  | [c] => Some (CStr c)
  | row' => Some (CRow row')
  end.

Definition csvTolist_rows (rows : list (list string)) : cells_value :=
  match omap csvTolist_row rows with
  | [CStr s] => OneStr s
  | [CRow r] => OneRow r
  | cells => Cells cells
  end.

Definition csvTolist (csvFileName : string) : M cells_value :=
  λ w, match csvs w !! (csvFileName ++ ".csv") with
       | Some rows => (Ok (csvTolist_rows (csv_reader rows)), w)
       | None => (Raise (mkExn FileNotFoundError csvFileName), w)
       end.

(** The characters of a string, as the strings of length one that
    iterating over a [str] yields. *)
Fixpoint chars (s : string) : list string :=
  match s with
  | EmptyString => []
  | String c s' => String c "" :: chars s'
  end.




(** ** removeKey

    [keys] is either a list of items ([Iterable]; a tuple, a set or a
    string behaves as the list of its items, up to the text of the
    error, a string having its characters as items), or a hashable value
    that is not iterable ([Scalar]).  An item is a hashable value, which
    may be a key of the dictionary, or a value that is not hashable, such
    as a list. *)
Inductive key_item (K : Type) :=
  | Hashable (key : K)
  | Unhashable.
Arguments Hashable {K} key.
Arguments Unhashable {K}.

#[global] Instance key_item_eq_dec {K} `{EqDecision K} :
  EqDecision (key_item K).
Proof. solve_decision. Defined.

Inductive keys_arg (K : Type) :=
  | Iterable (items : list (key_item K))
  | Scalar (key : K).
Arguments Iterable {K} items.
Arguments Scalar {K} key.

(** Lines 815 to 819: [del r[key]] for each item; a missing key raises
    [KeyError], caught at once; an item that is not hashable raises
    [TypeError], which leaves the loop. *)
Fixpoint delete_items {K V} `{Countable K} (r : gmap K V)
    (items : list (key_item K)) : result (gmap K V) :=
  match items with
  | [] => Ok r
  | Hashable key :: items' => delete_items (delete key r) items'
  | Unhashable :: _ => Raise (mkExn TypeError "unhashable type: 'list'")
  end.

(** [removeKey].  A [TypeError] of the loop is caught by line 820 and
    [del r[keys]] runs: when [keys] is not iterable it is the key to
    delete, and a missing key raises [KeyError], the handler of line 822
    belonging to the same [try]; when an item of [keys] was not hashable,
    [keys] is not hashable either and [TypeError] is raised again. *)
Definition removeKey {K V} `{Countable K} (d : gmap K V) (keys : keys_arg K)
  : result (gmap K V) :=
  match keys with
  | Iterable items =>
      match delete_items d items with
      | Ok r => Ok r
      | Raise e =>
          if issubclass (exn_cls e) TypeError
          then Raise (mkExn TypeError "unhashable type: 'list'")
          else Raise e
      end
  | Scalar key =>
      match d !! key with
      | Some _ => Ok (delete key d)
      | None => Raise (mkExn KeyError "")
      end
  end.

(** The identifier [pmidTopmcid] records for a PMID: the answer of the
    link service, then lines 259 to 267. *)
Definition pmcid_for (elink : string → result (list linksetdb))
    (pmid : string) : result string :=
  let* LinkSetDb := elink pmid in pmcid_of_LinkSetDb LinkSetDb.

(** A registry after rows are written to it with [writecsvRow] and the
    headers [PMID], [PMCID]: nothing changes without a row, a missing file
    starts with the header row. *)
Definition rows_after (old : option (list (list string)))
    (new : list (list string)) : option (list (list string)) :=
  match new with
  | [] => old
  | _ => Some (default [["PMID"; "PMCID"]] old ++ new)%list
  end.

(** The rows of a list of PMIDs and of the identifiers found for them. *)
Definition pmcid_rows (pmids ids : list string) : list (list string) :=
  zip_with (λ pmid id, [pmid; id]) pmids ids.


(** ** Articles and their links, lines 118 to 150 of [grabViaCrossref] *)

(** Lines 119 to 125: an article is kept when its DOI was not seen. *)
Fixpoint remove_duplicates_go (seendois : list string)
    (articles : list article) : list article :=
  match articles with
  | [] => []
  | a :: articles' =>
      if bool_decide (message_DOI a ∈ seendois)
      then remove_duplicates_go seendois articles'
      else a :: remove_duplicates_go (message_DOI a :: seendois) articles'
  end.

Definition remove_duplicates (articles : list article) : list article :=
  remove_duplicates_go [] articles.

(** [d[k] = v] on a dictionary kept in insertion order. *)
Fixpoint dict_set {V} (k : string) (v : V) (d : list (string * V))
  : list (string * V) :=
  match d with
  | [] => [(k, v)]
  | (k', v') :: d' =>
      if String.eqb k' k then (k, v) :: d' else (k', v') :: dict_set k v d'
  end.

(** Lines 135 to 149: [articlesURLs] and [doisWithNoLink]. *)
Fixpoint extract_links_go (articles : list article)
    (articlesURLs : list (string * list (string * string)))
    (doisWithNoLink : list string)
  : list (string * list (string * string)) * list string :=
  match articles with
  | [] => (articlesURLs, doisWithNoLink)
  | a :: articles' =>
      let doi := message_DOI a in
      match message_link a with
      | None => extract_links_go articles' articlesURLs (set_add doi doisWithNoLink)
      | Some links =>
          let urls := remove_dups links in
          if bool_decide (urls ≠ [])
          then extract_links_go articles' (dict_set doi urls articlesURLs)
                 doisWithNoLink
          else extract_links_go articles' articlesURLs
                 (set_add doi doisWithNoLink)
      end
  end.

Definition extract_links (articles : list article)
  : list (string * list (string * string)) * list string :=
  extract_links_go articles [] [].

(** The candidate links of an article, when it has some. *)
Definition links_of (a : article)
  : option (string * list (string * string)) :=
  match message_link a with
  | Some links =>
      if bool_decide (remove_dups links ≠ [])
      then Some (message_DOI a, remove_dups links) else None
  | None => None
  end.

(** The DOI of an article without candidate link. *)
Definition no_link_of (a : article) : option string :=
  match links_of a with
  | Some _ => None
  | None => Some (message_DOI a)
  end.

(** The rows [listTocsvRows] writes for a list. *)
Definition single_cells (li : list string) : list (list string) :=
  (λ i, [i]) <$> li.

(** The four registries of [pmidTodoi]. *)
Definition bucket_files (doisCSVfile : string) : list string :=
  [ doisCSVfile ++ ".csv"; "unicode Error pmids" ++ ".csv";
    "not Found pmids" ++ ".csv"; "not Found dois" ++ ".csv" ].

(** A PMID is the first cell of a row of one of the four registries. *)
Definition recorded (doisCSVfile : string) (w : world) (pmid : string) : Prop :=
  ∃ path rows row,
    path ∈ bucket_files doisCSVfile ∧ csvs w !! path = Some rows
    ∧ row ∈ rows ∧ head row = Some pmid.

(** A PMID is in one of the four accumulators of the loop. *)
Definition held (st : fetch_state) (pmid : string) : Prop :=
  pmid ∈ (acc_pmid_doi st).*1 ∨ pmid ∈ acc_unicodeErrorpmids st
  ∨ pmid ∈ acc_notFoundpmids st ∨ pmid ∈ acc_notFounddois st.

(** ** getDomain *)

(** The lazy group [(.+?)] once it holds a character, and the slash that
    closes the pattern: the group stops at the first slash, and a newline
    met before one makes the match fail. *)
Fixpoint domain_rest (s : string) : option (string * string) :=
  match s with
  | String c r =>
      if Ascii.eqb c "/" then Some ("", r)
      else if is_newline c then None
      else match domain_rest r with
           | Some (g, rest) => Some (String c g, rest)
           | None => None
           end
  | EmptyString => None
  end.

(** The pattern ['//(.+?)/'], anchored at the head of [s]; the first
    character of the group is any character but newline. *)
Definition domain_match (s : string) : option (string * string) :=
  match s with
  | String "/" (String "/" (String c r)) =>
      if is_newline c then None
      else match domain_rest r with
           | Some (g, rest) => Some (String c g, rest)
           | None => None
           end
  | _ => None
  end.

Definition getDomain (url : string) : option string :=
  last (re_findall domain_match url).

(** ** Ends of a string *)

Definition head_char (s : string) : option ascii :=
  match s with
  | String c _ => Some c
  | EmptyString => None
  end.

Fixpoint last_char (s : string) : option ascii :=
  match s with
  | EmptyString => None
  | String c s' =>
      match s' with
      | EmptyString => Some c
      | String _ _ => last_char s'
      end
  end.

(** The end [o] of a string is a character that [strip('doi: ')] keeps. *)
Definition kept_end (o : option ascii) : bool :=
  match o with
  | Some c => negb (strip_char c)
  | None => false
  end.

Definition trimmed (s : string) : bool :=
  kept_end (head_char s) && kept_end (last_char s).

(** [listTocsvCols]: the whole list is appended as one row. *)
Definition listTocsvCols (li : list string) (fileName : string) : M unit :=
  append_rows (fileName ++ ".csv") [li].

(** * Properties *)

(** ** Strings and patterns *)

Lemma split_go_nonempty sep skip cur s : split_go sep skip cur s ≠ [].
Proof.
  revert skip cur. induction s as [|c s IH]; intros skip cur; cbn [split_go].
  - discriminate.
  - destruct skip as [|k]; [|apply IH].
    destruct (String.prefix sep (String c s)); [discriminate|apply IH].
Qed.

Lemma split_nonempty s sep : split s sep ≠ [].
Proof. apply split_go_nonempty. Qed.

Lemma last_is_Some {A} (l : list A) : l ≠ [] → is_Some (last l).
Proof.
  intros Hl. destruct (last l) eqn:E; [eauto|].
  apply last_None in E. contradiction.
Qed.

Lemma subtype_total x : ∃ e, subtype x = Ok e.
Proof.
  unfold subtype, index_last.
  destruct (last_is_Some _ (split_nonempty x "/")) as [a ->]. simpl.
  unfold index_first. destruct (split a ";") eqn:E.
  - exfalso. exact (split_nonempty _ _ E).
  - eauto.
Qed.

Lemma extractDOI_last s : last (split s "org/") = Some (extractDOI s).
Proof.
  unfold extractDOI.
  destruct (last_is_Some _ (split_nonempty s "org/")) as [a ->]. reflexivity.
Qed.

(** The group of the extension pattern holds at least three letters, so a
    hint is never the empty string. *)
Lemma take_letters_S n s g r : take_letters (S n) s = Some (g, r) → g ≠ "".
Proof.
  simpl. destruct s as [|c s]; [discriminate|].
  destruct (is_letter c); [|discriminate].
  destruct (take_letters n s) as [[l r']|]; [|discriminate].
  intros [= <- <-]. discriminate.
Qed.

Lemma ext_quote_eol_group g r g' r' :
  ext_quote_eol g r = Some (g', r') → g' = g.
Proof.
  unfold ext_quote_eol. destruct r as [|c r0].
  - destruct (at_eol ""); congruence.
  - destruct (Ascii.eqb c dquote && at_eol r0); [congruence|].
    destruct (at_eol (String c r0)); congruence.
Qed.

Lemma ext_letters_nonempty n s g r :
  (3 ≤ n)%nat → ext_letters n s = Some (g, r) → g ≠ "".
Proof.
  induction n as [|n IH]; [lia|]. intros Hn. cbn [ext_letters].
  destruct (take_letters (S n) s) as [[g0 r0]|] eqn:Et.
  - destruct (ext_quote_eol g0 r0) as [[g1 r1]|] eqn:Eq.
    + intros [= <- <-]. apply ext_quote_eol_group in Eq as ->.
      eapply take_letters_S; eauto.
    + destruct (3 <=? n)%nat eqn:E3; [|discriminate].
      apply IH. by apply Nat.leb_le.
  - destruct (3 <=? n)%nat eqn:E3; [|discriminate].
    apply IH. by apply Nat.leb_le.
Qed.

Lemma ext_tail_nonempty s g r : ext_tail s = Some (g, r) → g ≠ "".
Proof.
  unfold ext_tail. destruct s as [|c s]; [discriminate|].
  destruct (Ascii.eqb_spec c "."%char) as [->|Hc].
  - apply ext_letters_nonempty. lia.
  - destruct c as [[] [] [] [] [] [] [] []]; try discriminate.
    contradiction.
Qed.

Lemma ext_dotplus_nonempty s g r : ext_dotplus s = Some (g, r) → g ≠ "".
Proof.
  induction s as [|c s IH]; cbn [ext_dotplus].
  - apply ext_tail_nonempty.
  - destruct (is_newline c); [apply ext_tail_nonempty|].
    destruct (ext_dotplus s) as [[g0 r0]|].
    + intros [= <- <-]. by apply IH.
    + apply ext_tail_nonempty.
Qed.

Lemma ext_match_nonempty s g r : ext_match s = Some (g, r) → g ≠ "".
Proof.
  unfold ext_match. destruct s as [|c s]; [discriminate|].
  destruct (is_newline c); [discriminate|]. apply ext_dotplus_nonempty.
Qed.

Lemma findall_ext_nonempty fuel s :
  Forall (λ g, g ≠ "") (findall ext_match fuel s).
Proof.
  revert s. induction fuel as [|fuel IH]; intros s; cbn [findall].
  - constructor.
  - destruct (ext_match s) as [[g r]|] eqn:E.
    + constructor; [by eapply ext_match_nonempty|apply IH].
    + destruct s; [constructor|apply IH].
Qed.

Lemma getExtension_truthy s :
  ∃ o, getExtension (Some s) = Ok o ∧ (o = None ∨ truthy o = true).
Proof.
  unfold getExtension. destruct (last (re_findall ext_match s)) as [e|] eqn:E.
  - exists (Some e). split; [done|right].
    apply last_Some_elem_of in E.
    pose proof (findall_ext_nonempty (S (String.length s)) s) as HF.
    rewrite Forall_forall in HF. specialize (HF e E).
    destruct e; [contradiction|reflexivity].
  - exists None. auto.
Qed.

(** With a URL in the dictionary, [decideExtension] computes the
    classification of the specification, except that a content disposition
    that carries no hint still hides the hint of the URL. *)
Lemma decideExtension_refines_classify d u :
  dict_get d "url" = Some u →
  (filename_hint (dict_get d "contentDisposition") = None →
   truthy (dict_get d "contentDisposition") = true →
   filename_hint (Some u) = None) →
  decideExtension d
  = Ok (classify (dict_get d "contentType") (dict_get d "crContentType")
          (dict_get d "contentDisposition") u).
Proof.
  intros Hu Hcd. unfold decideExtension, classify, classify_precedence.
  rewrite Hu. set (ct := dict_get d "contentType").
  set (cr := dict_get d "crContentType").
  set (cd := dict_get d "contentDisposition") in *.
  assert (Hpost : ∀ e, (let* ext := Ok e in
                        let* elsevier := in_opt "api.elsevier" (Some u) in
                        if elsevier && (ext_is ext "plain" || ext_is ext "htm"
                                        || ext_is ext "html")
                        then Ok (Some "txt")
                        else if ext_is ext "plain" || ext_is ext "htm"
                        then Ok (Some "html")
                        else if ext_is ext "msword" then Ok (Some "doc")
                        else if ext_is ext "octet-stream" then Ok (Some "pdf")
                        else Ok ext)
                       = Ok (classify_overrides u e)).
  { intros e. unfold classify_overrides. simpl.
    repeat (match goal with |- context [if ?b then _ else _] =>
              destruct b end; try reflexivity). }
  destruct (truthy ct).
  { unfold type_ext. destruct (subtype_total (default "" ct)) as [e ->].
    apply Hpost. }
  destruct (truthy cr && negb (bool_decide (cr = Some "unspecified"))).
  { unfold type_ext. destruct (subtype_total (default "" cr)) as [e ->].
    apply Hpost. }
  destruct (truthy cd) eqn:Ecd.
  - destruct cd as [s|]; [|discriminate].
    destruct (getExtension_truthy s) as (o & Ho & _).
    unfold filename_hint in *. rewrite Ho in *.
    destruct o as [e|]; [apply Hpost|].
    rewrite Hcd by done. apply Hpost.
  - assert (Hnone : filename_hint cd = None).
    { unfold filename_hint. destruct cd as [[|c s]|]; try discriminate; done. }
    rewrite Hnone. clear Hcd.
    destruct (getExtension_truthy u) as (o & Ho & Ht).
    replace (filename_hint (Some u)) with o
      by (unfold filename_hint; rewrite Ho; by destruct o).
    rewrite Ho. cbn [bind].
    destruct Ht as [->|Ht]; [apply (Hpost None)|].
    rewrite Ht. apply Hpost.
Qed.

(** The classifier examples of the specification that carry a URL. *)
Example decideExtension_pdf_over_url :
  decideExtension {[ "contentType" := Some "application/pdf";
                     "url" := Some "http://host/file.htm" ]} = Ok (Some "pdf").
Proof. vm_compute. reflexivity. Qed.

Example decideExtension_elsevier :
  decideExtension {[ "contentType" := None;
                     "crContentType" := Some "text/plain";
                     "url" := Some "https://api.elsevier.com/x.html" ]}
  = Ok (Some "txt").
Proof. vm_compute. reflexivity. Qed.

(** C4. On the dictionary of the specification's own example, a content
    disposition [attachment; filename="x.doc"] with no content type and no
    URL, [decideExtension] does not return [doc]: the missing URL is read
    as [None] and the vendor-domain test on it raises [TypeError].  With
    any URL added to the dictionary the answer is [doc]. *)
Theorem decideExtension_disposition_only :
  decideExtension disposition_only
  = Raise (mkExn TypeError "argument of type 'NoneType' is not iterable")
  ∧ ∀ u, decideExtension (<["url" := Some u]> disposition_only)
         = Ok (Some "doc").
Proof.
  split; [vm_compute; reflexivity|].
  intros u. rewrite (decideExtension_refines_classify _ u).
  - unfold classify, classify_overrides.
    replace (classify_precedence _ _ _ _) with (Some "doc")
      by (vm_compute; reflexivity).
    destruct (contains "api.elsevier" u); reflexivity.
  - unfold dict_get. by rewrite lookup_insert_eq.
  - intros H. exfalso. revert H. vm_compute. discriminate.
Qed.

(** ** Cambridge URLs *)

Lemma dot_run_no_newline tail :
  no_newline tail = true → dot_run tail = (tail, "").
Proof.
  induction tail as [|c tail IH]; simpl; [done|].
  destruct (is_newline c); simpl; [discriminate|].
  intros H. by rewrite IH.
Qed.

Lemma findall_single m s g fuel :
  m s = Some (g, "") → m "" = None → findall m (S fuel) s = [g].
Proof.
  intros Hs He. cbn [findall]. rewrite Hs. f_equal.
  destruct fuel; cbn [findall]; [done|]. by rewrite He.
Qed.

Lemma findall_cambridge_skip pre s fuel :
  cambridge_unmatched pre s = true →
  findall cambridge_match (String.length pre + S fuel) (pre ++ s)
  = findall cambridge_match (S fuel) s.
Proof.
  induction pre as [|c pre IH]; [done|].
  cbn [cambridge_unmatched]. 
  destruct (cambridge_match (String c pre ++ s)) eqn:E; [discriminate|].
  intros H. cbn [String.length Nat.add findall].
  rewrite E. cbn [append]. by apply IH.
Qed.

Lemma string_app_length (a b : string) :
  String.length (a ++ b) = (String.length a + String.length b)%nat.
Proof. induction a as [|c a IH]; simpl; [done|]. by rewrite IH. Qed.

(** C10, as amended.  When the prefix pattern [10.1017/s] (its dot standing
    for any character) first matches in front of a non-empty tail without
    line break, [getCambridgeURL] returns the content-viewer template, with
    its capital S, followed by that tail. *)
Theorem getCambridgeURL_tail pre s tail :
  cambridge_unmatched pre s = true →
  cambridge_prefix s = Some tail →
  tail ≠ "" →
  no_newline tail = true →
  getCambridgeURL (pre ++ s) = Ok (cambridge_template ++ tail).
Proof.
  intros Hpre Hs Hne Hnl. unfold getCambridgeURL, re_findall.
  rewrite string_app_length.
  replace (S (String.length pre + String.length s))
    with (String.length pre + S (String.length s))%nat by lia.
  rewrite findall_cambridge_skip by done.
  rewrite (findall_single _ _ tail); [reflexivity| |reflexivity].
  unfold cambridge_match, group_dotplus. rewrite Hs.
  rewrite dot_run_no_newline by done.
  destruct tail; [contradiction|reflexivity].
Qed.

Lemma getCambridgeURL_tail_witness :
  getCambridgeURL ("doi:" ++ "10.1017/sABCDEF")
  = Ok "https://www.cambridge.org/core/services/aop-cambridge-core/content/view/SABCDEF".
Proof.
  apply (getCambridgeURL_tail "doi:" "10.1017/sABCDEF" "ABCDEF");
    [reflexivity|reflexivity|discriminate|reflexivity].
Defined.

(** The example of the specification. *)
Example getCambridgeURL_example :
  getCambridgeURL "10.1017/sABCDEF"
  = Ok "https://www.cambridge.org/core/services/aop-cambridge-core/content/view/SABCDEF".
Proof. vm_compute. reflexivity. Qed.

(** C10, as stated, fails on the identifier that ends with the prefix: the
    group of the pattern needs one character, [findall] returns the empty
    list and indexing it raises [IndexError]. *)
Lemma getCambridgeURL_prefix_only :
  contains "10.1017/s" "10.1017/s" = true
  ∧ getCambridgeURL "10.1017/s"
    = Raise (mkExn IndexError "list index out of range").
Proof. split; vm_compute; reflexivity. Qed.

(** ** PMID to PMCID *)

Lemma pmcid_of_no_linkset : pmcid_of_LinkSetDb [] = Ok "NoPMCID".
Proof. reflexivity. Qed.

Lemma pmcid_of_one_linkset l ls :
  pmcid_of_LinkSetDb [mkLinkSetDb (l :: ls)] = Ok (Id l).
Proof. reflexivity. Qed.

Lemma pmcid_of_many_linksets a b rest l ls c tail :
  Link a = l :: ls → Id l = String c tail →
  pmcid_of_LinkSetDb (a :: b :: rest) = Ok (String c "MoreThanPMCID").
Proof.
  intros Ha Hl. unfold pmcid_of_LinkSetDb. simpl. rewrite Ha. simpl.
  rewrite Hl. reflexivity.
Qed.

(** C3.  With no link set the sentinel [NoPMCID] is recorded and with one
    link set its first identifier; with more than one the code records the
    first character of the first identifier, not the identifier, in front
    of the marker: for the identifier 3539452 the row holds
    [3MoreThanPMCID]. *)
Theorem pmidTopmcid_many_records_first_character :
  pmcid_of_LinkSetDb [] = Ok "NoPMCID"
  ∧ pmcid_of_LinkSetDb [mkLinkSetDb [mkLink "3539452"]] = Ok "3539452"
  ∧ pmcid_of_LinkSetDb two_linksets = Ok "3MoreThanPMCID"
  ∧ csvs (pmidTopmcid elink_two (PmidList ["29"]) "pmcids" empty_world).2
      !! "pmcids.csv"
    = Some [["PMID"; "PMCID"]; ["29"; "3MoreThanPMCID"]].
Proof. repeat split; vm_compute; reflexivity. Qed.

(** ** The Crossref client *)

Lemma init_globals Crossref globals pmidsListOrCSVfile email :
  (init Crossref globals pmidsListOrCSVfile email).1.2 = globals.
Proof. reflexivity. Qed.

Lemma module_globals_cr : module_globals !! "cr" = None.
Proof. vm_compute. reflexivity. Qed.

Lemma cr_works_unbound doi w :
  cr_works module_globals doi w = (Raise NameError_cr, w).
Proof. unfold cr_works. rewrite module_globals_cr. reflexivity. Qed.

Lemma query_all_unbound doi todo arts nf w :
  query_all module_globals (doi :: todo) arts nf w = (Raise NameError_cr, w).
Proof.
  cbn [query_all]. unfold bindM, try_except. rewrite cr_works_unbound.
  reflexivity.
Qed.

Lemma query_all_nil globals arts nf w :
  query_all globals [] arts nf w = (Ok (arts, nf), w).
Proof. reflexivity. Qed.

(** C2.  For every instance built by [__init__] in the module as it
    stands, the query step on a non-empty pending set raises [NameError]
    at its first DOI, before any call to the service; and a run of the
    resolution loop either raises that error or ends with the articles it
    started with. *)
Theorem cr_works_raises_NameError
    Crossref pmidsListOrCSVfile email todo arts nf w fuel dois :
  todo ≠ [] →
  let globals := (init Crossref module_globals pmidsListOrCSVfile email).1.2 in
  query_all globals todo arts nf w = (Raise NameError_cr, w)
  ∧ ((resolve globals (S (S fuel)) dois arts nf w).1 = Raise NameError_cr
     ∨ ∃ st, (resolve globals (S (S fuel)) dois arts nf w).1 = Ok (Some st)
             ∧ st_articles st = arts).
Proof.
  intros Htodo globals. subst globals. rewrite init_globals. split.
  - destruct todo; [done|]. apply query_all_unbound.
  - unfold resolve, bindM. cbn [resolve_loop].
    cbn [st_dois st_articles st_notFounddois st_firstTime st_lenOfIn].
    destruct (bool_decide (dois = [])); [right; eexists; split; reflexivity|].
    unfold pass, bindM.
    cbn [st_dois st_articles st_notFounddois st_firstTime st_lenOfIn negb andb].
    destruct (set_diff _ _) as [|doi rest].
    + rewrite query_all_nil. cbn. right. eexists. split; reflexivity.
    + rewrite query_all_unbound. left. reflexivity.
Qed.

Lemma cr_works_raises_NameError_witness :
  query_all module_globals ["10.1000/a"] [] [] empty_world
  = (Raise NameError_cr, empty_world).
Proof.
  refine (proj1 (cr_works_raises_NameError (λ _, PyClass "Crossref")
            (PmidList ["29"]) "a@b.c" ["10.1000/a"] [] [] empty_world 0
            ["10.1000/a"] _)).
  discriminate.
Defined.

(** ** Downloads *)

Lemma append_rows_blobs p rows w : blobs (append_rows p rows w).2 = blobs w.
Proof. reflexivity. Qed.

Lemma checkHeaders_blobs f hs w : blobs (checkHeaders f hs w).2 = blobs w.
Proof.
  unfold checkHeaders, bindM, isfile. simpl.
  destruct hs as [hs|]; repeat case_match; reflexivity.
Qed.

Lemma writecsvRow_blobs f row hs w : blobs (writecsvRow f row hs w).2 = blobs w.
Proof.
  unfold writecsvRow, bindM.
  pose proof (checkHeaders_blobs f hs w) as H.
  destruct (checkHeaders f hs w) as [[[]|e] w']; simpl in *; done.
Qed.

Lemma call_run {A} service arg (answer : result A) w :
  call service arg answer w
  = (answer, mkWorld (csvs w) (blobs w) (trace w ++ [ECall service arg])%list).
Proof. reflexivity. Qed.

(** Artifacts live under [full text/doi3/]; no registry of the download
    stage does. *)
Lemma createFile_not_registry doi ext :
  createFile doi ext ≠ downloadable_csv ∧ createFile doi ext ≠ bad_csv.
Proof.
  unfold createFile, downloadable_csv, bad_csv.
  destruct (truthy ext); simpl; split; discriminate.
Qed.

Lemma store_keeps getsizeof doi url d c w p old :
  blobs w !! p = Some old →
  (getsizeof c - 33 ≤ Z.of_nat (String.length old))%Z →
  blobs (store getsizeof doi url d c w).2 !! p = Some old.
Proof.
  intros Hp Hsize. unfold store, bindM, lift.
  destruct (decideExtension d) as [ext|e]; [|done].
  unfold blob_size. 
  destruct (decide (p = createFile doi ext)) as [->|Hne].
  - rewrite Hp. simpl. rewrite bool_decide_eq_false_2 by lia.
    unfold ret. by rewrite writecsvRow_blobs.
  - destruct (bool_decide _); unfold write_blob, ret;
      rewrite writecsvRow_blobs; simpl; [|done].
    by rewrite lookup_insert_ne.
Qed.

Lemma store_overwrites getsizeof doi url d c w ext :
  decideExtension d = Ok ext →
  (getsizeof c - 33 >
   default 0 ((λ b, Z.of_nat (String.length b)) <$> blobs w !! createFile doi ext))%Z →
  blobs (store getsizeof doi url d c w).2 !! createFile doi ext = Some c.
Proof.
  intros Hd Hsize. unfold store, bindM, lift. rewrite Hd. unfold blob_size.
  rewrite bool_decide_eq_true_2 by done.
  unfold write_blob. rewrite writecsvRow_blobs. simpl.
  by rewrite lookup_insert_eq.
Qed.

Lemma log_and_reraise_blobs doi url m w :
  blobs (log_and_reraise doi url m w).2 = blobs (m w).2.
Proof. unfold log_and_reraise. destruct (m w) as [[|] ?]; reflexivity. Qed.

Lemma record_bad_blobs doi url e w : blobs (record_bad doi url e w).2 = blobs w.
Proof. apply writecsvRow_blobs. Qed.

(** One transport: a request, then [store] on what it delivers, with the
    recognised errors recorded as a bad URL. *)
Lemma transport_keeps getsizeof service (get : result response)
    (mkdict : response → gmap string (option string)) classes doi url w p old :
  blobs w !! p = Some old →
  (∀ r, get = Ok r →
        (getsizeof (content r) - 33 ≤ Z.of_nat (String.length old))%Z) →
  blobs (log_and_reraise doi url
           (try_except
              (let! r := call service url get in
               store getsizeof doi url (mkdict r) (content r))
              classes (record_bad doi url)) w).2 !! p = Some old.
Proof.
  intros Hp Hsize. rewrite log_and_reraise_blobs.
  unfold try_except, bindM. rewrite call_run.
  destruct get as [r|e].
  - pose proof (store_keeps getsizeof doi url (mkdict r) (content r)
                  (mkWorld (csvs w) (blobs w)
                     (trace w ++ [ECall service url])%list) p old Hp
                  (Hsize r eq_refl)) as Hs.
    destruct (store _ _ _ _ _ _) as [[[]|e] w']; simpl in *; [done|].
    destruct (caught_by classes e); [|done].
    by rewrite record_bad_blobs.
  - destruct (caught_by classes e); [|done].
    by rewrite record_bad_blobs.
Qed.

(** C5.  In both download paths, a file that exists with size N keeps its
    bytes whenever the measured size of the fetched content minus 33 is
    not strictly greater than N. *)
Theorem downloads_keep_file_not_exceeded
    getsizeof requests_get urlopen doi url h w p old :
  blobs w !! p = Some old →
  (∀ r, requests_get url h = Ok r →
        (getsizeof (content r) - 33 ≤ Z.of_nat (String.length old))%Z) →
  (∀ r, urlopen url h = Ok r →
        (getsizeof (content r) - 33 ≤ Z.of_nat (String.length old))%Z) →
  blobs (downloadViaRequests getsizeof requests_get doi url h w).2 !! p
  = Some old
  ∧ blobs (downloadViaUrlLib getsizeof urlopen doi url h w).2 !! p = Some old.
Proof.
  intros Hp Hget Hopen. split.
  - unfold downloadViaRequests. by apply transport_keeps.
  - unfold downloadViaUrlLib. by apply transport_keeps.
Qed.

Lemma downloads_keep_file_not_exceeded_witness :
  blobs (downloadViaRequests getsizeof_bytes short_pdf "10.1/x"
           "http://host/x" None disk_with_pdf).2
    !! "full text/doi3/pdf/10.1-x.pdf" = Some "a longer file"
  ∧ blobs (downloadViaUrlLib getsizeof_bytes short_pdf "10.1/x"
             "http://host/x" None disk_with_pdf).2
      !! "full text/doi3/pdf/10.1-x.pdf" = Some "a longer file".
Proof.
  apply (downloads_keep_file_not_exceeded getsizeof_bytes short_pdf short_pdf
           "10.1/x" "http://host/x" None disk_with_pdf
           "full text/doi3/pdf/10.1-x.pdf" "a longer file").
  - reflexivity.
  - intros r [= <-]. vm_compute. discriminate.
  - intros r [= <-]. vm_compute. discriminate.
Defined.

(** The file of the witness is the one the download addresses, and a
    longer answer does replace it. *)
Example download_addresses_file :
  createFile "10.1/x" (Some "pdf") = "full text/doi3/pdf/10.1-x.pdf".
Proof. reflexivity. Qed.

(** ** Registries *)

Lemma csvTodict_rows_app a b d0 :
  csvTodict_rows (a ++ b) d0
  = let* d1 := csvTodict_rows a d0 in csvTodict_rows b d1.
Proof.
  revert d0. induction a as [|row a IH]; intros d0; [done|].
  cbn [csvTodict_rows app].
  destruct (row_get row 0) as [k|e]; [|done].
  destruct (row_get row 1) as [v|e]; [|done]. simpl. apply IH.
Qed.

Lemma addToDict_recorded (d : gmap string (gset string)) k v vs :
  d !! k = Some vs → v ∈ vs → addToDict d k v = d.
Proof.
  intros Hk Hv. unfold addToDict. rewrite Hk. simpl.
  assert (vs ∪ {[v]} = vs) as ->.
  { rewrite (comm_L (∪)). apply subseteq_union_1_L.
    by apply singleton_subseteq_l. }
  by apply insert_id.
Qed.

Lemma writecsvRow_existing fileName row headers w rows :
  csvs w !! (fileName ++ ".csv") = Some rows →
  writecsvRow fileName row headers w
  = (Ok (), mkWorld (<[fileName ++ ".csv" := (rows ++ [row])%list]> (csvs w))
              (blobs w) (trace w)).
Proof.
  intros Hf. unfold writecsvRow, checkHeaders, bindM, isfile.
  rewrite Hf. rewrite bool_decide_eq_true_2 by eauto.
  destruct headers as [hs|]; simpl.
  - rewrite andb_false_r. unfold ret, append_rows. by rewrite Hf.
  - unfold ret, append_rows. by rewrite Hf.
Qed.

Lemma csv_reader_app a b :
  csv_reader (a ++ b) = (csv_reader a ++ csv_reader b)%list.
Proof. apply fmap_app. Qed.

(** C6, as amended.  Writing a row whose (key, value) pair, as
    [csvTodict] reads it, is already recorded in a registry file appends
    one more row to the file, and the set-valued mapping that [csvTodict]
    reads back from it is the one read before. *)
Theorem writecsvRow_duplicate_same_mapping
    fileName row headers w rows d k v vs :
  csvs w !! (fileName ++ ".csv") = Some rows →
  csvTodict_rows (csv_reader rows) ∅ = Ok d →
  row !! 0%nat = Some k →
  row !! 1%nat = Some v →
  d !! universal_newlines k = Some vs →
  universal_newlines v ∈ vs →
  csvs (writecsvRow fileName row headers w).2 !! (fileName ++ ".csv")
  = Some (rows ++ [row])%list
  ∧ (csvTodict fileName (writecsvRow fileName row headers w).2).1 = Ok d.
Proof.
  intros Hf Hd Hk Hv Hvs Hin.
  rewrite (writecsvRow_existing _ _ _ _ rows) by done.
  unfold csvTodict. simpl. rewrite lookup_insert_eq. split; [done|].
  simpl. rewrite csv_reader_app, csvTodict_rows_app, Hd. simpl.
  unfold row_get. rewrite !list_lookup_fmap, Hk, Hv. simpl.
  by rewrite (addToDict_recorded d _ _ vs).
Qed.

Lemma writecsvRow_duplicate_same_mapping_witness :
  let w := (writecsvRow "full text/doi/downloadable dois" downloaded_row
              (Some downloadable_headers) empty_world).2 in
  csvs (writecsvRow "full text/doi/downloadable dois" downloaded_row
          (Some downloadable_headers) w).2 !! downloadable_csv
  = Some [downloadable_headers; downloaded_row; downloaded_row]
  ∧ (csvTodict "full text/doi/downloadable dois"
       (writecsvRow "full text/doi/downloadable dois" downloaded_row
          (Some downloadable_headers) w).2).1
    = Ok {[ "DOI" := {[ "URL" ]}; "10.1000/a" := {[ "http://host/a.pdf" ]} ]}.
Proof.
  intros w.
  apply (writecsvRow_duplicate_same_mapping "full text/doi/downloadable dois"
           downloaded_row (Some downloadable_headers) w
           [downloadable_headers; downloaded_row]
           {[ "DOI" := {[ "URL" ]}; "10.1000/a" := {[ "http://host/a.pdf" ]} ]}
           "10.1000/a" "http://host/a.pdf" {[ "http://host/a.pdf" ]}).
  - vm_compute. reflexivity.
  - vm_compute. reflexivity.
  - reflexivity.
  - reflexivity.
  - vm_compute. reflexivity.
  - by apply elem_of_singleton_2.
Defined.

(** C6, as stated, fails: the second write of a row leaves it twice in the
    file. *)
Lemma writecsvRow_duplicate_row :
  let w := (writecsvRow "full text/doi/downloadable dois" downloaded_row
              (Some downloadable_headers) empty_world).2 in
  let w' := (writecsvRow "full text/doi/downloadable dois" downloaded_row
               (Some downloadable_headers) w).2 in
  csvs w !! downloadable_csv = Some [downloadable_headers; downloaded_row]
  ∧ csvs w' !! downloadable_csv
    = Some [downloadable_headers; downloaded_row; downloaded_row]
  ∧ csvs w' !! downloadable_csv ≠ csvs w !! downloadable_csv.
Proof.
  assert (H1 : csvs (writecsvRow "full text/doi/downloadable dois"
                       downloaded_row (Some downloadable_headers)
                       empty_world).2 !! downloadable_csv
               = Some [downloadable_headers; downloaded_row])
    by (vm_compute; reflexivity).
  assert (H2 : csvs (writecsvRow "full text/doi/downloadable dois"
                       downloaded_row (Some downloadable_headers)
                       (writecsvRow "full text/doi/downloadable dois"
                          downloaded_row (Some downloadable_headers)
                          empty_world).2).2 !! downloadable_csv
               = Some [downloadable_headers; downloaded_row; downloaded_row])
    by (vm_compute; reflexivity).
  cbv zeta. rewrite H1, H2. repeat split. discriminate.
Qed.

(** ** Errors of the identifier service *)

(** A time-out of [Entrez.esummary] costs one call, two lines and a sleep
    of 60 seconds, and leaves [summaryHandle] as it was. *)
Lemma open_summary_timeout esummary pmid st w e :
  esummary pmid = Raise e →
  issubclass (exn_cls e) URLError = true →
  open_summary esummary pmid st w
  = (Ok st,
     mkWorld (csvs w) (blobs w)
       (trace w ++ [ ECall "Entrez.esummary" pmid;
                     EPrint [VStr "server time out"]; ESleep 60;
                     EPrint [VStr "woke up from server time out"] ])%list).
Proof.
  intros He Hc. unfold open_summary, try_except, bindM at 1.
  rewrite call_run, He. unfold caught_by. cbn [existsb]. rewrite Hc.
  cbn [orb]. unfold bindM, print, sleep, emit, ret. simpl.
  by rewrite <- !app_assoc.
Qed.

Lemma read_summary_unbound Entrez_read pmid st w :
  acc_handle st = None →
  read_summary Entrez_read pmid st w
  = (Raise (mkExn UnboundLocalError
              "local variable 'summaryHandle' referenced before assignment"),
     w).
Proof.
  intros Hh. unfold read_summary, try_except, bindM at 1. by rewrite Hh.
Qed.

(** A handle that was read is at its end: the parser raises
    [NotXMLError], which no handler of the loop catches. *)
Lemma read_summary_stale Entrez_read pmid st w hd :
  acc_handle st = Some hd → handle_read hd = true →
  ∃ err,
    read_summary Entrez_read pmid st w
    = (Raise err,
       mkWorld (csvs w) (blobs w)
         (trace w ++ [ECall "Entrez.read" (handle_name hd)])%list)
    ∧ exn_cls err = NotXMLError.
Proof.
  intros Hh Hr. eexists. split.
  - unfold read_summary, try_except, bindM at 1. rewrite Hh.
    unfold ret at 1. unfold bindM at 1. rewrite call_run.
    unfold read_handle. rewrite Hr. reflexivity.
  - reflexivity.
Qed.

Lemma flush_handle total f st w :
  ∃ st' w', flush total f st w = (Ok st', w') ∧ acc_handle st' = acc_handle st.
Proof.
  unfold flush. destruct (_ || _); [|by eauto].
  unfold dictTocsv, checkHeaders, listTocsvRows, bindM, isfile, append_rows,
    sleep, print, emit, ret.
  repeat case_match; simplify_eq; cbn; eauto.
Qed.

(** After a turn of the loop [summaryHandle] is bound to a handle that was
    read. *)
Lemma fetch_loop_handle esummary Entrez_read total f todo st w st' w' :
  fetch_loop esummary Entrez_read total f todo st w = (Ok st', w') →
  todo ≠ [] →
  ∃ hd, acc_handle st' = Some hd ∧ handle_read hd = true.
Proof.
  revert st w. induction todo as [|pmid todo IH]; intros st w; [done|].
  cbn [fetch_loop]. intros Hrun _.
  set (st0 := mkFetch (S (acc_counter st)) (acc_handle st) (acc_pmid_doi st)
                (acc_unicodeErrorpmids st) (acc_notFoundpmids st)
                (acc_notFounddois st)) in *.
  unfold bindM at 1 in Hrun.
  destruct (open_summary esummary pmid st0 w) as [[st1|e] w1]; [|discriminate].
  unfold bindM at 1 in Hrun.
  destruct (read_summary Entrez_read pmid st1 w1) as [[st2|e] w2] eqn:E2;
    [|discriminate].
  unfold bindM at 1 in Hrun.
  destruct (flush_handle total f st2 w2) as (st3 & w3 & E3 & Hh).
  rewrite E3 in Hrun.
  destruct todo as [|q todo].
  - cbn in Hrun. injection Hrun as <- <-. rewrite Hh.
    clear -E2. unfold read_summary, try_except in E2.
    destruct (acc_handle st1) as [hd|] eqn:Eh; [|by cbv in E2].
    exists (mkHandle (handle_name hd) true).
    split; [|reflexivity].
    assert (Hs : acc_handle (spent st1) = Some (mkHandle (handle_name hd) true))
      by (unfold spent; cbn; by rewrite Eh).
    revert E2. unfold bindM, ret, lift, raise, print, emit, call.
    repeat case_match; simplify_eq; cbn; intros; simplify_eq; cbn; done.
  - by apply (IH st3 w3).
Qed.

Lemma fetch_loop_app esummary Entrez_read total f pre post st w st1 w1 :
  fetch_loop esummary Entrez_read total f pre st w = (Ok st1, w1) →
  fetch_loop esummary Entrez_read total f (pre ++ post) st w
  = fetch_loop esummary Entrez_read total f post st1 w1.
Proof.
  revert st w. induction pre as [|pmid pre IH]; intros st w.
  - cbn. by intros [= <- <-].
  - cbn [fetch_loop app]. intros Hrun.
    unfold bindM at 1 in Hrun. unfold bindM at 1.
    destruct (open_summary _ _ _ _) as [[st2|e] w2]; [|discriminate].
    unfold bindM at 1 in Hrun. unfold bindM at 1.
    destruct (read_summary _ _ _ _) as [[st3|e] w3]; [|discriminate].
    unfold bindM at 1 in Hrun. unfold bindM at 1.
    destruct (flush _ _ _ _) as [[st4|e] w4]; [|discriminate].
    by apply IH.
Qed.

(** C9.  When [Entrez.esummary] raises [URLError] for a PMID, after the
    loop got through the PMIDs before it, the code prints, sleeps 60
    seconds, prints again and does not ask again.  It goes on to
    [Entrez.read] with what [summaryHandle] holds: for the first PMID the
    name is unbound and [UnboundLocalError] is raised; otherwise it is the
    handle of the previous PMID, read already, and [NotXMLError] is
    raised.  No handler catches these: the run ends there, with the
    registries as they were and the PMIDs after it never asked. *)
Theorem esummary_timeout_ends_run
    esummary Entrez_read total doisCSVfile pre pmid post w st1 w1 e :
  esummary pmid = Raise e →
  issubclass (exn_cls e) URLError = true →
  fetch_loop esummary Entrez_read total doisCSVfile pre
    (mkFetch 0 None [] [] [] []) w = (Ok st1, w1) →
  ∃ err stale,
    fetch_loop esummary Entrez_read total doisCSVfile (pre ++ pmid :: post)
      (mkFetch 0 None [] [] [] []) w
    = (Raise err,
       mkWorld (csvs w1) (blobs w1)
         (trace w1 ++ [ ECall "Entrez.esummary" pmid;
                        EPrint [VStr "server time out"]; ESleep 60;
                        EPrint [VStr "woke up from server time out"] ]
                   ++ stale)%list)
    ∧ ((pre = [] ∧ stale = [] ∧ exn_cls err = UnboundLocalError)
       ∨ (pre ≠ [] ∧ exn_cls err = NotXMLError
          ∧ ∃ hd, acc_handle st1 = Some hd ∧ handle_read hd = true
                  ∧ stale = [ECall "Entrez.read" (handle_name hd)])).
Proof.
  intros He Hc Hpre.
  rewrite (fetch_loop_app _ _ _ _ _ _ _ _ _ _ Hpre).
  cbn [fetch_loop].
  set (st0 := mkFetch (S (acc_counter st1)) (acc_handle st1) (acc_pmid_doi st1)
                (acc_unicodeErrorpmids st1) (acc_notFoundpmids st1)
                (acc_notFounddois st1)).
  unfold bindM at 1. rewrite (open_summary_timeout _ _ _ _ e) by done.
  unfold bindM at 1.
  destruct pre as [|p pre].
  - cbn in Hpre. injection Hpre as <- <-.
    rewrite read_summary_unbound by done.
    eexists _, []. split; [by rewrite app_nil_r|]. left. done.
  - destruct (fetch_loop_handle _ _ _ _ _ _ _ _ _ Hpre ltac:(done))
      as (hd & Hh & Hr).
    destruct (read_summary_stale Entrez_read pmid st0
                (mkWorld (csvs w1) (blobs w1)
                   (trace w1 ++ [ ECall "Entrez.esummary" pmid;
                                  EPrint [VStr "server time out"]; ESleep 60;
                                  EPrint [VStr "woke up from server time out"]
                                ])%list) hd Hh Hr) as (err & -> & Hcls).
    exists err, [ECall "Entrez.read" (handle_name hd)].
    split; [cbn [csvs blobs trace]; by rewrite <- app_assoc|].
    right. split; [done|]. split; [done|]. by exists hd.
Qed.

Lemma esummary_timeout_ends_run_witness :
  ∃ err stale,
    fetch_loop esummary_flaky read_100 2 "dois" (["100"] ++ "200" :: [])
      (mkFetch 0 None [] [] [] []) empty_world
    = (Raise err,
       mkWorld ∅ ∅
         ([ECall "Entrez.esummary" "100"; ECall "Entrez.read" "handle-100"]
          ++ [ ECall "Entrez.esummary" "200";
               EPrint [VStr "server time out"]; ESleep 60;
               EPrint [VStr "woke up from server time out"] ]
          ++ stale)%list)
    ∧ ((["100"] = [] ∧ stale = [] ∧ exn_cls err = UnboundLocalError)
       ∨ (["100"] ≠ [] ∧ exn_cls err = NotXMLError
          ∧ ∃ hd, Some (mkHandle "handle-100" true) = Some hd
                  ∧ handle_read hd = true
                  ∧ stale = [ECall "Entrez.read" (handle_name hd)])).
Proof.
  apply (esummary_timeout_ends_run esummary_flaky read_100 2 "dois"
           ["100"] "200" [] empty_world
           (mkFetch 1 (Some (mkHandle "handle-100" true))
              [("100", "10.1000/a")] [] [] [])
           (mkWorld ∅ ∅ [ECall "Entrez.esummary" "100";
                         ECall "Entrez.read" "handle-100"])
           (mkExn URLError "<urlopen error timed out>"));
    reflexivity.
Defined.

(** The run of [pmidTodoi] on the PMIDs 100 and 200 when the service
    times out on 200: one call for 200, a second read of the handle of
    100, [NotXMLError], and no registry written, the DOI found for 100
    included.  When the time-out hits the first PMID there is no handle yet
    and the read raises [UnboundLocalError]. *)
Example pmidTodoi_timeout_on_second :
  let r := pmidTodoi_fetch esummary_flaky read_100 ["100"; "200"] "dois"
             empty_world in
  exn_cls <$> (match r.1 with Raise err => Some err | Ok _ => None end)
  = Some NotXMLError
  ∧ calls (trace r.2)
    = [ ("Entrez.esummary", "100"); ("Entrez.read", "handle-100");
        ("Entrez.esummary", "200"); ("Entrez.read", "handle-100") ]
  ∧ csvs r.2 = ∅
  ∧ (pmidTodoi_fetch esummary_flaky read_100 ["200"] "dois" empty_world).1
    = Raise (mkExn UnboundLocalError
               "local variable 'summaryHandle' referenced before assignment").
Proof. cbv zeta. repeat split; vm_compute; reflexivity. Qed.

(** ** A second run of the download stage *)

Section Sparing.

Variable w0 : world.
Variable known : list string.

Lemma grows_refl : grows w0 w0.
Proof. intros rows H. exists []. by rewrite app_nil_r. Qed.

Lemma adds_csvs w w' : csvs w' = csvs w → adds known w w'.
Proof.
  intros E p. exists []. rewrite E, app_nil_r. split; [done|constructor].
Qed.

Lemma adds_refl w : adds known w w.
Proof. by apply adds_csvs. Qed.

Lemma adds_trans w1 w2 w3 :
  adds known w1 w2 → adds known w2 w3 → adds known w1 w3.
Proof.
  intros H12 H23 p. destruct (H12 p) as (m1 & E1 & F1).
  destruct (H23 p) as (m2 & E2 & F2). exists (m1 ++ m2)%list.
  rewrite E2, E1, app_assoc. split; [done|]. by apply Forall_app.
Qed.

Lemma no_events w : ∃ evs, trace w = (trace w ++ evs)%list
                           ∧ Forall (spares known) evs.
Proof. exists []. by rewrite app_nil_r. Qed.

Lemma sparing_pure {A} (m : M A) :
  (∀ w, (m w).2 = w) → sparing w0 known m.
Proof.
  intros Hm w Hw. rewrite Hm. split; [done|].
  split; [apply no_events|apply adds_refl].
Qed.

Lemma sparing_ret {A} (a : A) : sparing w0 known (ret a).
Proof. by apply sparing_pure. Qed.

Lemma sparing_raise {A} e : sparing w0 known (@raise A e).
Proof. by apply sparing_pure. Qed.

Lemma sparing_lift {A} (r : result A) : sparing w0 known (lift r).
Proof. by apply sparing_pure. Qed.

Lemma sparing_bind {A B} (m : M A) (k : A → M B) :
  sparing w0 known m →
  (∀ w a, grows w0 w → (m w).1 = Ok a → sparing w0 known (k a)) →
  sparing w0 known (bindM m k).
Proof.
  intros Hm Hk w Hw. destruct (Hm w Hw) as (Hg & (evs & Ht & Hf) & Ha).
  specialize (Hk w). unfold bindM.
  destruct (m w) as [[a|e] w'] eqn:E; simpl in *.
  - destruct (Hk a Hw eq_refl w' Hg) as (Hg2 & (evs2 & Ht2 & Hf2) & Ha2).
    split; [done|]. split; [|by apply (adds_trans w w')].
    exists (evs ++ evs2)%list.
    rewrite Ht2, Ht, app_assoc. split; [done|]. by apply Forall_app.
  - split; [done|]. split; [by exists evs|done].
Qed.

Lemma sparing_seq {A B} (m : M A) (k : M B) :
  sparing w0 known m → sparing w0 known k →
  sparing w0 known (bindM m (λ _, k)).
Proof. intros Hm Hk. apply sparing_bind; auto. Qed.

Lemma sparing_try_except {A} (m : M A) classes handler :
  sparing w0 known m → (∀ e, sparing w0 known (handler e)) →
  sparing w0 known (try_except m classes handler).
Proof.
  intros Hm Hh w Hw. destruct (Hm w Hw) as (Hg & (evs & Ht & Hf) & Ha).
  unfold try_except. destruct (m w) as [[a|e] w'] eqn:E; simpl in *.
  - split; [done|]. split; [by exists evs|done].
  - destruct (caught_by classes e).
    + destruct (Hh e w' Hg) as (Hg2 & (evs2 & Ht2 & Hf2) & Ha2).
      split; [done|]. split; [|by apply (adds_trans w w')].
      exists (evs ++ evs2)%list.
      rewrite Ht2, Ht, app_assoc. split; [done|]. by apply Forall_app.
    + split; [done|]. split; [by exists evs|done].
Qed.

Lemma sparing_forM {A} (l : list A) body :
  (∀ x, x ∈ l → sparing w0 known (body x)) → sparing w0 known (forM l body).
Proof.
  induction l as [|x l IH]; intros Hb; cbn [forM]; [apply sparing_ret|].
  apply sparing_seq.
  - apply Hb. by left.
  - apply IH. intros y Hy. apply Hb. by right.
Qed.

Lemma sparing_emit e : spares known e → sparing w0 known (emit e).
Proof.
  intros He w Hw. split; [exact Hw|]. split; [|by apply adds_csvs].
  exists [e]. split; [done|]. by constructor.
Qed.

Lemma sparing_call {A} service url (answer : result A) :
  url ∉ known → sparing w0 known (call service url answer).
Proof.
  intros Hu. unfold call. apply sparing_seq; [|apply sparing_lift].
  by apply sparing_emit.
Qed.

Lemma sparing_append_rows p rows :
  Forall (new_row known) rows → sparing w0 known (append_rows p rows).
Proof.
  intros Hrows w Hw. split; [|split].
  - intros rows0 H0. destruct (Hw rows0 H0) as [more Hmore].
    unfold append_rows. simpl.
    destruct (decide (p = downloadable_csv)) as [->|Hne].
    + rewrite lookup_insert_eq, Hmore. simpl.
      exists (more ++ rows)%list. by rewrite app_assoc.
    + rewrite lookup_insert_ne by done. by exists more.
  - exists []. cbn. by rewrite app_nil_r.
  - intros q. unfold append_rows. cbn [snd csvs].
    destruct (decide (p = q)) as [->|Hne].
    + exists rows. by rewrite lookup_insert_eq.
    + exists []. rewrite lookup_insert_ne by done.
      rewrite app_nil_r. split; [done|constructor].
Qed.

Lemma sparing_checkHeaders f hs :
  hs ∈ registry_headers → sparing w0 known (checkHeaders f (Some hs)).
Proof.
  intros Hhs. unfold checkHeaders.
  apply sparing_bind; [by apply sparing_pure|].
  intros _ there _ _.
  destruct (_ && _); [|apply sparing_ret].
  apply sparing_append_rows. constructor; [by left|constructor].
Qed.

Lemma sparing_writecsvRow f row hs :
  hs ∈ registry_headers → (∃ u, row !! 1%nat = Some u ∧ u ∉ known) →
  sparing w0 known (writecsvRow f row (Some hs)).
Proof.
  intros Hhs Hrow. unfold writecsvRow.
  apply sparing_seq; [by apply sparing_checkHeaders|].
  apply sparing_append_rows. constructor; [by right|constructor].
Qed.

Lemma sparing_write_blob p c : sparing w0 known (write_blob p c).
Proof.
  intros w Hw. split; [exact Hw|]. split; [|by apply adds_csvs].
  exists []. cbn. by rewrite app_nil_r.
Qed.

Lemma row_about doi url c :
  url ∉ known → ∃ u, [doi; url; c] !! 1%nat = Some u ∧ u ∉ known.
Proof. intros Hu. by exists url. Qed.

End Sparing.

Section SparingDownloads.

Variable getsizeof : string → Z.
Variable requests_get requests_head urlopen : string → option string → result response.
Variable now : Z.
Variable h : option string.
Variable w0 : world.
Variable known : list string.

Lemma sparing_store doi url d c :
  url ∉ known →
  sparing w0 known (store getsizeof doi url d c).
Proof.
  intros Hu.
  unfold store. apply sparing_bind; [apply sparing_lift|]. intros _ ext _ _.
  apply sparing_bind; [by apply sparing_pure|]. intros _ size _ _.
  apply sparing_seq.
  - destruct (bool_decide _); [apply sparing_write_blob|apply sparing_ret].
  - apply sparing_writecsvRow; [by left|by apply row_about].
Qed.

Lemma sparing_record_bad doi url e :
  url ∉ known → sparing w0 known (record_bad doi url e).
Proof.
  intros Hu. unfold record_bad.
  apply sparing_writecsvRow; [by right; left|by apply row_about].
Qed.

Lemma sparing_log_and_reraise doi url m :
  sparing w0 known m → sparing w0 known (log_and_reraise doi url m).
Proof.
  intros Hm w Hw. destruct (Hm w Hw) as (Hg & (evs & Ht & Hf) & Ha).
  unfold log_and_reraise. destruct (m w) as [[a|e] w'] eqn:E; simpl in *.
  - split; [done|]. split; [by exists evs|done].
  - split; [done|]. split; [|done].
    exists (evs ++ [EPrint [VStr doi; VStr url]])%list.
    rewrite Ht, app_assoc. split; [done|].
    apply Forall_app. split; [done|]. by repeat constructor.
Qed.

Lemma sparing_downloadViaRequests doi url :
  url ∉ known →
  sparing w0 known (downloadViaRequests getsizeof requests_get doi url h).
Proof.
  intros Hu. unfold downloadViaRequests.
  apply sparing_log_and_reraise, sparing_try_except.
  - apply sparing_bind; [by apply sparing_call|].
    intros. by apply sparing_store.
  - intros e. by apply sparing_record_bad.
Qed.

Lemma sparing_downloadViaUrlLib doi url :
  url ∉ known →
  sparing w0 known (downloadViaUrlLib getsizeof urlopen doi url h).
Proof.
  intros Hu. unfold downloadViaUrlLib.
  apply sparing_log_and_reraise, sparing_try_except.
  - apply sparing_bind; [by apply sparing_call|].
    intros. by apply sparing_store.
  - intros e. by apply sparing_record_bad.
Qed.

Lemma sparing_fetch doi url :
  url ∉ known →
  sparing w0 known
    (fetch getsizeof requests_get requests_head urlopen now h doi url).
Proof.
  intros Hu. unfold fetch, download. apply sparing_bind.
  - apply sparing_try_except; [|intros; apply sparing_ret].
    apply sparing_bind; [by apply sparing_call|]. intros _ r _ _.
    apply sparing_seq; [|apply sparing_ret].
    destruct (rate_limit r) as [[remainingHits resetTime]|];
      [|apply sparing_ret].
    destruct (bool_decide _); [|apply sparing_ret].
    by apply sparing_emit.
  - intros _ [] _ _.
    + by apply sparing_downloadViaRequests.
    + by apply sparing_downloadViaUrlLib.
Qed.

Lemma fixSpringerLinkURL_nonempty url u :
  fixSpringerLinkURL url = Ok u → u ≠ "".
Proof.
  unfold fixSpringerLinkURL.
  destruct (index_last _) as [doi|e]; simpl; [|discriminate].
  intros [= <-]. discriminate.
Qed.

(** [try_url] and [try_cambridge] ask only for URLs outside the list they
    are given. *)
Lemma sparing_try_url seen doi url :
  (∀ u, u ∈ known → u ∈ seen) →
  sparing w0 known
    (try_url getsizeof requests_get requests_head urlopen now h seen doi url).
Proof.
  intros Hsub. unfold try_url.
  destruct (bool_decide (url ≠ "")); simpl; [|apply sparing_ret].
  destruct (bool_decide (url ∈ seen)) eqn:Eu; simpl; [apply sparing_ret|].
  apply bool_decide_eq_false in Eu.
  destruct (contains "springerlink" url); [|apply sparing_fetch; auto].
  apply sparing_bind; [apply sparing_lift|]. intros w u _ Hfix.
  unfold lift in Hfix. simpl in Hfix.
  apply fixSpringerLinkURL_nonempty in Hfix.
  rewrite (bool_decide_eq_true_2 (u ≠ "")) by done. simpl.
  destruct (bool_decide (u ∈ seen)) eqn:Eu'; [apply sparing_ret|].
  apply bool_decide_eq_false in Eu'. apply sparing_fetch. auto.
Qed.

Lemma sparing_try_cambridge seen doi :
  (∀ u, u ∈ known → u ∈ seen) →
  sparing w0 known
    (try_cambridge getsizeof requests_get requests_head urlopen now h seen doi).
Proof.
  intros Hsub. unfold try_cambridge.
  apply sparing_bind; [apply sparing_lift|]. intros _ u _ _.
  destruct (bool_decide (u ≠ "")); simpl; [|apply sparing_ret].
  destruct (bool_decide (u ∈ seen)) eqn:Eu; simpl; [apply sparing_ret|].
  apply bool_decide_eq_false in Eu. apply sparing_fetch. auto.
Qed.

Lemma sparing_first_pass articlesURLs downloadableURLs badURLs :
  (∀ u, u ∈ known → u ∈ downloadableURLs) →
  sparing w0 known
    (first_pass getsizeof requests_get requests_head urlopen now h
       articlesURLs downloadableURLs badURLs).
Proof.
  intros Hsub. unfold first_pass.
  assert (Hsub' : ∀ u, u ∈ known → u ∈ (downloadableURLs ++ badURLs)%list).
  { intros u Hu. apply elem_of_app. left. auto. }
  apply sparing_seq; [|by apply sparing_emit].
  apply sparing_forM. intros item _.
  destruct (contains "10.1017/s" item.1).
  - by apply sparing_try_cambridge.
  - apply sparing_forM. intros url_type _. by apply sparing_try_url.
Qed.

End SparingDownloads.

Lemma read_column_set_run path col w :
  read_column_set path col w
  = (match csvs w !! path with
     | None => Raise (mkExn FileNotFoundError path)
     | Some [] => Raise (mkExn EmptyDataError "No columns to parse from file")
     | Some (header :: rows) =>
         if forallb (λ r, List.length r <=? List.length header)%nat rows
         then match column_index header col with
              | Some i => Ok (remove_dups (omap (λ r, field r i) rows))
              | None => Raise (mkExn KeyError col)
              end
         else Raise (mkExn ParserError "Error tokenizing data")
     end, w).
Proof.
  unfold read_column_set, bindM, read_csv.
  destruct (csvs w !! path) as [[|header rows]|]; try reflexivity.
  destruct (forallb _ rows); [|reflexivity].
  unfold lift, column. simpl. by destruct (column_index header col).
Qed.

Lemma read_column_set_pure path col w : (read_column_set path col w).2 = w.
Proof. by rewrite read_column_set_run. Qed.

Lemma read_column_set_or_empty_pure path col w :
  (read_column_set_or_empty path col w).2 = w.
Proof.
  unfold read_column_set_or_empty, try_except.
  rewrite read_column_set_run. simpl.
  repeat case_match; reflexivity.
Qed.

Lemma read_doi_url_rows_pure path w : (read_doi_url_rows path w).2 = w.
Proof.
  unfold read_doi_url_rows, bindM, read_csv, lift, column, ret.
  repeat case_match; simplify_eq; reflexivity.
Qed.

(** What was read from the registry when the run started is read again
    from the registry once it has grown. *)
Lemma read_column_set_or_empty_grows w0 w urls :
  grows w0 w →
  (read_column_set_or_empty downloadable_csv "URL" w).1 = Ok urls →
  ∀ u, u ∈ downloaded_urls w0 → u ∈ urls.
Proof.
  intros Hg Hr u. unfold downloaded_urls.
  unfold read_column_set_or_empty, try_except in *.
  rewrite read_column_set_run in *. simpl.
  destruct (csvs w0 !! downloadable_csv) as [[|header rows0]|] eqn:E0;
    simpl; try (intros Hu; by apply elem_of_nil in Hu).
  destruct (Hg _ E0) as [more Hm]. rewrite Hm in Hr. simpl in Hr.
  rewrite forallb_app in Hr.
  destruct (forallb _ rows0); simpl in *;
    [|intros Hu; by apply elem_of_nil in Hu].
  destruct (forallb _ more); simpl in *; [|discriminate].
  destruct (column_index header "URL") as [i|]; simpl in *; [|discriminate].
  injection Hr as <-. rewrite !elem_of_remove_dups, omap_app, elem_of_app.
  by left.
Qed.

Lemma read_column_set_grows w0 w urls :
  grows w0 w →
  (read_column_set downloadable_csv "URL" w).1 = Ok urls →
  ∀ u, u ∈ downloaded_urls w0 → u ∈ urls.
Proof.
  intros Hg Hr. apply (read_column_set_or_empty_grows w0 w); [done|].
  unfold read_column_set_or_empty, try_except.
  destruct (read_column_set downloadable_csv "URL" w) as [[l|e] w'];
    simpl in *; [done|discriminate].
Qed.

Section SparingStage.

Variable getsizeof : string → Z.
Variable requests_get requests_head urlopen : string → option string → result response.
Variable now : Z.
Variable h : option string.
Variable w0 : world.

Lemma sparing_read_column_set path col :
  sparing w0 (downloaded_urls w0) (read_column_set path col).
Proof. apply sparing_pure, read_column_set_pure. Qed.

Lemma sparing_read_column_set_or_empty path col :
  sparing w0 (downloaded_urls w0) (read_column_set_or_empty path col).
Proof. apply sparing_pure, read_column_set_or_empty_pure. Qed.

Lemma sparing_retry_turn :
  sparing w0 (downloaded_urls w0)
    (retry_turn getsizeof requests_get requests_head urlopen now h).
Proof.
  unfold retry_turn. apply sparing_bind.
  { apply sparing_try_except; [|intros; apply sparing_ret].
    apply sparing_bind; [apply sparing_pure, read_doi_url_rows_pure|].
    intros. apply sparing_ret. }
  intros _ bad _ _.
  apply sparing_bind; [apply sparing_read_column_set|].
  intros w downloadableURLs Hw Hread.
  pose proof (read_column_set_grows w0 w downloadableURLs Hw Hread) as Hsub.
  apply sparing_seq.
  { apply sparing_forM. intros row _.
    destruct (String.eqb row.2 "###"); [apply sparing_ret|].
    destruct (contains "10.1017/s" row.1).
    - by apply sparing_try_cambridge.
    - by apply sparing_try_url. }
  apply sparing_seq; [by apply sparing_emit|].
  apply sparing_bind; [apply sparing_read_column_set|].
  intros. apply sparing_ret.
Qed.

Lemma sparing_retry_loop fuel lenOfIn lenOfOut :
  sparing w0 (downloaded_urls w0)
    (retry_loop getsizeof requests_get requests_head urlopen now h fuel
       lenOfIn lenOfOut).
Proof.
  revert lenOfIn lenOfOut.
  induction fuel as [|fuel IH]; intros lenOfIn lenOfOut; cbn [retry_loop];
    [apply sparing_ret|].
  destruct (bool_decide _); [|apply sparing_ret].
  apply sparing_bind; [apply sparing_retry_turn|]. intros. apply IH.
Qed.

Lemma sparing_download_stage fuel articlesURLs :
  sparing w0 (downloaded_urls w0)
    (download_stage getsizeof requests_get requests_head urlopen now h fuel
       articlesURLs).
Proof.
  unfold download_stage.
  apply sparing_bind; [apply sparing_read_column_set_or_empty|].
  intros _ downloadabledois _ _.
  apply sparing_bind; [apply sparing_read_column_set_or_empty|].
  intros w downloadableURLs Hw Hread.
  pose proof (read_column_set_or_empty_grows w0 w downloadableURLs Hw Hread)
    as Hsub.
  apply sparing_bind; [apply sparing_read_column_set_or_empty|].
  intros _ badURLs _ _.
  apply sparing_seq; [by apply sparing_first_pass|].
  apply sparing_bind; [apply sparing_retry_loop|].
  intros _ [lenOfOut|] _ _; [|apply sparing_ret].
  apply sparing_seq; [by apply sparing_emit|apply sparing_ret].
Qed.

End SparingStage.

(** C7, as amended.  Whatever the remote side answers, a run of the
    download stage issues no request for a URL that the downloadable
    registry holds when the run starts, and every row it adds to a
    registry file is a header row or a row about another URL: every
    download a first run has recorded there is spared by a second run,
    which adds no row about it. *)
Theorem download_stage_spares_downloaded
    getsizeof requests_get requests_head urlopen now h fuel articlesURLs w :
  ∃ evs,
    trace (download_stage getsizeof requests_get requests_head urlopen now h
             fuel articlesURLs w).2 = (trace w ++ evs)%list
    ∧ Forall (spares (downloaded_urls w)) evs
    ∧ adds (downloaded_urls w) w
        (download_stage getsizeof requests_get requests_head urlopen now h
           fuel articlesURLs w).2.
Proof.
  destruct (sparing_download_stage getsizeof requests_get requests_head
              urlopen now h w fuel articlesURLs w (grows_refl w))
    as (_ & (evs & Ht & Hf) & Ha).
  by exists evs.
Qed.

(** In the run of the example below, the first run records the URL it
    downloads and the second run asks nothing of it. *)
Example second_run_spares_url_a :
  downloaded_urls (run_stage empty_world).2 = [url_a]
  ∧ ("requests.get", url_a) ∈ calls (trace (run_stage empty_world).2).
Proof.
  split; [vm_compute; reflexivity|].
  assert (Hc : calls (trace (run_stage empty_world).2)
               = [ ("requests.head", url_a); ("requests.get", url_a);
                   ("requests.head", url_b); ("urlopen", url_b);
                   ("requests.head", url_b); ("urlopen", url_b) ])
    by (vm_compute; reflexivity).
  rewrite Hc. apply list_elem_of_further, list_elem_of_here.
Qed.

(** C7, as stated, fails.  Both runs end normally and the remote side is
    the same; the first run leaves two rows for the URL that times out in
    the bad-URL registry, the second run asks for that URL twice more and
    adds two rows. *)
Lemma second_run_adds_rows :
  let w1 := (run_stage empty_world).2 in
  let w2 := (run_stage w1).2 in
  (run_stage empty_world).1 = Ok (Some 1%nat)
  ∧ (run_stage w1).1 = Ok (Some 1%nat)
  ∧ List.length <$> csvs w1 !! bad_csv = Some 3%nat
  ∧ List.length <$> csvs w2 !! bad_csv = Some 5%nat
  ∧ csvs w2 !! bad_csv ≠ csvs w1 !! bad_csv
  ∧ ("urlopen", url_b) ∈ calls (trace w1)
  ∧ calls (drop (List.length (trace w1)) (trace w2))
    = [ ("requests.head", url_b); ("urlopen", url_b);
        ("requests.head", url_b); ("urlopen", url_b) ].
Proof.
  cbv zeta.
  split; [vm_compute; reflexivity|].
  split; [vm_compute; reflexivity|].
  split; [vm_compute; reflexivity|].
  split; [vm_compute; reflexivity|].
  split; [|split].
  - intros E. apply (f_equal (fmap (M:=option) List.length)) in E.
    vm_compute in E. discriminate.
  - assert (Hc : calls (trace (run_stage empty_world).2)
                 = [ ("requests.head", url_a); ("requests.get", url_a);
                     ("requests.head", url_b); ("urlopen", url_b);
                     ("requests.head", url_b); ("urlopen", url_b) ])
      by (vm_compute; reflexivity).
    rewrite Hc. do 3 apply list_elem_of_further. apply list_elem_of_here.
  - vm_compute. reflexivity.
Qed.

(** * Further properties *)

(** ** The classifier *)

Lemma decideExtension_with_url (d : gmap string (option string)) u :
  dict_get d "url" = Some u → ∃ ext, decideExtension d = Ok ext.
Proof.
  intros Hu. unfold decideExtension. cbv zeta. rewrite Hu.
  assert (Hpost : ∀ e, ∃ ext,
            (let* ext := Ok e in
             let* elsevier := in_opt "api.elsevier" (Some u) in
             if elsevier && (ext_is ext "plain" || ext_is ext "htm"
                             || ext_is ext "html")
             then Ok (Some "txt")
             else if ext_is ext "plain" || ext_is ext "htm"
             then Ok (Some "html")
             else if ext_is ext "msword" then Ok (Some "doc")
             else if ext_is ext "octet-stream" then Ok (Some "pdf")
             else Ok ext) = Ok ext).
  { intros e. simpl.
    repeat (match goal with |- context [if ?b then _ else _] =>
              destruct b end; eauto). }
  destruct (truthy (dict_get d "contentType")).
  { destruct (subtype_total (default "" (dict_get d "contentType")))
      as [e ->]. apply Hpost. }
  destruct (truthy (dict_get d "crContentType") && _).
  { destruct (subtype_total (default "" (dict_get d "crContentType")))
      as [e ->]. apply Hpost. }
  destruct (truthy (dict_get d "contentDisposition")) eqn:Ecd.
  { destruct (dict_get d "contentDisposition") as [s|]; [|discriminate].
    destruct (getExtension_truthy s) as (o & -> & _). apply Hpost. }
  destruct (getExtension_truthy u) as (o & Ho & _).
  destruct (Hpost (if truthy o then o else None)) as [ext Hext].
  exists ext. rewrite <- Hext. f_equal.
  rewrite Ho. cbn [bind]. by destruct (truthy o).
Qed.

Lemma decideExtension_without_url (d : gmap string (option string)) :
  dict_get d "url" = None →
  ∃ e, decideExtension d = Raise e ∧ exn_cls e = TypeError.
Proof.
  intros Hu. unfold decideExtension. cbv zeta. rewrite Hu.
  destruct (truthy (dict_get d "contentType")).
  { destruct (subtype_total (default "" (dict_get d "contentType")))
      as [e ->]. simpl. eauto. }
  destruct (truthy (dict_get d "crContentType") && _).
  { destruct (subtype_total (default "" (dict_get d "crContentType")))
      as [e ->]. simpl. eauto. }
  destruct (truthy (dict_get d "contentDisposition")) eqn:Ecd.
  { destruct (dict_get d "contentDisposition") as [s|]; [|discriminate].
    destruct (getExtension_truthy s) as (o & -> & _). simpl. eauto. }
  simpl. eauto.
Qed.

(** X1.  [decideExtension] raises exactly when the dictionary has no URL
    (the key is missing or holds [None]), and the error is then a
    [TypeError]; with a URL it returns, whatever the other entries. *)
Theorem decideExtension_raises_iff_no_url (d : gmap string (option string)) :
  match dict_get d "url" with
  | None => ∃ e, decideExtension d = Raise e ∧ exn_cls e = TypeError
  | Some u => ∃ ext, decideExtension d = Ok ext
  end.
Proof.
  destruct (dict_get d "url") as [u|] eqn:Hu.
  - by apply (decideExtension_with_url d u).
  - by apply decideExtension_without_url.
Qed.

(** X2.  An extension returned by [decideExtension] is never one of the
    raw subtypes [plain], [htm], [msword], [octet-stream]: these are always
    rewritten. *)
Theorem decideExtension_normalised (d : gmap string (option string)) ext :
  decideExtension d = Ok (Some ext) → ext ∉ raw_extensions.
Proof.
  unfold decideExtension. cbv zeta.
  destruct (if truthy (dict_get d "contentType") then _ else _) as [e0|e];
    [|discriminate].
  cbn [bind]. destruct (in_opt "api.elsevier" (dict_get d "url")) as [b|e];
    [|discriminate].
  cbn [bind]. unfold ext_is, raw_extensions.
  destruct (b && _).
  { intros [= <-]. rewrite !elem_of_cons, elem_of_nil.
    intros [H|[H|[H|[H|[]]]]]; discriminate. }
  destruct (bool_decide (e0 = Some "plain")) eqn:E1; cbn [orb].
  { intros [= <-]. rewrite !elem_of_cons, elem_of_nil.
    intros [H|[H|[H|[H|[]]]]]; discriminate. }
  destruct (bool_decide (e0 = Some "htm")) eqn:E2.
  { intros [= <-]. rewrite !elem_of_cons, elem_of_nil.
    intros [H|[H|[H|[H|[]]]]]; discriminate. }
  destruct (bool_decide (e0 = Some "msword")) eqn:E3.
  { intros [= <-]. rewrite !elem_of_cons, elem_of_nil.
    intros [H|[H|[H|[H|[]]]]]; discriminate. }
  destruct (bool_decide (e0 = Some "octet-stream")) eqn:E4.
  { intros [= <-]. rewrite !elem_of_cons, elem_of_nil.
    intros [H|[H|[H|[H|[]]]]]; discriminate. }
  apply bool_decide_eq_false in E1, E2, E3, E4.
  intros [= ->]. rewrite !elem_of_cons, elem_of_nil.
  intros [->|[->|[->|[->|[]]]]]; congruence.
Qed.

Lemma decideExtension_normalised_witness : "html" ∉ raw_extensions.
Proof.
  apply (decideExtension_normalised
           {[ "contentType" := Some "text/plain; charset=utf-8";
              "url" := Some "http://host/page" ]}).
  vm_compute. reflexivity.
Defined.

(** ** File extensions *)

Lemma append_cons c (a b : string) : String c a ++ b = String c (a ++ b).
Proof. reflexivity. Qed.

Lemma append_nil_l (b : string) : "" ++ b = b.
Proof. reflexivity. Qed.

Lemma take_letters_spec n s g r :
  take_letters n s = Some (g, r) →
  s = g ++ r ∧ String.length g = n ∧ all_letters g = true.
Proof.
  revert s g r. induction n as [|n IH]; intros s g r; cbn [take_letters].
  - intros [= <- <-]. done.
  - destruct s as [|c s]; [discriminate|].
    destruct (is_letter c) eqn:Ec; [|discriminate].
    destruct (take_letters n s) as [[l r']|] eqn:Et; [|discriminate].
    intros [= <- <-]. destruct (IH _ _ _ Et) as (-> & <- & Hl).
    rewrite append_cons. cbn [String.length all_letters]. by rewrite Ec, Hl.
Qed.

Lemma ext_letters_shape n s g r :
  (3 ≤ n ≤ 10)%nat → ext_letters n s = Some (g, r) → extension_shape g.
Proof.
  induction n as [|n IH]; [lia|]. intros Hn. cbn [ext_letters].
  assert (Hrec : (if (3 <=? n)%nat then ext_letters n s else None)
                 = Some (g, r) → extension_shape g).
  { destruct (3 <=? n)%nat eqn:E3; [|discriminate].
    apply Nat.leb_le in E3. apply IH. lia. }
  destruct (take_letters (S n) s) as [[g0 r0]|] eqn:Et; [|exact Hrec].
  destruct (ext_quote_eol g0 r0) as [[g1 r1]|] eqn:Eq; [|exact Hrec].
  intros [= <- <-]. apply ext_quote_eol_group in Eq as ->.
  apply take_letters_spec in Et as (_ & Hlen & Hl).
  split; [done|lia].
Qed.

Lemma ext_tail_shape s g r : ext_tail s = Some (g, r) → extension_shape g.
Proof.
  unfold ext_tail. destruct s as [|c s]; [discriminate|].
  destruct (Ascii.eqb_spec c "."%char) as [->|Hc].
  - apply ext_letters_shape. lia.
  - destruct c as [[] [] [] [] [] [] [] []]; try discriminate.
    contradiction.
Qed.

Lemma ext_dotplus_shape s g r : ext_dotplus s = Some (g, r) → extension_shape g.
Proof.
  induction s as [|c s IH]; cbn [ext_dotplus].
  - apply ext_tail_shape.
  - destruct (is_newline c); [apply ext_tail_shape|].
    destruct (ext_dotplus s) as [[g0 r0]|].
    + intros [= <- <-]. by apply IH.
    + apply ext_tail_shape.
Qed.

Lemma findall_ext_shape fuel s :
  Forall extension_shape (findall ext_match fuel s).
Proof.
  revert s. induction fuel as [|fuel IH]; intros s; cbn [findall].
  - constructor.
  - destruct (ext_match s) as [[g r]|] eqn:E.
    + constructor; [|apply IH]. unfold ext_match in E.
      destruct s as [|c s]; [discriminate|].
      destruct (is_newline c); [discriminate|].
      by eapply ext_dotplus_shape.
    + destruct s; [constructor|apply IH].
Qed.

(** X3.  An extension found by [getExtension] is made of 3 to 10 letters
    of [a-zA-Z]: no dot, no slash, no digit. *)
Theorem getExtension_shape s e :
  getExtension (Some s) = Ok (Some e) → extension_shape e.
Proof.
  unfold getExtension.
  destruct (last (re_findall ext_match s)) as [e'|] eqn:E; [|discriminate].
  intros [= <-]. apply last_Some_elem_of in E.
  pose proof (findall_ext_shape (S (String.length s)) s) as HF.
  rewrite Forall_forall in HF. by apply HF.
Qed.

Lemma getExtension_shape_witness : extension_shape "html".
Proof.
  apply (getExtension_shape "http://host/dir/page.html").
  vm_compute. reflexivity.
Defined.

Lemma letter_not_special c :
  is_letter c = true →
  is_newline c = false ∧ Ascii.eqb c dquote = false ∧ c ≠ "."%char.
Proof.
  destruct c as [[] [] [] [] [] [] [] []]; vm_compute; intros H;
    try discriminate; repeat split; discriminate.
Qed.

Lemma take_letters_exact l q :
  all_letters l = true → take_letters (String.length l) (l ++ q) = Some (l, q).
Proof.
  induction l as [|c l IH];
    rewrite ?append_cons, ?append_nil_l;
    cbn [all_letters String.length take_letters]; [done|].
  intros [Hc Hl]%andb_true_iff. by rewrite Hc, IH.
Qed.

Lemma take_letters_short n l q :
  all_letters l = true → closing_quote q → (String.length l < n)%nat →
  take_letters n (l ++ q) = None.
Proof.
  revert n. induction l as [|c l IH]; intros n Hl Hq Hn.
  - destruct n as [|n]; [simpl in Hn; lia|].
    by destruct Hq as [-> | ->].
  - destruct n as [|n]; [simpl in Hn; lia|].
    rewrite append_cons.
    cbn [all_letters String.length take_letters] in *.
    apply andb_true_iff in Hl as [Hc Hl]. rewrite Hc.
    rewrite IH; [done|done|done|lia].
Qed.

Lemma ext_quote_eol_closing g q :
  closing_quote q → ext_quote_eol g q = Some (g, "").
Proof. by intros [-> | ->]. Qed.

Lemma ext_letters_exact n l q :
  all_letters l = true → closing_quote q →
  (3 ≤ String.length l ≤ n)%nat →
  ext_letters n (l ++ q) = Some (l, "").
Proof.
  intros Hl Hq. induction n as [|n IH]; intros Hn; [lia|].
  cbn [ext_letters].
  destruct (decide (String.length l = S n)) as [E|E].
  - rewrite <- E, take_letters_exact by done.
    by rewrite ext_quote_eol_closing.
  - rewrite take_letters_short by (done || lia).
    rewrite (proj2 (Nat.leb_le 3 n)) by lia. apply IH. lia.
Qed.

Lemma ext_dotplus_letters l q :
  all_letters l = true → closing_quote q → ext_dotplus (l ++ q) = None.
Proof.
  intros Hl Hq. induction l as [|c l IH]; rewrite ?append_cons, ?append_nil_l.
  - by destruct Hq as [-> | ->].
  - cbn [all_letters] in Hl. apply andb_true_iff in Hl as [Hc Hl].
    destruct (letter_not_special c Hc) as (Hn & _ & Hd).
    cbn [ext_dotplus]. rewrite Hn, IH by done.
    unfold ext_tail.
    destruct c as [[] [] [] [] [] [] [] []]; try reflexivity.
    by destruct Hd.
Qed.

Lemma ext_dotplus_suffix b l q :
  no_newline b = true → all_letters l = true → closing_quote q →
  (3 ≤ String.length l ≤ 10)%nat →
  ext_dotplus (b ++ String "." (l ++ q)) = Some (l, "").
Proof.
  intros Hb Hl Hq Hlen.
  induction b as [|c b IH]; rewrite ?append_cons, ?append_nil_l;
    cbn [ext_dotplus].
  - change (is_newline ".") with false. cbv iota.
    rewrite ext_dotplus_letters by done.
    cbn [ext_tail]. by apply ext_letters_exact.
  - cbn [no_newline] in Hb. apply andb_true_iff in Hb as [Hc Hb].
    apply negb_true_iff in Hc. rewrite Hc. by rewrite IH.
Qed.

(** X4.  A path or URL made of a non-empty part without line break, a dot
    and 3 to 10 letters, with or without a closing double quote, has these
    letters as its extension. *)
Theorem getExtension_suffix base ext q :
  base ≠ "" → no_newline base = true →
  extension_shape ext → closing_quote q →
  getExtension (Some (base ++ String "." (ext ++ q))) = Ok (Some ext).
Proof.
  intros Hne Hb [Hl Hlen] Hq. unfold getExtension, re_findall.
  rewrite (findall_single _ _ ext); [reflexivity| |reflexivity].
  destruct base as [|c b]; [done|]. cbn [no_newline] in Hb.
  apply andb_true_iff in Hb as [Hc Hb]. apply negb_true_iff in Hc.
  rewrite append_cons. cbn [ext_match]. rewrite Hc.
  by apply ext_dotplus_suffix.
Qed.

Lemma getExtension_suffix_witness :
  getExtension (Some ("attachment; filename=" ++ quoted "x.doc"))
  = Ok (Some "doc").
Proof.
  apply (getExtension_suffix ("attachment; filename=" ++ String dquote "x")
           "doc" (String dquote "")).
  - discriminate.
  - reflexivity.
  - split; [reflexivity|simpl; lia].
  - by right.
Defined.

(** ** Pieces of a split string *)

Lemma append_nil_r (a : string) : a ++ "" = a.
Proof. induction a as [|c a IH]; [done|]. by rewrite append_cons, IH. Qed.

Lemma append_assoc (a b c : string) : (a ++ b) ++ c = a ++ (b ++ c).
Proof.
  induction a as [|x a IH]; [done|]. by rewrite !append_cons, IH.
Qed.

Lemma rev_app_append a b c :
  String.rev_app a b ++ c = String.rev_app a (b ++ c).
Proof.
  revert b. induction a as [|x a IH]; intros b; [done|].
  cbn [String.rev_app]. by rewrite IH, append_cons.
Qed.

Lemma rev_cons c cur : String.rev (String c cur) = String.rev cur ++ String c "".
Proof.
  unfold String.rev. cbn [String.rev_app].
  by rewrite rev_app_append, append_nil_l.
Qed.

Lemma rev_cons_append c cur s :
  String.rev (String c cur) ++ s = String.rev cur ++ String c s.
Proof. by rewrite rev_cons, append_assoc, append_cons, append_nil_l. Qed.

Lemma prefix_cons a s1 b s2 :
  String.prefix (String a s1) (String b s2)
  = bool_decide (a = b) && String.prefix s1 s2.
Proof.
  cbn [String.prefix]. destruct (ascii_dec a b) as [->|Hne].
  - by rewrite bool_decide_eq_true_2.
  - by rewrite bool_decide_eq_false_2.
Qed.

Lemma prefix_nil_r sep : sep ≠ "" → String.prefix sep "" = false.
Proof. by destruct sep. Qed.

Lemma prefix_append a b : String.prefix a (a ++ b) = true.
Proof.
  induction a as [|c a IH]; [by destruct b|].
  rewrite append_cons, prefix_cons, IH. by rewrite bool_decide_eq_true_2.
Qed.

Lemma prefix_append_r sep a s :
  String.prefix sep a = true → String.prefix sep (a ++ s) = true.
Proof.
  revert a. induction sep as [|x sep IH]; intros a.
  - intros _. by destruct (a ++ s).
  - destruct a as [|c a]; [discriminate|].
    rewrite append_cons, !prefix_cons.
    intros [-> H]%andb_true_iff. by rewrite IH.
Qed.

Lemma contains_nil sep : sep ≠ "" → contains sep "" = false.
Proof. intros H. cbn [contains]. by rewrite prefix_nil_r. Qed.

Lemma contains_cons sep c s :
  contains sep (String c s) = String.prefix sep (String c s) || contains sep s.
Proof. reflexivity. Qed.

Lemma occurs_from_snoc sep a c s :
  occurs_from sep a (String c s) = false →
  String.prefix sep (String c s) = false →
  occurs_from sep (a ++ String c "") s = false.
Proof.
  intros Ha Hp. induction a as [|x a IH].
  - rewrite append_nil_l. cbn [occurs_from].
    by rewrite append_cons, append_nil_l, Hp.
  - rewrite append_cons. cbn [occurs_from] in *.
    apply orb_false_iff in Ha as [Hx Ha].
    rewrite append_cons in Hx.
    rewrite append_cons, append_assoc, append_cons, append_nil_l, Hx.
    by apply IH.
Qed.

Lemma occurs_from_contains sep a s :
  sep ≠ "" → occurs_from sep a s = false → contains sep a = false.
Proof.
  intros Hsep. induction a as [|c a IH]; [intros _; by apply contains_nil|].
  cbn [occurs_from]. intros [Hp Ha]%orb_false_iff.
  rewrite contains_cons, IH by done.
  destruct (String.prefix sep (String c a)) eqn:E; [|done].
  by rewrite (prefix_append_r _ _ s E) in Hp.
Qed.

Lemma contains_append_l sep a s :
  contains sep (a ++ s) = false → sep ≠ "" → contains sep a = false.
Proof.
  intros H Hsep. induction a as [|c a IH]; [by apply contains_nil|].
  rewrite append_cons, contains_cons in H.
  apply orb_false_iff in H as [Hp Ha].
  rewrite contains_cons, IH by done.
  destruct (String.prefix sep (String c a)) eqn:E; [|done].
  by rewrite <- append_cons, (prefix_append_r _ _ s E) in Hp.
Qed.

(** A string without the separator is its own single piece. *)
Lemma split_go_no_sep sep cur s :
  contains sep s = false → split_go sep 0 cur s = [String.rev cur ++ s].
Proof.
  revert cur. induction s as [|c s IH]; intros cur H; cbn [split_go].
  - by rewrite append_nil_r.
  - rewrite contains_cons in H. apply orb_false_iff in H as [Hp Hs].
    rewrite Hp, IH by done. by rewrite rev_cons_append.
Qed.

(** The last piece holds no separator. *)
Lemma split_go_last_free sep skip cur s :
  sep ≠ "" →
  (skip = 0%nat → occurs_from sep (String.rev cur) s = false) →
  (skip ≠ 0%nat → cur = "") →
  ∃ p, last (split_go sep skip cur s) = Some p ∧ contains sep p = false.
Proof.
  intros Hsep. revert skip cur.
  induction s as [|c s IH]; intros skip cur H0 Hcur; cbn [split_go].
  - exists (String.rev cur). split; [done|].
    destruct skip as [|k].
    + apply (occurs_from_contains sep _ ""); [done|by apply H0].
    + rewrite Hcur by done. by apply contains_nil.
  - destruct skip as [|k].
    + destruct (String.prefix sep (String c s)) eqn:Hp.
      * destruct (IH (String.length sep - 1)%nat "") as (p & Hl & Hc);
          [done|done|].
        exists p. by rewrite last_cons, Hl.
      * apply IH; [|done]. intros _. rewrite rev_cons.
        apply occurs_from_snoc; [by apply H0|done].
    + rewrite Hcur by done. apply IH; done.
Qed.

(** The first piece is the head of the string and holds no separator. *)
Lemma split_go_first_free sep cur s p rest :
  sep ≠ "" →
  occurs_from sep (String.rev cur) s = false →
  split_go sep 0 cur s = p :: rest →
  contains sep p = false ∧ ∃ t, String.rev cur ++ s = p ++ t.
Proof.
  intros Hsep. revert cur.
  induction s as [|c s IH]; intros cur H0; cbn [split_go].
  - intros [= <- <-]. split; [by apply (occurs_from_contains sep _ "")|].
    by exists "".
  - destruct (String.prefix sep (String c s)) eqn:Hp.
    + intros [= <- <-].
      split; [by apply (occurs_from_contains sep _ (String c s))|].
      by exists (String c s).
    + intros Hs. rewrite <- rev_cons_append. apply IH; [|done].
      rewrite rev_cons. by apply occurs_from_snoc.
Qed.

(** ** extractDOI *)

Lemma org_not_empty : "org/" ≠ "".
Proof. discriminate. Qed.

(** X5.  The result of [extractDOI] never holds [org/], and a string
    without [org/] is returned as it is; hence [extractDOI] applied twice
    is [extractDOI] applied once. *)
Theorem extractDOI_idempotent s :
  contains "org/" (extractDOI s) = false
  ∧ (contains "org/" s = false → extractDOI s = s)
  ∧ extractDOI (extractDOI s) = extractDOI s.
Proof.
  assert (Hid : ∀ t, contains "org/" t = false → extractDOI t = t).
  { intros t Ht. unfold extractDOI, split.
    by rewrite split_go_no_sep, append_nil_l. }
  assert (Hfree : contains "org/" (extractDOI s) = false).
  { destruct (split_go_last_free "org/" 0 "" s org_not_empty) as (p & Hl & Hc);
      [done|done|].
    unfold extractDOI, split. by rewrite Hl. }
  auto.
Qed.

Lemma split_go_skip sep cur s1 s2 :
  split_go sep (String.length s1) cur (s1 ++ s2) = split_go sep 0 cur s2.
Proof.
  induction s1 as [|c s1 IH]; [done|].
  rewrite append_cons. cbn [String.length split_go]. apply IH.
Qed.

Lemma org_prefix_length c p d :
  String.prefix "org/" (String c (p ++ "org/" ++ d)) = true →
  (3 ≤ String.length p)%nat.
Proof.
  destruct p as [|c1 [|c2 [|c3 p]]]; cbn [String.length]; try lia;
    rewrite ?append_cons, ?append_nil_l, !prefix_cons;
    intros H; repeat (apply andb_true_iff in H as [?%bool_decide_eq_true H]);
    discriminate.
Qed.

Lemma split_go_org_tail skip cur pre d :
  contains "org/" d = false →
  (skip ≤ String.length pre)%nat →
  last (split_go "org/" skip cur (pre ++ "org/" ++ d)) = Some d.
Proof.
  intros Hd. revert skip cur.
  induction pre as [|c pre IH]; intros skip cur Hskip.
  - cbn [String.length] in Hskip. replace skip with 0%nat by lia.
    rewrite append_nil_l.
    change ("org/" ++ d) with (String "o" ("rg/" ++ d)).
    cbn [split_go].
    change (String "o" ("rg/" ++ d)) with ("org/" ++ d).
    rewrite prefix_append.
    change (String.length "org/" - 1)%nat with (String.length "rg/").
    rewrite split_go_skip, split_go_no_sep by done. reflexivity.
  - rewrite append_cons. cbn [split_go]. cbn [String.length] in Hskip.
    destruct skip as [|k]; [|apply IH; lia].
    destruct (String.prefix "org/" _) eqn:Hp.
    + apply org_prefix_length in Hp.
      rewrite last_cons, IH; [done|]. simpl. lia.
    + apply IH. lia.
Qed.

(** X6.  [extractDOI] drops everything up to and including the last
    [org/]: a DOI without [org/] put behind a resolver address that ends in
    [org/] is returned alone. *)
Theorem extractDOI_strips_resolver pre d :
  contains "org/" d = false → extractDOI (pre ++ "org/" ++ d) = d.
Proof.
  intros Hd. unfold extractDOI, split.
  rewrite split_go_org_tail; [done|done|lia].
Qed.

Lemma extractDOI_strips_resolver_witness :
  extractDOI "https://doi.org/10.1017/S0033291700027185"
  = "10.1017/S0033291700027185".
Proof.
  apply (extractDOI_strips_resolver "https://doi." "10.1017/S0033291700027185").
  reflexivity.
Defined.

(** X7.  The subtype taken from a content type, the text after its last
    slash and before the first semicolon that follows, holds neither a
    slash nor a semicolon. *)
Theorem subtype_free x e :
  subtype x = Ok e → contains "/" e = false ∧ contains ";" e = false.
Proof.
  unfold subtype, index_last, split.
  destruct (split_go_last_free "/" 0 "" x) as (a & Hl & Ha);
    [discriminate|done|done|].
  rewrite Hl. cbn [bind]. unfold index_first.
  destruct (split_go ";" 0 "" a) as [|p rest] eqn:Es; [discriminate|].
  intros [= <-].
  destruct (split_go_first_free ";" "" a p rest) as (Hp & t & Ht);
    [discriminate|done|done|].
  split; [|done]. rewrite append_nil_l in Ht. rewrite Ht in Ha.
  by apply (contains_append_l "/" p t).
Qed.

Lemma subtype_free_witness :
  contains "/" "html" = false ∧ contains ";" "html" = false.
Proof.
  apply (subtype_free "text/html; charset=utf-8"). reflexivity.
Defined.

(** ** File names and rewritten URLs *)

Lemma has_char_append c a b :
  has_char c (a ++ b) = has_char c a || has_char c b.
Proof.
  induction a as [|x a IH]; [done|].
  rewrite append_cons. cbn [has_char]. by rewrite IH, orb_assoc.
Qed.

Lemma replacement_values_allowed c kv :
  c ∈ notAllowedChars → kv ∈ notAllowedCharReplacements →
  has_char c kv.2 = false ∧ String.length kv.2 = 1%nat.
Proof.
  unfold notAllowedChars, notAllowedCharReplacements.
  cbn [fmap list_fmap fst snd].
  rewrite !elem_of_cons, !elem_of_nil.
  intros Hc Hkv.
  repeat (destruct Hc as [->|Hc]); try done;
    repeat (destruct Hkv as [->|Hkv]); try done; split; reflexivity.
Qed.

(** X8.  The name [multireplace] builds from a DOI with the table of
    [createFile] has the length of the DOI and holds none of the nine
    replaced characters, so no path separator. *)
Theorem multireplace_allowed doi c :
  c ∈ notAllowedChars →
  has_char c (multireplace doi notAllowedCharReplacements) = false
  ∧ String.length (multireplace doi notAllowedCharReplacements)
    = String.length doi.
Proof.
  intros Hc. induction doi as [|x doi [IH1 IH2]]; [done|].
  cbn [multireplace].
  destruct (List.find _ notAllowedCharReplacements) as [kv|] eqn:Ef.
  - apply find_some in Ef as [Hin _]. apply list_elem_of_In in Hin.
    destruct (replacement_values_allowed c kv Hc Hin) as [Hv Hl].
    rewrite has_char_append, Hv, IH1, string_app_length, Hl, IH2. done.
  - cbn [has_char String.length]. rewrite IH1, IH2. split; [|done].
    rewrite orb_false_r.
    unfold notAllowedChars in Hc. apply list_elem_of_fmap in Hc as (kv & -> & Hin).
    apply list_elem_of_In in Hin.
    apply (find_none _ _ Ef) in Hin. exact Hin.
Qed.

Lemma multireplace_allowed_witness :
  has_char "/" (multireplace "10.1017/S0033:29<1>" notAllowedCharReplacements)
  = false
  ∧ String.length (multireplace "10.1017/S0033:29<1>" notAllowedCharReplacements)
    = String.length "10.1017/S0033:29<1>".
Proof.
  apply (multireplace_allowed "10.1017/S0033:29<1>" "/"%char).
  unfold notAllowedChars. cbn. by left.
Defined.

Lemma replace_slash_free s : has_char "/" (replace_slash s) = false.
Proof.
  induction s as [|c s IH]; [done|]. cbn [replace_slash].
  destruct (Ascii.eqb c "/") eqn:E.
  - by rewrite has_char_append, IH.
  - cbn [has_char]. rewrite IH, orb_false_r.
    rewrite Ascii.eqb_sym. exact E.
Qed.

(** X9.  [fixSpringerLinkURL] either raises [IndexError], when the URL has
    no [pdf/] followed by a character, or returns the Springer address
    followed by a tail without slash: the DOI is one path segment. *)
Theorem fixSpringerLinkURL_one_segment url :
  match fixSpringerLinkURL url with
  | Ok u => ∃ t, u = "https://link.springer.com/content/pdf/" ++ t
                 ∧ has_char "/" t = false
  | Raise e => e = mkExn IndexError "list index out of range"
               ∧ re_findall springer_match url = []
  end.
Proof.
  unfold fixSpringerLinkURL, index_last.
  destruct (last (re_findall springer_match url)) as [doi|] eqn:E; cbn [bind].
  - exists (replace_slash doi). split; [done|apply replace_slash_free].
  - split; [done|]. by apply last_None.
Qed.

(** ** Registries read back *)

Lemma addToDict_comm (d : gmap string (gset string)) k1 v1 k2 v2 :
  addToDict (addToDict d k1 v1) k2 v2 = addToDict (addToDict d k2 v2) k1 v1.
Proof.
  unfold addToDict. destruct (decide (k1 = k2)) as [->|Hne].
  - rewrite !lookup_insert_eq, !insert_insert_eq. cbn [default].
    assert (E : ∀ A : gset string, A ∪ {[v1]} ∪ {[v2]} = A ∪ {[v2]} ∪ {[v1]}).
    { intros A. rewrite <- !(assoc_L (∪)). by rewrite (comm_L (∪) {[v1]}). }
    unfold id. by rewrite E.
  - rewrite !lookup_insert_ne by done. by apply insert_insert_ne.
Qed.

(** X10.  The mapping [csvTodict] reads does not depend on the order of
    the rows of the file, whether the reading succeeds or a short row
    makes it raise. *)
Theorem csvTodict_rows_permutation rows rows' d :
  Permutation rows rows' → csvTodict_rows rows d = csvTodict_rows rows' d.
Proof.
  intros HP. revert d. induction HP as [|x l l' HP IH|x y l|l l' l'' _ IH1 _ IH2];
    intros d.
  - reflexivity.
  - cbn [csvTodict_rows]. destruct (row_get x 0); [|done].
    destruct (row_get x 1); [|done]. cbn [bind]. apply IH.
  - cbn [csvTodict_rows]. unfold row_get.
    destruct (x !! 0%nat), (x !! 1%nat), (y !! 0%nat), (y !! 1%nat);
      cbn [bind]; try reflexivity.
    by rewrite addToDict_comm.
  - by rewrite IH1.
Qed.

Lemma csvTodict_rows_permutation_witness :
  csvTodict_rows [["b"; "2"]; ["a"; "1"]; ["a"; "3"]] ∅
  = csvTodict_rows [["a"; "3"]; ["a"; "1"]; ["b"; "2"]] ∅.
Proof.
  apply csvTodict_rows_permutation.
  apply (Permutation_trans (l' := [["a"; "1"]; ["b"; "2"]; ["a"; "3"]])).
  - apply perm_swap.
  - apply (Permutation_trans (l' := [["a"; "1"]; ["a"; "3"]; ["b"; "2"]])).
    + apply perm_skip, perm_swap.
    + apply perm_swap.
Defined.







(** A carriage return written in a cell is read back as a line feed, and
    a carriage return with its line feed as one line feed. *)
Example carriage_return_read_as_line_feed :
  (csvTodict "pmcids"
     (writecsvRow "pmcids"
        [String CR "29"; "PMC" ++ String CR (String LF "7")]
        (Some ["PMID"; "PMCID"]) empty_world).2).1
  = Ok (addToDict (addToDict ∅ "PMID" "PMCID")
          (String LF "29") ("PMC" ++ String LF "7")).
Proof. reflexivity. Qed.






(** ** removeKey *)

Lemma delete_items_lookup {K V} `{Countable K} (d : gmap K V) items :
  match delete_items d items with
  | Ok r =>
      (Unhashable ∉ items)
      ∧ ∀ k, r !! k = if decide (Hashable k ∈ items) then None else d !! k
  | Raise e => Unhashable ∈ items ∧ exn_cls e = TypeError
  end.
Proof.
  revert d. induction items as [|[key|] items IH]; intros d;
    cbn [delete_items].
  - split; [apply not_elem_of_nil|]. intros k.
    rewrite decide_False; [done|]. apply not_elem_of_nil.
  - specialize (IH (delete key d)).
    destruct (delete_items (delete key d) items) as [r|e].
    + destruct IH as [Hno Hr]. split.
      { intros [E|Hin]%elem_of_cons; [discriminate|contradiction]. }
      intros k. rewrite Hr.
      destruct (decide (Hashable k ∈ items)) as [Hin|Hnin].
      * rewrite decide_True; [done|]. by right.
      * destruct (decide (k = key)) as [->|Hne].
        -- rewrite lookup_delete_eq, decide_True; [done|]. by left.
        -- rewrite lookup_delete_ne by done.
           rewrite decide_False; [done|].
           intros [E|Hin]%elem_of_cons; [|contradiction].
           by injection E.
    + destruct IH as [Hin He]. split; [by right|done].
  - split; [by left|done].
Qed.

(** X14.  Given a list of items, [removeKey] returns exactly when every
    item is hashable, whether or not the keys are present: each item is
    then absent from the copy it returns and every other key keeps its
    value.  One item that is not hashable makes it raise [TypeError], the
    handler of the first [TypeError] raising it again.  Given a string,
    the items are its characters, so the string itself stays a key unless
    it is one character long. *)
Theorem removeKey_lookup {K V} `{Countable K} (d : gmap K V) items :
  match removeKey d (Iterable items) with
  | Ok r =>
      (Unhashable ∉ items)
      ∧ ∀ k, r !! k = if decide (Hashable k ∈ items) then None else d !! k
  | Raise e => Unhashable ∈ items ∧ exn_cls e = TypeError
  end.
Proof.
  unfold removeKey. pose proof (delete_items_lookup d items) as Hd.
  destruct (delete_items d items) as [r|e]; [exact Hd|].
  destruct Hd as [Hin He]. rewrite He. cbn. done.
Qed.

Example removeKey_string_argument :
  removeKey ({[ "ab" := 1; "a" := 2; "c" := 3 ]} : gmap string nat)
    (Iterable (Hashable <$> chars "ab"))
  = Ok {[ "ab" := 1; "c" := 3 ]}.
Proof. vm_compute. reflexivity. Qed.

Example removeKey_unhashable_item :
  removeKey ({[ "a" := 1 ]} : gmap string nat) (Iterable [Unhashable])
  = Raise (mkExn TypeError "unhashable type: 'list'").
Proof. reflexivity. Qed.

(** ** Rows written by pmidTopmcid *)

Lemma rows_after_app old a b :
  rows_after (rows_after old a) b = rows_after old (a ++ b).
Proof.
  destruct a as [|x a]; [done|]. destruct b as [|y b].
  - by rewrite app_nil_r.
  - cbn [rows_after app default from_option id]. by rewrite <- app_assoc.
Qed.

Lemma writecsvRow_rows_after f row w :
  ∃ w', writecsvRow f row (Some ["PMID"; "PMCID"]) w = (Ok (), w')
        ∧ csvs w' !! (f ++ ".csv") = rows_after (csvs w !! (f ++ ".csv")) [row].
Proof.
  destruct (csvs w !! (f ++ ".csv")) as [rows|] eqn:Hf.
  - rewrite (writecsvRow_existing _ _ _ _ rows) by done.
    eexists. split; [done|]. cbn [csvs]. by rewrite lookup_insert_eq.
  - unfold writecsvRow, checkHeaders, bindM, isfile. rewrite Hf.
    rewrite (bool_decide_eq_false_2 (is_Some None)) by (intros [? ?]; done).
    rewrite (bool_decide_eq_true_2 (_ ≠ [])) by done.
    cbn [negb andb]. unfold append_rows. cbn [csvs blobs trace].
    rewrite Hf, lookup_insert_eq, insert_insert_eq.
    eexists. split; [done|]. cbn [csvs]. by rewrite lookup_insert_eq.
Qed.

Lemma pmid_step_ok elink f pmid id w :
  pmcid_for elink pmid = Ok id →
  ∃ w', (let! LinkSetDb := call "Entrez.elink" pmid (elink pmid) in
         let! pmcid := lift (pmcid_of_LinkSetDb LinkSetDb) in
         writecsvRow f [pmid; pmcid] (Some ["PMID"; "PMCID"])) w = (Ok (), w')
        ∧ csvs w' !! (f ++ ".csv")
          = rows_after (csvs w !! (f ++ ".csv")) [[pmid; id]].
Proof.
  unfold pmcid_for. intros Hid. unfold bindM at 1. rewrite call_run.
  destruct (elink pmid) as [ls|e]; [|discriminate]. cbn [bind] in Hid.
  unfold bindM, lift. rewrite Hid.
  destruct (writecsvRow_rows_after f [pmid; id]
              (mkWorld (csvs w) (blobs w)
                 (trace w ++ [ECall "Entrez.elink" pmid])%list))
    as (w' & Hw & Hrows).
  exists w'. by rewrite Hw.
Qed.

Lemma pmid_step_raise elink f pmid e w :
  pmcid_for elink pmid = Raise e →
  ∃ w', (let! LinkSetDb := call "Entrez.elink" pmid (elink pmid) in
         let! pmcid := lift (pmcid_of_LinkSetDb LinkSetDb) in
         writecsvRow f [pmid; pmcid] (Some ["PMID"; "PMCID"])) w
        = (Raise e, w')
        ∧ csvs w' = csvs w.
Proof.
  unfold pmcid_for. intros Hid. unfold bindM at 1. rewrite call_run.
  destruct (elink pmid) as [ls|e']; cbn [bind] in Hid.
  - unfold bindM, lift. rewrite Hid. by eexists.
  - injection Hid as ->. by eexists.
Qed.

Lemma pmid_loop_prefix elink f done ids tail w :
  Forall2 (λ pmid id, pmcid_for elink pmid = Ok id) done ids →
  ∃ w',
    forM (done ++ tail) (λ pmid,
      let! LinkSetDb := call "Entrez.elink" pmid (elink pmid) in
      let! pmcid := lift (pmcid_of_LinkSetDb LinkSetDb) in
      writecsvRow f [pmid; pmcid] (Some ["PMID"; "PMCID"])) w
    = forM tail (λ pmid,
        let! LinkSetDb := call "Entrez.elink" pmid (elink pmid) in
        let! pmcid := lift (pmcid_of_LinkSetDb LinkSetDb) in
        writecsvRow f [pmid; pmcid] (Some ["PMID"; "PMCID"])) w'
    ∧ csvs w' !! (f ++ ".csv")
      = rows_after (csvs w !! (f ++ ".csv")) (pmcid_rows done ids).
Proof.
  intros HF. revert w.
  induction HF as [|pmid id done ids Hid _ IH]; intros w.
  - by exists w.
  - destruct (pmid_step_ok elink f pmid id w Hid) as (w1 & Hstep & Hrows).
    destruct (IH w1) as (w' & Hloop & Hrows').
    exists w'. split.
    + cbn [app forM]. unfold bindM at 1. rewrite Hstep. exact Hloop.
    + rewrite Hrows', Hrows, rows_after_app. reflexivity.
Qed.

(** X15.  [pmidTopmcid] writes as it goes: when the link service or its
    answer fails at a PMID, the error is raised and the registry already
    holds the header and one row for each PMID before it, in order;
    nothing is written for the failing PMID or those after it. *)
Theorem pmidTopmcid_persists_before_error elink done ids pmid rest e f w :
  Forall2 (λ pmid id, pmcid_for elink pmid = Ok id) done ids →
  pmcid_for elink pmid = Raise e →
  (pmidTopmcid elink (PmidList (done ++ pmid :: rest)) f w).1 = Raise e
  ∧ csvs (pmidTopmcid elink (PmidList (done ++ pmid :: rest)) f w).2
      !! (f ++ ".csv")
    = rows_after (csvs w !! (f ++ ".csv")) (pmcid_rows done ids).
Proof.
  intros HF He.
  destruct (pmid_loop_prefix elink f done ids (pmid :: rest) w HF)
    as (w' & Hloop & Hrows).
  destruct (pmid_step_raise elink f pmid e w' He) as (w'' & Hstep & Hc).
  assert (Hrun : pmidTopmcid elink (PmidList (done ++ pmid :: rest)) f w
                 = (Raise e, w'')).
  { unfold pmidTopmcid.
    assert (Hl : ∃ x l, (done ++ pmid :: rest)%list = x :: l)
      by (destruct done; cbn; eauto).
    destruct Hl as (x & l & Hl). rewrite Hl. unfold bindM at 1, ret.
    rewrite <- Hl, Hloop. cbn [forM]. unfold bindM at 1. by rewrite Hstep. }
  rewrite Hrun. cbn [fst snd]. by rewrite Hc.
Qed.

Lemma pmidTopmcid_persists_before_error_witness :
  let elink := λ pmid, if String.eqb pmid "31"
                       then Raise (mkExn URLError "<urlopen error timed out>")
                       else Ok [mkLinkSetDb [mkLink ("7" ++ pmid)]] in
  (pmidTopmcid elink (PmidList (["29"; "30"] ++ "31" :: ["32"])) "pmcids"
     empty_world).1
  = Raise (mkExn URLError "<urlopen error timed out>")
  ∧ csvs (pmidTopmcid elink (PmidList (["29"; "30"] ++ "31" :: ["32"]))
            "pmcids" empty_world).2 !! "pmcids.csv"
    = Some [["PMID"; "PMCID"]; ["29"; "729"]; ["30"; "730"]].
Proof.
  intros elink.
  apply (pmidTopmcid_persists_before_error elink ["29"; "30"] ["729"; "730"]
           "31" ["32"] _ "pmcids" empty_world).
  - repeat constructor.
  - reflexivity.
Defined.

(** X16.  When every PMID gets an identifier, [pmidTopmcid] returns and
    the registry holds, after what it held, the header row if the file was
    missing and one row per PMID in the order of the argument. *)
Theorem pmidTopmcid_rows elink x l ids f w :
  Forall2 (λ pmid id, pmcid_for elink pmid = Ok id) (x :: l) ids →
  (pmidTopmcid elink (PmidList (x :: l)) f w).1 = Ok ()
  ∧ csvs (pmidTopmcid elink (PmidList (x :: l)) f w).2 !! (f ++ ".csv")
    = rows_after (csvs w !! (f ++ ".csv")) (pmcid_rows (x :: l) ids).
Proof.
  intros HF.
  destruct (pmid_loop_prefix elink f (x :: l) ids [] w HF) as (w' & Hl & Hrows).
  rewrite app_nil_r in Hl.
  assert (Hrun : pmidTopmcid elink (PmidList (x :: l)) f w = (Ok (), w')).
  { unfold pmidTopmcid. unfold bindM at 1, ret. by rewrite Hl. }
  by rewrite Hrun.
Qed.

Lemma pmidTopmcid_rows_witness :
  let elink := λ pmid, Ok [mkLinkSetDb [mkLink ("7" ++ pmid)]] in
  (pmidTopmcid elink (PmidList ["29"; "30"]) "pmcids" empty_world).1 = Ok ()
  ∧ csvs (pmidTopmcid elink (PmidList ["29"; "30"]) "pmcids" empty_world).2
      !! "pmcids.csv"
    = Some [["PMID"; "PMCID"]; ["29"; "729"]; ["30"; "730"]].
Proof.
  intros elink.
  apply (pmidTopmcid_rows elink "29" ["30"] ["729"; "730"] "pmcids" empty_world).
  repeat constructor.
Defined.

(** An empty list is refused before any request: [pmids[0]] raises. *)
Example pmidTopmcid_empty_list elink f w :
  pmidTopmcid elink (PmidList []) f w
  = (Raise (mkExn IndexError "list index out of range"), w).
Proof. reflexivity. Qed.

(** ** Answered requests *)

Lemma writecsvRow_last f row hs w :
  hs ≠ [] →
  ∃ rows w', writecsvRow f row (Some hs) w = (Ok (), w')
             ∧ csvs w' !! (f ++ ".csv") = Some (rows ++ [row])%list
             ∧ blobs w' = blobs w ∧ trace w' = trace w.
Proof.
  intros Hhs. destruct (csvs w !! (f ++ ".csv")) as [rows|] eqn:Hf.
  - rewrite (writecsvRow_existing _ _ _ _ rows) by done.
    exists rows. eexists. split; [done|]. cbn [csvs blobs trace].
    by rewrite lookup_insert_eq.
  - unfold writecsvRow, checkHeaders, bindM, isfile. rewrite Hf.
    rewrite (bool_decide_eq_false_2 (is_Some None)) by (intros [? ?]; done).
    rewrite (bool_decide_eq_true_2 (hs ≠ [])) by done.
    cbn [negb andb]. unfold append_rows. cbn [csvs blobs trace].
    rewrite Hf, lookup_insert_eq, insert_insert_eq.
    exists [hs]. eexists. split; [done|]. cbn [csvs blobs trace].
    by rewrite lookup_insert_eq.
Qed.





(** X18.  The first download loop of [grabViaCrossref] asks nothing of a
    URL that it read from the downloadable registry or from the bad-URL
    registry: what is marked bad is left to the retry pass. *)
Theorem first_pass_spares_both_registries
    getsizeof requests_get requests_head urlopen now h articlesURLs
    downloadableURLs badURLs w :
  ∃ evs,
    trace (first_pass getsizeof requests_get requests_head urlopen now h
             articlesURLs downloadableURLs badURLs w).2 = (trace w ++ evs)%list
    ∧ Forall (spares (downloadableURLs ++ badURLs)) evs.
Proof.
  assert (Hs : sparing w (downloadableURLs ++ badURLs)
                 (first_pass getsizeof requests_get requests_head urlopen now h
                    articlesURLs downloadableURLs badURLs)).
  { unfold first_pass. apply sparing_seq; [|by apply sparing_emit].
    apply sparing_forM. intros item _.
    destruct (contains "10.1017/s" item.1).
    - by apply sparing_try_cambridge.
    - apply sparing_forM. intros url_type _. by apply sparing_try_url. }
  destruct (Hs w (grows_refl w)) as (_ & Hevs & _). exact Hevs.
Qed.

(** ** Articles and their links *)

Lemma remove_duplicates_go_spec seen articles :
  NoDup (message_DOI <$> remove_duplicates_go seen articles)
  ∧ (∀ doi, doi ∈ message_DOI <$> remove_duplicates_go seen articles
            ↔ doi ∈ message_DOI <$> articles ∧ doi ∉ seen)
  ∧ sublist (remove_duplicates_go seen articles) articles.
Proof.
  revert seen. induction articles as [|a l IH]; intros seen.
  - cbn. split; [constructor|]. split; [|done].
    intros doi. rewrite elem_of_nil. tauto.
  - cbn [remove_duplicates_go].
    destruct (IH seen) as (Hnd & Hin & Hsub).
    destruct (IH (message_DOI a :: seen)) as (Hnd' & Hin' & Hsub').
    destruct (bool_decide (message_DOI a ∈ seen)) eqn:E.
    + apply bool_decide_eq_true in E.
      split; [done|]. split; [|by apply sublist_cons].
      intros doi. rewrite Hin. cbn [fmap list_fmap]. rewrite elem_of_cons.
      split; [tauto|]. intros [[->|H] Hn]; [contradiction|done].
    + apply bool_decide_eq_false in E. cbn [fmap list_fmap].
      split; [|split; [|by apply sublist_skip]].
      * constructor; [|done]. intros H. apply Hin' in H as [_ H].
        apply H. by left.
      * intros doi. rewrite !elem_of_cons.
        change (list_fmap article string message_DOI
                  (remove_duplicates_go (message_DOI a :: seen) l))
          with (message_DOI <$> remove_duplicates_go (message_DOI a :: seen) l).
        rewrite Hin', elem_of_cons.
        change (list_fmap article string message_DOI l)
          with (message_DOI <$> l).
        destruct (decide (doi = message_DOI a)) as [->|Hne]; [tauto|tauto].
Qed.

Lemma remove_duplicates_go_first seen articles a :
  a ∈ remove_duplicates_go seen articles
  ↔ ∃ pre post, articles = (pre ++ a :: post)%list
                ∧ (message_DOI a ∉ seen)
                ∧ (message_DOI a ∉ message_DOI <$> pre).
Proof.
  revert seen. induction articles as [|x l IH]; intros seen.
  - cbn. rewrite elem_of_nil. split; [done|].
    intros (pre & post & E & _). by destruct pre.
  - cbn [remove_duplicates_go].
    destruct (bool_decide (message_DOI x ∈ seen)) eqn:E.
    + apply bool_decide_eq_true in E. rewrite IH. split.
      * intros (pre & post & -> & Hs & Hp). exists (x :: pre), post.
        split; [done|]. split; [done|]. cbn [fmap list_fmap].
        intros [Heq|Hin]%elem_of_cons; [|contradiction].
        apply Hs. by rewrite Heq.
      * intros (pre & post & Hl & Hs & Hp). destruct pre as [|y pre].
        -- cbn in Hl. injection Hl as -> ->. contradiction.
        -- cbn in Hl. injection Hl as -> ->. exists pre, post.
           split; [done|]. split; [done|]. intros Hin. apply Hp.
           cbn [fmap list_fmap]. by right.
    + apply bool_decide_eq_false in E. rewrite elem_of_cons, IH. split.
      * intros [->|(pre & post & -> & Hs & Hp)].
        -- exists [], l. split; [done|]. split; [done|]. apply not_elem_of_nil.
        -- exists (x :: pre), post. split; [done|].
           rewrite not_elem_of_cons in Hs. destruct Hs as [Hne Hs].
           split; [done|]. cbn [fmap list_fmap].
           intros [Heq|Hin]%elem_of_cons; contradiction.
      * intros (pre & post & Hl & Hs & Hp). destruct pre as [|y pre].
        -- cbn in Hl. injection Hl as -> ->. by left.
        -- cbn in Hl. injection Hl as -> ->. right. exists pre, post.
           cbn [fmap list_fmap] in Hp. rewrite not_elem_of_cons in Hp.
           destruct Hp as [Hne Hp]. split; [done|]. split; [|done].
           intros [Heq|Hin]%elem_of_cons; contradiction.
Qed.

(** X19.  The duplicate filter keeps, of every DOI, the first record and
    no other: a record is kept exactly when it stands in the input behind
    no record of the same DOI.  The kept articles have pairwise distinct
    DOIs, carry exactly the DOIs of the input, and are a sub-list of the
    input, so nothing is reordered. *)
Theorem remove_duplicates_spec articles :
  NoDup (message_DOI <$> remove_duplicates articles)
  ∧ (∀ doi, doi ∈ message_DOI <$> remove_duplicates articles
            ↔ doi ∈ message_DOI <$> articles)
  ∧ sublist (remove_duplicates articles) articles
  ∧ (∀ a, a ∈ remove_duplicates articles
          ↔ ∃ pre post, articles = (pre ++ a :: post)%list
                        ∧ (message_DOI a ∉ message_DOI <$> pre)).
Proof.
  destruct (remove_duplicates_go_spec [] articles) as (Hnd & Hin & Hsub).
  split; [done|]. split; [|split; [done|]].
  - intros doi. rewrite (Hin doi), elem_of_nil. tauto.
  - intros a. unfold remove_duplicates. rewrite remove_duplicates_go_first.
    split.
    + intros (pre & post & E & _ & Hp). by exists pre, post.
    + intros (pre & post & E & Hp). exists pre, post.
      split; [done|]. split; [apply not_elem_of_nil|done].
Qed.

(** Of two records of one DOI the first is kept, also when only the
    second has links. *)
Example remove_duplicates_keeps_first :
  remove_duplicates
    [ mkArticle "10.1000/a" None;
      mkArticle "10.1000/b" None;
      mkArticle "10.1000/a" (Some [("http://host/a.pdf", "application/pdf")]) ]
  = [ mkArticle "10.1000/a" None; mkArticle "10.1000/b" None ].
Proof. reflexivity. Qed.

Lemma dict_set_fresh {V} k (v : V) d :
  k ∉ d.*1 → dict_set k v d = (d ++ [(k, v)])%list.
Proof.
  induction d as [|[k' v'] d IH]; [done|].
  cbn [fmap list_fmap fst dict_set app]. rewrite elem_of_cons.
  intros Hk. destruct (String.eqb_spec k' k) as [->|Hne]; [tauto|].
  rewrite IH; [done|tauto].
Qed.

Lemma set_add_fresh x s : x ∉ s → set_add x s = (s ++ [x])%list.
Proof. intros H. unfold set_add. by rewrite bool_decide_eq_false_2. Qed.

Lemma extract_links_go_fresh articles U N :
  NoDup (message_DOI <$> articles) →
  (∀ doi, doi ∈ message_DOI <$> articles → (doi ∉ U.*1) ∧ (doi ∉ N)) →
  extract_links_go articles U N
  = ((U ++ omap links_of articles)%list, (N ++ omap no_link_of articles)%list).
Proof.
  revert U N. induction articles as [|a l IH]; intros U N Hnd Hfresh.
  - cbn. by rewrite !app_nil_r.
  - cbn [fmap list_fmap] in Hnd, Hfresh. apply NoDup_cons in Hnd as [Ha Hnd].
    destruct (Hfresh (message_DOI a)) as [HU HN]; [by left|].
    assert (Hrest : ∀ doi, doi ∈ message_DOI <$> l
                           → doi ≠ message_DOI a ∧ (doi ∉ U.*1) ∧ (doi ∉ N)).
    { intros doi Hd. split; [by intros ->|]. apply Hfresh. by right. }
    cbn [extract_links_go omap list_omap]. unfold no_link_of, links_of.
    destruct (message_link a) as [links|].
    + destruct (bool_decide (remove_dups links ≠ [])).
      * rewrite dict_set_fresh by done. rewrite IH; [|done|].
        -- by rewrite <- app_assoc.
        -- intros doi Hd. destruct (Hrest doi Hd) as (Hne & H1 & H2).
           split; [|done]. rewrite fmap_app, elem_of_app. cbn.
           rewrite list_elem_of_singleton. tauto.
      * rewrite set_add_fresh by done. rewrite IH; [|done|].
        -- by rewrite <- app_assoc.
        -- intros doi Hd. destruct (Hrest doi Hd) as (Hne & H1 & H2).
           split; [done|]. rewrite elem_of_app, list_elem_of_singleton. tauto.
    + rewrite set_add_fresh by done. rewrite IH; [|done|].
      * by rewrite <- app_assoc.
      * intros doi Hd. destruct (Hrest doi Hd) as (Hne & H1 & H2).
        split; [done|]. rewrite elem_of_app, list_elem_of_singleton. tauto.
Qed.

Lemma links_partition l :
  ((omap links_of l).*1 ++ omap no_link_of l)%list ≡ₚ message_DOI <$> l.
Proof.
  induction l as [|a l IH]; [done|].
  cbn [omap list_omap fmap list_fmap]. unfold no_link_of at 1.
  destruct (links_of a) as [[doi urls]|] eqn:E.
  - assert (doi = message_DOI a) as ->.
    { unfold links_of in E. destruct (message_link a); [|done].
      destruct (bool_decide _); by simplify_eq. }
    cbn. by f_equiv.
  - rewrite <- Permutation_middle. by f_equiv.
Qed.

(** X20.  After the duplicate filter, the link extraction places every
    DOI exactly once, either among the keys of [articlesURLs] or in
    [doisWithNoLink]: the two together are a rearrangement of the DOIs of
    the filtered articles, and every key of [articlesURLs] has at least one
    candidate link. *)
Theorem extract_links_partition articles :
  ((extract_links (remove_duplicates articles)).1.*1
   ++ (extract_links (remove_duplicates articles)).2)%list
  ≡ₚ message_DOI <$> remove_duplicates articles
  ∧ Forall (λ kv, kv.2 ≠ []) (extract_links (remove_duplicates articles)).1.
Proof.
  destruct (remove_duplicates_go_spec [] articles) as (Hnd & _ & _).
  fold (remove_duplicates articles) in Hnd.
  unfold extract_links. rewrite extract_links_go_fresh; [|done|].
  - cbn [fst snd app]. split; [apply links_partition|].
    apply Forall_forall. intros [doi urls] Hin.
    apply list_elem_of_omap in Hin as (a & _ & Ha).
    unfold links_of in Ha. destruct (message_link a); [|done].
    destruct (bool_decide _) eqn:E; [|done].
    apply bool_decide_eq_true in E. by simplify_eq.
  - intros doi _. cbn. split; apply not_elem_of_nil.
Qed.

(** ** The resolution loop as the module stands *)

Lemma set_add_elem x d s : x ∈ set_add d s ↔ x = d ∨ x ∈ s.
Proof.
  unfold set_add. destruct (bool_decide (d ∈ s)) eqn:E.
  - apply bool_decide_eq_true in E. split; [tauto|]. by intros [->|H].
  - rewrite elem_of_app, list_elem_of_singleton. tauto.
Qed.

Lemma listTocsvRows_run li fileName w :
  listTocsvRows li fileName w
  = (Ok (),
     mkWorld (<[fileName ++ ".csv" :=
                  (default [] (csvs w !! (fileName ++ ".csv")%string)
                   ++ single_cells li)%list]> (csvs w))
       (blobs w) (trace w)).
Proof. reflexivity. Qed.




(** With every DOI already collected, a second normalisation takes the
    resolver address off an entry that the first one has put in lower
    case. *)
Example resolve_nothing_pending :
  (resolve module_globals 2 ["10.1000/A"] [mkArticle "10.1000/a" None]
     ["HTTPS://DOI.ORG/10.1000/B"] empty_world).2
  = mkWorld {[ notFound_registry ++ ".csv" := [["10.1000/b"]] ]} ∅ [].
Proof. vm_compute. reflexivity. Qed.

(** ** No PMID is lost by pmidTodoi *)

Lemma append_rows_recorded f path rows w :
  (∀ p, recorded f w p → recorded f (append_rows path rows w).2 p)
  ∧ (path ∈ bucket_files f →
     ∀ row p, row ∈ rows → head row = Some p →
              recorded f (append_rows path rows w).2 p).
Proof.
  unfold append_rows. cbn [snd]. split.
  - intros p (path' & rows' & row & Hpath & Hrows & Hrow & Hhead).
    destruct (decide (path = path')) as [->|Hne].
    + exists path', (rows' ++ rows)%list, row. cbn [csvs].
      rewrite lookup_insert_eq, Hrows. repeat split; try done.
      apply elem_of_app. by left.
    + exists path', rows', row. cbn [csvs].
      by rewrite lookup_insert_ne.
  - intros Hpath row p Hrow Hhead.
    exists path, (default [] (csvs w !! path) ++ rows)%list, row. cbn [csvs].
    rewrite lookup_insert_eq. repeat split; try done.
    apply elem_of_app. by right.
Qed.

Lemma checkHeaders_recorded f name hs w :
  ∃ w', checkHeaders name (Some hs) w = (Ok (), w')
        ∧ ∀ p, recorded f w p → recorded f w' p.
Proof.
  unfold checkHeaders, bindM, isfile.
  destruct (bool_decide (hs ≠ []) && negb _).
  - eexists. split; [reflexivity|]. apply append_rows_recorded.
  - eexists. split; [reflexivity|]. done.
Qed.

Lemma dictTocsv_recorded f d hs w :
  ∃ w', dictTocsv d f (Some hs) w = (Ok (), w')
        ∧ (∀ p, recorded f w p → recorded f w' p)
        ∧ (∀ p, p ∈ d.*1 → recorded f w' p).
Proof.
  unfold dictTocsv, bindM at 1.
  destruct (checkHeaders_recorded f f hs w) as (w1 & -> & Hkeep).
  eexists. split; [reflexivity|].
  destruct (append_rows_recorded f (f ++ ".csv")
              ((λ kv : string * string, [kv.1; kv.2]) <$> d) w1) as [Hk Hnew].
  split; [by auto|].
  intros p (kv & -> & Hkv)%list_elem_of_fmap.
  apply (Hnew ltac:(by left) [kv.1; kv.2]); [|done].
  apply list_elem_of_fmap. by exists kv.
Qed.

Lemma listTocsvRows_recorded f li name w :
  name ++ ".csv" ∈ bucket_files f →
  ∃ w', listTocsvRows li name w = (Ok (), w')
        ∧ (∀ p, recorded f w p → recorded f w' p)
        ∧ (∀ p, p ∈ li → recorded f w' p).
Proof.
  intros Hname. unfold listTocsvRows. eexists. split; [reflexivity|].
  destruct (append_rows_recorded f (name ++ ".csv") ((λ i, [i]) <$> li) w)
    as [Hk Hnew].
  split; [done|]. intros p Hp. apply (Hnew Hname [p]); [|done].
  apply list_elem_of_fmap. by exists p.
Qed.

Lemma emit_recorded f e w p :
  recorded f w p → recorded f (emit e w).2 p.
Proof. done. Qed.

Lemma flush_recorded total f st w :
  ∃ st' w',
    flush total f st w = (Ok st', w')
    ∧ acc_counter st' = acc_counter st
    ∧ (∀ p, recorded f w p ∨ held st p → recorded f w' p ∨ held st' p)
    ∧ (acc_counter st = total → ∀ p, ¬ held st' p).
Proof.
  unfold flush.
  destruct (bool_decide (acc_counter st `mod` 1000 = 0)%nat
            || bool_decide (acc_counter st = total)) eqn:E.
  - destruct (dictTocsv_recorded f (acc_pmid_doi st) ["PMID"; "DOI"] w)
      as (w1 & H1 & K1 & N1).
    destruct (listTocsvRows_recorded f (acc_unicodeErrorpmids st)
                "unicode Error pmids" w1) as (w2 & H2 & K2 & N2).
    { unfold bucket_files. rewrite !elem_of_cons. tauto. }
    destruct (listTocsvRows_recorded f (acc_notFoundpmids st)
                "not Found pmids" w2) as (w3 & H3 & K3 & N3).
    { unfold bucket_files. rewrite !elem_of_cons. tauto. }
    destruct (listTocsvRows_recorded f (acc_notFounddois st)
                "not Found dois" w3) as (w4 & H4 & K4 & N4).
    { unfold bucket_files. rewrite !elem_of_cons. tauto. }
    eexists _, _. split.
    { unfold bindM at 1. rewrite H1. unfold bindM at 1. rewrite H2.
      unfold bindM at 1. rewrite H3. unfold bindM at 1. rewrite H4.
      reflexivity. }
    cbn [acc_counter]. split; [done|]. split.
    + intros p [Hr|[Hh|[Hh|[Hh|Hh]]]]; left;
        apply emit_recorded, emit_recorded; auto.
    + intros _ p. unfold held. cbn. rewrite !elem_of_nil. tauto.
  - exists st, w. split; [done|]. split; [done|]. split; [done|].
    intros Hc. apply orb_false_iff in E as [_ E].
    apply bool_decide_eq_false in E. contradiction.
Qed.

Lemma open_summary_ok esummary pmid st w st1 w1 :
  open_summary esummary pmid st w = (Ok st1, w1) →
  csvs w1 = csvs w ∧ acc_counter st1 = acc_counter st
  ∧ acc_pmid_doi st1 = acc_pmid_doi st
  ∧ acc_unicodeErrorpmids st1 = acc_unicodeErrorpmids st
  ∧ acc_notFoundpmids st1 = acc_notFoundpmids st
  ∧ acc_notFounddois st1 = acc_notFounddois st.
Proof.
  unfold open_summary, try_except, bindM at 1. rewrite call_run.
  destruct (esummary pmid) as [hd|e].
  - intros [= <- <-]. done.
  - destruct (caught_by [URLError] e); [|discriminate].
    intros [= <- <-]. done.
Qed.

Lemma read_summary_ok Entrez_read pmid st w st2 w2 :
  read_summary Entrez_read pmid st w = (Ok st2, w2) →
  csvs w2 = csvs w ∧ acc_counter st2 = acc_counter st
  ∧ held st2 pmid ∧ (∀ p, held st p → held st2 p).
Proof.
  unfold read_summary, try_except. cbv zeta.
  destruct (acc_handle st) as [hd|] eqn:Eh.
  - unfold bindM at 1, ret. unfold bindM at 1. rewrite call_run.
    destruct (read_handle Entrez_read hd) as [rec|e].
    + unfold lift.
      destruct (pmidEntrezSummaryRecordTodoi rec) as [doi|e] eqn:Er.
      * unfold bindM. cbn. intros [= <- <-]. unfold held. cbn.
        rewrite fmap_app. split; [done|]. split; [done|]. split.
        -- left. apply elem_of_app. right. cbn. by left.
        -- intros p [H|H]; [left; apply elem_of_app; by left|by right].
      * unfold bindM. cbn [fst snd].
        destruct (caught_by [ValueError] e).
        -- intros [= <- <-]. unfold held. cbn.
           split; [done|]. split; [done|]. split.
           ++ do 3 right. apply set_add_elem. by left.
           ++ intros p [H|[H|[H|H]]]; auto.
              do 3 right. apply set_add_elem. by right.
        -- destruct (caught_by _ e); [|discriminate].
           destruct (issubclass (exn_cls e) RuntimeError).
           ++ unfold bindM, lift, print, emit, raise, ret.
              destruct (first_digits (exn_str e)) as [n|]; [|discriminate].
              destruct (bool_decide (pmid = n)); [|discriminate].
              intros [= <- <-]. unfold held. cbn.
              split; [done|]. split; [done|]. split.
              ** right. right. left. apply set_add_elem. by left.
              ** intros p [H|[H|[H|H]]]; auto.
                 right. right. left. apply set_add_elem. by right.
           ++ unfold bindM, print, emit, ret.
              intros [= <- <-]. unfold held. cbn.
              split; [done|]. split; [done|]. split.
              ** right. left. apply set_add_elem. by left.
              ** intros p [H|[H|[H|H]]]; auto.
                 right. left. apply set_add_elem. by right.
    + destruct (caught_by _ e); [|discriminate].
      destruct (issubclass (exn_cls e) RuntimeError).
      * unfold bindM, lift, print, emit, raise, ret.
        destruct (first_digits (exn_str e)) as [n|]; [|discriminate].
        destruct (bool_decide (pmid = n)); [|discriminate].
        intros [= <- <-]. unfold held. cbn.
        split; [done|]. split; [done|]. split.
        -- right. right. left. apply set_add_elem. by left.
        -- intros p [H|[H|[H|H]]]; auto.
           right. right. left. apply set_add_elem. by right.
      * unfold bindM, print, emit, ret.
        intros [= <- <-]. unfold held. cbn.
        split; [done|]. split; [done|]. split.
        -- right. left. apply set_add_elem. by left.
        -- intros p [H|[H|[H|H]]]; auto.
           right. left. apply set_add_elem. by right.
  - unfold bindM at 1, raise. cbn. discriminate.
Qed.

Lemma recorded_same_csvs f w w' p :
  csvs w' = csvs w → recorded f w p → recorded f w' p.
Proof.
  intros Hc (path & rows & row & H). exists path, rows, row. by rewrite Hc.
Qed.

Lemma fetch_loop_keeps esummary Entrez_read total f todo seen st w st' w' :
  fetch_loop esummary Entrez_read total f todo st w = (Ok st', w') →
  (∀ p, p ∈ seen → recorded f w p ∨ held st p) →
  (acc_counter st + List.length todo = total)%nat →
  (∀ p, p ∈ (seen ++ todo)%list → recorded f w' p ∨ held st' p)
  ∧ (todo ≠ [] → ∀ p, ¬ held st' p).
Proof.
  revert seen st w. induction todo as [|pmid todo IH]; intros seen st w.
  - cbn. intros [= <- <-] Hseen _. rewrite app_nil_r. done.
  - cbn [fetch_loop List.length]. intros Hrun Hseen Hcount.
    set (st0 := mkFetch (S (acc_counter st)) (acc_handle st) (acc_pmid_doi st)
                  (acc_unicodeErrorpmids st) (acc_notFoundpmids st)
                  (acc_notFounddois st)) in *.
    unfold bindM at 1 in Hrun.
    destruct (open_summary esummary pmid st0 w) as [[st1|e] w1] eqn:E1;
      [|discriminate].
    apply open_summary_ok in E1 as (Hc1 & Hn1 & Ha1 & Hb1 & Hd1 & He1).
    unfold bindM at 1 in Hrun.
    destruct (read_summary Entrez_read pmid st1 w1) as [[st2|e] w2] eqn:E2;
      [|discriminate].
    apply read_summary_ok in E2 as (Hc2 & Hn2 & Hheld & Hmono).
    unfold bindM at 1 in Hrun.
    destruct (flush_recorded total f st2 w2) as (st3 & w3 & E3 & Hn3 & Hk3 & Hz3).
    rewrite E3 in Hrun.
    assert (Hseen3 : ∀ p, p ∈ (seen ++ [pmid])%list
                          → recorded f w3 p ∨ held st3 p).
    { intros p [Hp|Hp]%elem_of_app; apply Hk3.
      - destruct (Hseen p Hp) as [Hr|Hh].
        + left. apply (recorded_same_csvs f w1); [done|].
          by apply (recorded_same_csvs f w).
        + right. apply Hmono. unfold held in *.
          rewrite Ha1, Hb1, Hd1, He1. exact Hh.
      - apply list_elem_of_singleton in Hp as ->. by right. }
    assert (Hcount3 : (acc_counter st3 + List.length todo = total)%nat).
    { rewrite Hn3, Hn2, Hn1. cbn [acc_counter st0]. lia. }
    destruct (IH (seen ++ [pmid])%list st3 w3 Hrun Hseen3 Hcount3)
      as [Hall Hempty].
    split.
    + intros p Hp. apply Hall. by rewrite <- app_assoc.
    + intros _. destruct todo as [|q todo]; [|by apply Hempty].
      cbn in Hrun. injection Hrun as <- <-. apply Hz3.
      rewrite Hn2, Hn1. cbn [acc_counter st0 List.length] in *. lia.
Qed.

(** X22.  When [pmidTodoi] gets through its list, no PMID is lost: every
    PMID of the list is the first cell of a row in one of the four
    registries (DOIs, unicode errors, missing records, missing DOIs), the
    last of the periodic flushes falling on the last PMID. *)
Theorem pmidTodoi_records_every_pmid
    esummary Entrez_read pmids doisCSVfile w st' w' pmid :
  pmidTodoi_fetch esummary Entrez_read pmids doisCSVfile w = (Ok st', w') →
  pmid ∈ pmids → recorded doisCSVfile w' pmid.
Proof.
  unfold pmidTodoi_fetch. unfold bindM at 1, print, emit.
  unfold bindM at 1. intros Hrun Hp.
  destruct (fetch_loop_keeps esummary Entrez_read (List.length pmids)
              doisCSVfile pmids [] (mkFetch 0 None [] [] [] []) _ st' w' Hrun)
    as [Hall Hempty].
  - intros p Hin. by apply elem_of_nil in Hin.
  - done.
  - destruct (Hall pmid Hp) as [Hr|Hh]; [done|].
    destruct (Hempty ltac:(by intros ->; apply elem_of_nil in Hp) pmid Hh).
Qed.

Lemma pmidTodoi_records_every_pmid_witness :
  recorded "dois"
    (pmidTodoi_fetch esummary_ok read_two ["100"; "200"] "dois"
       empty_world).2 "200".
Proof.
  eapply (pmidTodoi_records_every_pmid esummary_ok read_two ["100"; "200"]
            "dois" empty_world
            (mkFetch 2 (Some (mkHandle "handle-200" true)) [] [] [] [])).
  - vm_compute. reflexivity.
  - right. by left.
Defined.

(** ** Failed requests *)

Lemma transport_fails getsizeof service (get : result response) e
    (mkdict : response → gmap string (option string)) classes doi url w :
  get = Raise e →
  caught_by classes e = true →
  ∃ rows w',
    log_and_reraise doi url
      (try_except
         (let! r := call service url get in
          store getsizeof doi url (mkdict r) (content r))
         classes (record_bad doi url)) w = (Ok (), w')
    ∧ csvs w' !! bad_csv = Some (rows ++ [[doi; url; exn_str e]])%list
    ∧ csvs w' !! downloadable_csv = csvs w !! downloadable_csv
    ∧ blobs w' = blobs w.
Proof.
  intros -> Hc.
  destruct (writecsvRow_last "full text/doi/bad urls" [doi; url; exn_str e]
              ["DOI"; "URL"; "ERROR"]
              (mkWorld (csvs w) (blobs w) (trace w ++ [ECall service url])%list))
    as (rows & w' & Hw & Hrows & Hb & Ht); [done|].
  exists rows, w'.
  unfold log_and_reraise, try_except, bindM. rewrite call_run. cbn [lift].
  rewrite Hc. unfold record_bad. rewrite Hw. split; [done|].
  split; [exact Hrows|]. split; [|done].
  assert (Hkeep : ∀ f row hs w0,
            csvs (writecsvRow f row (Some hs) w0).2 !! downloadable_csv
            = csvs w0 !! downloadable_csv ∨ f ++ ".csv" = downloadable_csv).
  { intros f row hs w0.
    destruct (decide (f ++ ".csv" = downloadable_csv)) as [|Hne]; [by right|].
    left. unfold writecsvRow, checkHeaders, bindM, isfile, append_rows, ret.
    repeat case_match; simplify_eq; cbn [snd csvs];
      rewrite ?lookup_insert_ne by done; done. }
  destruct (Hkeep "full text/doi/bad urls" [doi; url; exn_str e]
              ["DOI"; "URL"; "ERROR"]
              (mkWorld (csvs w) (blobs w) (trace w ++ [ECall service url])%list))
    as [Hk|Hk]; [|discriminate].
  by rewrite Hw in Hk.
Qed.

(** X23.  When the request itself fails with one of the errors its
    transport recognises, the call returns normally, the row (DOI, URL,
    text of the error) is the last of the bad-URL registry, and neither
    the downloadable registry nor any artifact changes. *)
Theorem failed_request_is_recorded
    getsizeof requests_get urlopen doi url h w e e' :
  requests_get url h = Raise e → caught_by requests_classes e = true →
  urlopen url h = Raise e' → caught_by urllib_classes e' = true →
  (∃ rows,
     (downloadViaRequests getsizeof requests_get doi url h w).1 = Ok ()
     ∧ csvs (downloadViaRequests getsizeof requests_get doi url h w).2
         !! bad_csv = Some (rows ++ [[doi; url; exn_str e]])%list
     ∧ csvs (downloadViaRequests getsizeof requests_get doi url h w).2
         !! downloadable_csv = csvs w !! downloadable_csv
     ∧ blobs (downloadViaRequests getsizeof requests_get doi url h w).2
       = blobs w)
  ∧ (∃ rows,
       (downloadViaUrlLib getsizeof urlopen doi url h w).1 = Ok ()
       ∧ csvs (downloadViaUrlLib getsizeof urlopen doi url h w).2
           !! bad_csv = Some (rows ++ [[doi; url; exn_str e']])%list
       ∧ csvs (downloadViaUrlLib getsizeof urlopen doi url h w).2
           !! downloadable_csv = csvs w !! downloadable_csv
       ∧ blobs (downloadViaUrlLib getsizeof urlopen doi url h w).2
         = blobs w).
Proof.
  intros Hget Hc Hopen Hc'. split.
  - unfold downloadViaRequests.
    destruct (transport_fails getsizeof "requests.get" (requests_get url h) e
                (λ r, {[ "contentType" := content_type r;
                         "contentDisposition" := content_disposition r;
                         "url" := Some url ]}) requests_classes doi url w
                Hget Hc) as (rows & w' & Hrun & H1 & H2 & H3).
    exists rows. by rewrite Hrun.
  - unfold downloadViaUrlLib.
    destruct (transport_fails getsizeof "urlopen" (urlopen url h) e'
                (λ r, {[ "contentType" := content_type r; "url" := Some url ]})
                urllib_classes doi url w Hopen Hc')
      as (rows & w' & Hrun & H1 & H2 & H3).
    exists rows. by rewrite Hrun.
Qed.

Lemma failed_request_is_recorded_witness :
  (∃ rows,
     (downloadViaRequests getsizeof_bytes
        (λ _ _, Raise (mkExn RequestsTimeout "Read timed out."))
        "10.1/x" "http://host/x" None disk_with_pdf).1 = Ok ()
     ∧ csvs (downloadViaRequests getsizeof_bytes
               (λ _ _, Raise (mkExn RequestsTimeout "Read timed out."))
               "10.1/x" "http://host/x" None disk_with_pdf).2 !! bad_csv
       = Some (rows ++ [["10.1/x"; "http://host/x"; "Read timed out."]])%list
     ∧ csvs (downloadViaRequests getsizeof_bytes
               (λ _ _, Raise (mkExn RequestsTimeout "Read timed out."))
               "10.1/x" "http://host/x" None disk_with_pdf).2
         !! downloadable_csv = csvs disk_with_pdf !! downloadable_csv
     ∧ blobs (downloadViaRequests getsizeof_bytes
                (λ _ _, Raise (mkExn RequestsTimeout "Read timed out."))
                "10.1/x" "http://host/x" None disk_with_pdf).2
       = blobs disk_with_pdf)
  ∧ (∃ rows,
       (downloadViaUrlLib getsizeof_bytes urlopen_timeout
          "10.1/x" "http://host/x" None disk_with_pdf).1 = Ok ()
       ∧ csvs (downloadViaUrlLib getsizeof_bytes urlopen_timeout
                 "10.1/x" "http://host/x" None disk_with_pdf).2 !! bad_csv
         = Some (rows ++ [["10.1/x"; "http://host/x";
                           "<urlopen error timed out>"]])%list
       ∧ csvs (downloadViaUrlLib getsizeof_bytes urlopen_timeout
                 "10.1/x" "http://host/x" None disk_with_pdf).2
           !! downloadable_csv = csvs disk_with_pdf !! downloadable_csv
       ∧ blobs (downloadViaUrlLib getsizeof_bytes urlopen_timeout
                  "10.1/x" "http://host/x" None disk_with_pdf).2
         = blobs disk_with_pdf).
Proof.
  apply (failed_request_is_recorded getsizeof_bytes
           (λ _ _, Raise (mkExn RequestsTimeout "Read timed out."))
           urlopen_timeout "10.1/x" "http://host/x" None disk_with_pdf
           (mkExn RequestsTimeout "Read timed out.")
           (mkExn URLError "<urlopen error timed out>")); reflexivity.
Defined.

(** X24.  An error of the probe that is neither a connection error nor
    too many redirects leaves [download] at once: no transport is tried and
    no registry, artifact or row is written; a time-out of the probe ends
    the run where a time-out of the download itself is only recorded. *)
Theorem probe_error_propagates
    getsizeof requests_get requests_head urlopen now doi url h w e :
  requests_head url h = Raise e →
  caught_by [RequestsConnectionError; RequestsTooManyRedirects] e = false →
  download getsizeof requests_get requests_head urlopen now doi url h w
  = (Raise e,
     mkWorld (csvs w) (blobs w) (trace w ++ [ECall "requests.head" url])%list).
Proof.
  intros Hhead Hc. unfold download. unfold bindM at 1, try_except.
  unfold bindM at 1. rewrite call_run, Hhead, Hc. reflexivity.
Qed.

Lemma probe_error_propagates_witness :
  download getsizeof_bytes get_pdf
    (λ _ _, Raise (mkExn RequestsTimeout "Read timed out."))
    urlopen_timeout 0 "10.1/x" "http://host/x" None empty_world
  = (Raise (mkExn RequestsTimeout "Read timed out."),
     mkWorld ∅ ∅ [ECall "requests.head" "http://host/x"]).
Proof.
  apply (probe_error_propagates getsizeof_bytes get_pdf
           (λ _ _, Raise (mkExn RequestsTimeout "Read timed out."))
           urlopen_timeout 0 "10.1/x" "http://host/x" None empty_world
           (mkExn RequestsTimeout "Read timed out.")); reflexivity.
Defined.

(** ** Rows that csvTodict cannot read *)

(** X25.  [csvTodict] succeeds exactly when every row of the file has at
    least two cells; a file with a shorter row, as [listTocsvRows] writes
    them, makes it raise [IndexError]. *)
Theorem csvTodict_rows_ok_iff rows d :
  (∃ d', csvTodict_rows rows d = Ok d')
  ↔ Forall (λ row, (2 ≤ List.length row)%nat) rows.
Proof.
  revert d. induction rows as [|row rows IH]; intros d.
  - split; [constructor|]. intros _. by exists d.
  - cbn [csvTodict_rows]. unfold row_get. rewrite Forall_cons.
    destruct row as [|k [|v more]]; cbn.
    + split; [intros [? ?]; discriminate|]. intros [? _]. lia.
    + split; [intros [? ?]; discriminate|]. intros [? _]. lia.
    + rewrite IH. split; [intros ?; split; [lia|done]|tauto].
Qed.

(** ** The host of a URL *)

Lemma domain_rest_host host path :
  has_char "/" host = false → no_newline host = true →
  domain_rest (host ++ String "/" path) = Some (host, path).
Proof.
  induction host as [|c host IH]; [done|].
  cbn [has_char no_newline]. intros [Hc Hh]%orb_false_iff [Hn Hl]%andb_true_iff.
  rewrite append_cons. cbn [domain_rest].
  rewrite Ascii.eqb_sym, Hc.
  apply negb_true_iff in Hn. rewrite Hn. by rewrite IH.
Qed.

Lemma domain_match_no_prefix s :
  String.prefix "//" s = false → domain_match s = None.
Proof.
  destruct s as [|a [|b s]]; [done| |].
  - intros _. cbn. by repeat case_match.
  - rewrite !prefix_cons. intros H. unfold domain_match.
    repeat case_match; try done; simplify_eq.
    all: rewrite !bool_decide_eq_true_2 in H by done; by destruct s.
Qed.

Lemma findall_domain_skip pre s fuel :
  has_char "/" pre = false →
  findall domain_match (String.length pre + fuel) (pre ++ s)
  = findall domain_match fuel s.
Proof.
  induction pre as [|c pre IH]; [done|].
  cbn [has_char]. intros [Hc Hp]%orb_false_iff.
  rewrite append_cons. cbn [String.length Nat.add findall].
  rewrite domain_match_no_prefix; [by apply IH|].
  cbn [String.prefix]. destruct (ascii_dec "/" c) as [<-|]; [|done].
  by rewrite Ascii.eqb_refl in Hc.
Qed.

Lemma findall_domain_none fuel s :
  contains "//" s = false → findall domain_match fuel s = [].
Proof.
  revert s. induction fuel as [|fuel IH]; intros s; [done|].
  cbn [findall]. destruct s as [|c s].
  - intros _. reflexivity.
  - rewrite contains_cons. intros [Hp Hc]%orb_false_iff.
    rewrite domain_match_no_prefix by done. by apply IH.
Qed.

(** X26.  For an address made of a scheme without slash, two slashes, a
    non-empty host without slash or line break, a slash and a path without
    double slash, [getDomain] returns the host. *)
Theorem getDomain_host scheme host path :
  has_char "/" scheme = false →
  host ≠ "" → has_char "/" host = false → no_newline host = true →
  contains "//" path = false →
  getDomain (scheme ++ "//" ++ host ++ String "/" path) = Some host.
Proof.
  intros Hs Hne Hh Hn Hp. unfold getDomain, re_findall.
  rewrite string_app_length.
  replace (S (String.length scheme
              + String.length ("//" ++ host ++ String "/" path)))
    with (String.length scheme
          + S (String.length ("//" ++ host ++ String "/" path)))%nat by lia.
  rewrite findall_domain_skip by done.
  destruct host as [|c host]; [done|].
  cbn [has_char no_newline] in Hh, Hn.
  apply orb_false_iff in Hh as [Hc Hh]. apply andb_true_iff in Hn as [Hn Hl].
  rewrite !append_cons, append_nil_l. cbn [findall domain_match].
  apply negb_true_iff in Hn. rewrite Hn.
  rewrite domain_rest_host by done.
  by rewrite findall_domain_none.
Qed.

Lemma getDomain_host_witness :
  getDomain ("https:" ++ "//" ++ "doi.org" ++ String "/" "10.1/x")
  = Some "doi.org".
Proof.
  apply (getDomain_host "https:" "doi.org" "10.1/x");
    [reflexivity|discriminate|reflexivity|reflexivity|reflexivity].
Defined.

(** The last match is the one returned: a double slash further on in the
    path replaces the host. *)
Example getDomain_last_match :
  getDomain "http://host/a//b/c" = Some "b".
Proof. reflexivity. Qed.

(** ** The DOI of a summary record *)

Lemma last_char_cons c s : s ≠ "" → last_char (String c s) = last_char s.
Proof. by destruct s. Qed.

Lemma last_char_snoc s c : last_char (s ++ String c "") = Some c.
Proof.
  induction s as [|a s IH]; [done|].
  rewrite append_cons, last_char_cons; [done|]. by destruct s.
Qed.

Lemma last_char_rev s : last_char (String.rev s) = head_char s.
Proof. destruct s; [done|]. by rewrite rev_cons, last_char_snoc. Qed.

Lemma head_char_rev s : head_char (String.rev s) = last_char s.
Proof.
  induction s as [|a s IH]; [done|]. rewrite rev_cons.
  destruct s as [|b s]; [done|].
  rewrite last_char_cons by done. rewrite <- IH.
  destruct (String.rev (String b s)) eqn:E; [|done].
  rewrite rev_cons in E. by destruct (String.rev s).
Qed.

Lemma rev_nil_inv s : String.rev s = "" → s = "".
Proof.
  destruct s; [done|]. rewrite rev_cons. by destruct (String.rev s).
Qed.

Lemma lstrip_head s : lstrip s = "" ∨ kept_end (head_char (lstrip s)) = true.
Proof.
  induction s as [|c s IH]; [by left|]. cbn [lstrip].
  destruct (strip_char c) eqn:E; [done|]. right.
  cbn [head_char kept_end]. by rewrite E.
Qed.

Lemma lstrip_last s : lstrip s ≠ "" → last_char (lstrip s) = last_char s.
Proof.
  induction s as [|c s IH]; [done|]. cbn [lstrip].
  destruct (strip_char c); [|done].
  intros H. rewrite IH by done. rewrite last_char_cons; [done|].
  intros ->. by apply H.
Qed.

Lemma strip_trimmed s : strip s ≠ "" → trimmed (strip s) = true.
Proof.
  unfold strip, trimmed. intros Hne.
  assert (HL : lstrip (String.rev (lstrip s)) ≠ "").
  { intros E. apply Hne. by rewrite E. }
  rewrite head_char_rev, last_char_rev, lstrip_last by done.
  rewrite last_char_rev. apply andb_true_iff. split.
  - destruct (lstrip_head s) as [E|E]; [|done].
    rewrite E in HL. by destruct HL.
  - by destruct (lstrip_head (String.rev (lstrip s))).
Qed.

(** X27.  The DOI that [pmidEntrezSummaryRecordTodoi] returns is never
    empty, and when neither the DOI field nor the article identifiers have
    one, the value taken from ELocationID neither begins nor ends with one
    of the characters d, o, i, colon and space: a DOI that ends in one of
    these letters comes back cut short. *)
Theorem summary_doi_trimmed rec rest doi :
  pmidEntrezSummaryRecordTodoi (rec :: rest) = Ok doi →
  doi ≠ ""
  ∧ (truthy (sum_DOI rec) = false →
     truthy (sum_ArticleIds_doi rec) = false →
     ∃ loc, sum_ELocationID rec = Some loc ∧ doi = strip loc
            ∧ trimmed doi = true).
Proof.
  unfold pmidEntrezSummaryRecordTodoi, list_get.
  cbn [lookup list_lookup bind].
  destruct (truthy (sum_DOI rec)) eqn:E1.
  { intros [= <-]. split; [|done].
    destruct (sum_DOI rec) as [[|]|]; done. }
  destruct (truthy (sum_ArticleIds_doi rec)) eqn:E2.
  { intros [= <-]. split; [|done].
    destruct (sum_ArticleIds_doi rec) as [[|]|]; done. }
  destruct (sum_ELocationID rec) as [loc|]; [|done].
  cbn [fmap option_fmap option_map cell default].
  destruct (truthy (Some (strip loc))) eqn:E3; [|done].
  intros [= <-].
  assert (Hne : strip loc ≠ "").
  { intros E. rewrite E in E3. discriminate. }
  split; [done|]. intros _ _. exists loc.
  split; [done|]. split; [done|]. by apply strip_trimmed.
Qed.

Lemma summary_doi_trimmed_witness :
  "10.1/ra" ≠ ""
  ∧ (truthy None = false → truthy None = false →
     ∃ loc, Some "doi: 10.1/radio" = Some loc ∧ "10.1/ra" = strip loc
            ∧ trimmed "10.1/ra" = true).
Proof.
  apply (summary_doi_trimmed
           (mkSummary "31" None None (Some "doi: 10.1/radio")) []
           "10.1/ra").
  reflexivity.
Defined.

(** ** One row written and read back *)




Example listTocsvCols_single_entry :
  (csvTolist "cols" (listTocsvCols ["10.1/a"] "cols" empty_world).2).1
  = Ok (OneStr "10.1/a").
Proof. reflexivity. Qed.
